(** * ffmcli: the transcoding orchestration core, embedded in Rocq

    A shallow embedding of [internal/transcoder] (presets, path utilities,
    file discovery, command construction, the fallback chain around the
    external encoder and the batch loops), with the properties the design
    document states about them.

    Go strings are byte sequences: they are modelled by [string], whose
    characters are the 256 values of [ascii].  A Go [error] is an
    [option error], with [None] for [nil]. *)

From Stdlib Require Import ZArith Lia List Bool Ascii String.
From stdpp Require Import base gmap strings list fin_maps.

Open Scope string_scope.
Open Scope list_scope.

(** ** The parts of Go's [strings] package the transcoder calls *)

Module Strings.

(** [strings.HasPrefix(s, prefix)] *)
Definition HasPrefix (s prefix : string) : bool := String.prefix prefix s.

(** [strings.Contains(s, substr)] *)
Fixpoint Contains (s substr : string) : bool :=
  HasPrefix s substr ||
  match s with
  | EmptyString => false
  | String _ s' => Contains s' substr
  end.

(** The scan of [strings.Replace(s, old, new, -1)] for a non-empty [old]:
    matches are found left to right and do not overlap.  [skip] counts the
    bytes of the last match that are still to be passed over. *)
Fixpoint replaceFrom (old new : string) (skip : nat) (s : string) : string :=
  match s with
  | EmptyString => EmptyString
  | String c s' =>
      match skip with
      | S k => replaceFrom old new k s'
      | O =>
          if HasPrefix s old
          then new +:+ replaceFrom old new (String.length old - 1) s'
          else String c (replaceFrom old new 0 s')
      end
  end.

(** [strings.ReplaceAll(s, old, new)]; every call site passes a non-empty
    literal for [old]. *)
Definition ReplaceAll (s old new : string) : string := replaceFrom old new 0 s.

(** Membership of a byte in an ASCII cutset. *)
Fixpoint inCutset (c : ascii) (cutset : string) : bool :=
  match cutset with
  | EmptyString => false
  | String d cutset' => Ascii.eqb c d || inCutset c cutset'
  end.

Definition isEmpty (s : string) : bool :=
  match s with EmptyString => true | String _ _ => false end.

(** [strings.TrimRight(s, cutset)] for an ASCII cutset: the longest prefix
    of [s] that does not end in a byte of the cutset. *)
Fixpoint TrimRight (s cutset : string) : string :=
  match s with
  | EmptyString => EmptyString
  | String c s' =>
      let r := TrimRight s' cutset in
      if isEmpty r && inCutset c cutset then EmptyString else String c r
  end.

(** The slice expression [s[:n]], for [n <= len(s)]. *)
Fixpoint sliceTo (n : nat) (s : string) : string :=
  match n, s with
  | S k, String c s' => String c (sliceTo k s')
  | _, _ => EmptyString
  end.

(** [strings.HasSuffix] and [strings.TrimSuffix]. *)
Definition HasSuffix (s suffix : string) : bool :=
  String.eqb
    (String.substring (String.length s - String.length suffix)
       (String.length suffix) s)
    suffix
  && (String.length suffix <=? String.length s)%nat.

Definition TrimSuffix (s suffix : string) : string :=
  if HasSuffix s suffix
  then sliceTo (String.length s - String.length suffix) s
  else s.

(** Every byte of [s] satisfies [p]. *)
Fixpoint allChars (p : ascii -> bool) (s : string) : bool :=
  match s with
  | EmptyString => true
  | String c s' => p c && allChars p s'
  end.

(** [strings.ToLower].  A string of ASCII bytes is lowered byte by byte.
    Any other string goes through [strings.Map(unicode.ToLower, s)], which
    decodes its runes and maps each through the Unicode tables of the Go
    release (the Kelvin sign U+212A becomes [k], for one): that function is
    the parameter [mapToLower], so that what is proved of the callers holds
    whatever the tables are. *)
Definition isUpper (c : ascii) : bool :=
  let n := nat_of_ascii c in ((65 <=? n) && (n <=? 90))%nat.

Definition lowerByte (c : ascii) : ascii :=
  if isUpper c then ascii_of_nat (nat_of_ascii c + 32) else c.

Fixpoint lowerBytes (s : string) : string :=
  match s with
  | EmptyString => EmptyString
  | String c s' => String (lowerByte c) (lowerBytes s')
  end.

Definition ToLower (mapToLower : string -> string) (s : string) : string :=
  let isASCII := allChars (fun c => (nat_of_ascii c <? 128)%nat) s in
  let hasUpper := negb (allChars (fun c => negb (isUpper c)) s) in
  if isASCII then
    (* optimize for ASCII-only strings *)
    if negb hasUpper then s else lowerBytes s
  else mapToLower s.

(** The byte [c] differs from [k]. *)
Definition isNot (k : ascii) (c : ascii) : bool := negb (Ascii.eqb c k).

Definition startsWithDot (s : string) : bool := HasPrefix s ".".

(** [s] with every byte [c] replaced by the text [f c]. *)
Fixpoint mapBytes (f : ascii -> string) (s : string) : string :=
  match s with
  | EmptyString => EmptyString
  | String c s' => f c +:+ mapBytes f s'
  end.

(** [strings.Join(elems, sep)] *)
Fixpoint Join (elems : list string) (sep : string) : string :=
  match elems with
  | [] => EmptyString
  | [e] => e
  | e :: rest => e +:+ sep +:+ Join rest sep
  end.

End Strings.

(** ** [PathUtils.SanitizeFilename] *)

(** The one-byte string holding the double quote character. *)
Definition dquote : string := String (ascii_of_nat 34) EmptyString.

(** The literal of the map [problematicChars], in source order. *)
Definition problematicChars : list (string * string) :=
  [ ("<", ""); (">", ""); (":", ""); (dquote, ""); ("|", "");
    ("?", ""); ("*", ""); ("/", "_"); ("\", "_") ].

(** Go iterates over a map in an unspecified order, so the replacement loop
    is taken over an arbitrary listing [order] of the map's entries.
    [iterationOrder order] says that [order] lists exactly the entries of
    [problematicChars]. *)
Definition entryEqb (a b : string * string) : bool :=
  String.eqb (fst a) (fst b) && String.eqb (snd a) (snd b).

Definition iterationOrder (order : list (string * string)) : bool :=
  forallb (fun e => existsb (entryEqb e) order) problematicChars
  && forallb (fun e => existsb (entryEqb e) problematicChars) order
  && (List.length order =? List.length problematicChars)%nat.

(** The body of the replacement loop. *)
Definition replaceStep (cleaned : string) (kv : string * string) : string :=
  Strings.ReplaceAll cleaned (fst kv) (snd kv).

Definition SanitizeFilenameIn (order : list (string * string)) (filename : string)
  : string :=
  let cleaned := filename in
  let cleaned := fold_left replaceStep order cleaned in
  (* Replace multiple dots with single underscore to avoid confusion *)
  let cleaned := Strings.ReplaceAll cleaned ".." "_" in
  let cleaned := Strings.ReplaceAll cleaned "..." "_" in
  (* Limit filename length *)
  let cleaned :=
    if (180 <? String.length cleaned)%nat then Strings.sliceTo 180 cleaned
    else cleaned in
  (* Remove trailing dots and spaces *)
  Strings.TrimRight cleaned ". ".

(** What the replacement loop over [table] does to one byte. *)
Definition substByte (table : list (string * string)) (c : ascii) : string :=
  match find (fun e => String.eqb (fst e) (String c EmptyString)) table with
  | Some e => snd e
  | None => String c EmptyString
  end.

(** [SanitizeFilename] with the entries taken in source order; by
    [SanitizeFilenameIn_order] below the order does not matter. *)
Definition SanitizeFilename (filename : string) : string :=
  SanitizeFilenameIn problematicChars filename.

(** ** errors.go *)

Inductive ErrorType :=
| ErrorTypeFFmpegNotFound
| ErrorTypeGPUNotAvailable
| ErrorTypeEncoderNotFound
| ErrorTypeInvalidPreset
| ErrorTypeInvalidFilePath
| ErrorTypeEncodingFailed
| ErrorTypeFileSystemError.

#[global] Instance ErrorType_eq_dec : EqDecision ErrorType.
Proof. solve_decision. Defined.

(** The string each [ErrorType] constant stands for. *)
Definition ErrorType_text (t : ErrorType) : string :=
  match t with
  | ErrorTypeFFmpegNotFound => "ffmpeg_not_found"
  | ErrorTypeGPUNotAvailable => "gpu_not_available"
  | ErrorTypeEncoderNotFound => "encoder_not_found"
  | ErrorTypeInvalidPreset => "invalid_preset"
  | ErrorTypeInvalidFilePath => "invalid_file_path"
  | ErrorTypeEncodingFailed => "encoding_failed"
  | ErrorTypeFileSystemError => "file_system_error"
  end.

(** Go error values: a [*TranscoderError], or an error that is only a text
    (what [fmt.Errorf] builds, and what the [os] and [os/exec] packages
    return).  The [nil] error is [None] of [option error]. *)
#[warnings="-register-all"]
Inductive error :=
| TranscoderError (Type_ : ErrorType) (Message : string) (Cause : option error)
| errorString (text : string).

(** The method [Error] of a [TranscoderError], and of a text error. *)
Fixpoint Error (e : error) : string :=
  match e with
  | TranscoderError t m (Some cause) =>
      ErrorType_text t +:+ ": " +:+ m +:+ " (caused by: " +:+ Error cause +:+ ")"
  | TranscoderError t m None => ErrorType_text t +:+ ": " +:+ m
  | errorString text => text
  end.

Definition Unwrap (e : error) : option error :=
  match e with
  | TranscoderError _ _ cause => cause
  | errorString _ => None
  end.

Definition NewTranscoderError (errorType : ErrorType) (message : string)
    (cause : option error) : error :=
  TranscoderError errorType message cause.

Definition IsTranscoderError (err : option error) (errorType : ErrorType) : bool :=
  match err with
  | Some (TranscoderError t _ _) => bool_decide (t = errorType)
  | _ => false
  end.

(** ** system.go: platforms *)

(** [Platform] is an [int] in the source; its four constants are numbered
    from [PlatformUnknown = 0]. *)
Inductive Platform :=
| PlatformUnknown
| PlatformNVIDIA
| PlatformAppleSilicon
| PlatformSoftware.

#[global] Instance Platform_eq_dec : EqDecision Platform.
Proof. solve_decision. Defined.

(** The constants [runtime.GOOS] and [runtime.GOARCH] of the build. *)
Record Runtime := { GOOS : string; GOARCH : string }.

Definition detectPlatform (rt : Runtime) : Platform :=
  if String.eqb (GOOS rt) "darwin" && String.eqb (GOARCH rt) "arm64"
  then PlatformAppleSilicon
  else PlatformUnknown.

(** ** presets.go *)

Record Preset := {
  Name : string;
  Resolution : string;
  Codec : string;
  Encoder : string;
  Bitrate : string;
  Description : string;
  Args : list string;
  PresetPlatform : Platform   (* the field [Platform] *)
}.

Definition nvencPresets : gmap string Preset :=
  list_to_map [
    ("720p_av1",
      {| Name := "720p_av1"; Resolution := "1280x720"; Codec := "AV1";
         Encoder := "av1_nvenc"; Bitrate := "2M";
         Description := "720p AV1 encoding with NVENC";
         Args := ["-c:v"; "av1_nvenc"; "-preset"; "p7"; "-crf"; "28"; "-b:v"; "2M";
                  "-maxrate"; "3M"; "-bufsize"; "6M"; "-vf"; "scale=1280:720"];
         PresetPlatform := PlatformNVIDIA |});
    ("1080p_av1",
      {| Name := "1080p_av1"; Resolution := "1920x1080"; Codec := "AV1";
         Encoder := "av1_nvenc"; Bitrate := "4M";
         Description := "1080p AV1 encoding with NVENC";
         Args := ["-c:v"; "av1_nvenc"; "-preset"; "p7"; "-crf"; "26"; "-b:v"; "4M";
                  "-maxrate"; "6M"; "-bufsize"; "12M"; "-vf"; "scale=1920:1080"];
         PresetPlatform := PlatformNVIDIA |});
    ("720p_h264",
      {| Name := "720p_h264"; Resolution := "1280x720"; Codec := "H.264";
         Encoder := "h264_nvenc"; Bitrate := "3M";
         Description := "720p H.264 encoding with NVENC";
         Args := ["-c:v"; "h264_nvenc"; "-preset"; "p7"; "-crf"; "23"; "-b:v"; "3M";
                  "-maxrate"; "4M"; "-bufsize"; "8M"; "-vf"; "scale=1280:720"];
         PresetPlatform := PlatformNVIDIA |});
    ("1080p_h264",
      {| Name := "1080p_h264"; Resolution := "1920x1080"; Codec := "H.264";
         Encoder := "h264_nvenc"; Bitrate := "5M";
         Description := "1080p H.264 encoding with NVENC";
         Args := ["-c:v"; "h264_nvenc"; "-preset"; "p7"; "-crf"; "23"; "-b:v"; "5M";
                  "-maxrate"; "8M"; "-bufsize"; "16M"; "-vf"; "scale=1920:1080"];
         PresetPlatform := PlatformNVIDIA |});
    ("1080p_h265",
      {| Name := "1080p_h265"; Resolution := "1920x1080"; Codec := "H.265";
         Encoder := "hevc_nvenc"; Bitrate := "3M";
         Description := "1080p H.265 encoding with NVENC";
         Args := ["-c:v"; "hevc_nvenc"; "-preset"; "p7"; "-crf"; "26"; "-b:v"; "3M";
                  "-maxrate"; "5M"; "-bufsize"; "10M"; "-vf"; "scale=1920:1080"];
         PresetPlatform := PlatformNVIDIA |});
    ("4k_av1",
      {| Name := "4k_av1"; Resolution := "3840x2160"; Codec := "AV1";
         Encoder := "av1_nvenc"; Bitrate := "15M";
         Description := "4K AV1 encoding with NVENC";
         Args := ["-c:v"; "av1_nvenc"; "-preset"; "p7"; "-crf"; "28"; "-b:v"; "15M";
                  "-maxrate"; "20M"; "-bufsize"; "40M"; "-vf"; "scale=3840:2160"];
         PresetPlatform := PlatformNVIDIA |});
    ("4k_h265",
      {| Name := "4k_h265"; Resolution := "3840x2160"; Codec := "H.265";
         Encoder := "hevc_nvenc"; Bitrate := "20M";
         Description := "4K H.265 encoding with NVENC";
         Args := ["-c:v"; "hevc_nvenc"; "-preset"; "p7"; "-crf"; "26"; "-b:v"; "20M";
                  "-maxrate"; "30M"; "-bufsize"; "60M"; "-vf"; "scale=3840:2160"];
         PresetPlatform := PlatformNVIDIA |})
  ].

Definition appleSiliconPresets : gmap string Preset :=
  list_to_map [
    ("720p_av1",
      {| Name := "720p_av1"; Resolution := "1280x720"; Codec := "AV1";
         Encoder := "libsvtav1"; Bitrate := "2M";
         Description := "720p AV1 encoding (software, optimized for Apple Silicon)";
         Args := ["-c:v"; "libsvtav1"; "-preset"; "6"; "-crf"; "28"; "-b:v"; "2M";
                  "-maxrate"; "3M"; "-bufsize"; "6M"; "-vf"; "scale=1280:720"];
         PresetPlatform := PlatformAppleSilicon |});
    ("1080p_av1",
      {| Name := "1080p_av1"; Resolution := "1920x1080"; Codec := "AV1";
         Encoder := "libsvtav1"; Bitrate := "4M";
         Description := "1080p AV1 encoding (software, optimized for Apple Silicon)";
         Args := ["-c:v"; "libsvtav1"; "-preset"; "6"; "-crf"; "26"; "-b:v"; "4M";
                  "-maxrate"; "6M"; "-bufsize"; "12M"; "-vf"; "scale=1920:1080"];
         PresetPlatform := PlatformAppleSilicon |});
    ("720p_h264",
      {| Name := "720p_h264"; Resolution := "1280x720"; Codec := "H.264";
         Encoder := "h264_videotoolbox"; Bitrate := "3M";
         Description := "720p H.264 encoding with VideoToolbox";
         Args := ["-c:v"; "h264_videotoolbox"; "-q:v"; "65"; "-b:v"; "3M";
                  "-maxrate"; "4M"; "-bufsize"; "8M"; "-vf"; "scale=1280:720"];
         PresetPlatform := PlatformAppleSilicon |});
    ("1080p_h264",
      {| Name := "1080p_h264"; Resolution := "1920x1080"; Codec := "H.264";
         Encoder := "h264_videotoolbox"; Bitrate := "5M";
         Description := "1080p H.264 encoding with VideoToolbox";
         Args := ["-c:v"; "h264_videotoolbox"; "-q:v"; "65"; "-b:v"; "5M";
                  "-maxrate"; "8M"; "-bufsize"; "16M"; "-vf"; "scale=1920:1080"];
         PresetPlatform := PlatformAppleSilicon |});
    ("1080p_h265",
      {| Name := "1080p_h265"; Resolution := "1920x1080"; Codec := "H.265";
         Encoder := "hevc_videotoolbox"; Bitrate := "3M";
         Description := "1080p H.265 encoding with VideoToolbox";
         Args := ["-c:v"; "hevc_videotoolbox"; "-q:v"; "65"; "-b:v"; "3M";
                  "-maxrate"; "5M"; "-bufsize"; "10M"; "-vf"; "scale=1920:1080"];
         PresetPlatform := PlatformAppleSilicon |});
    ("4k_av1",
      {| Name := "4k_av1"; Resolution := "3840x2160"; Codec := "AV1";
         Encoder := "libsvtav1"; Bitrate := "15M";
         Description := "4K AV1 encoding (software, optimized for Apple Silicon)";
         Args := ["-c:v"; "libsvtav1"; "-preset"; "5"; "-crf"; "28"; "-b:v"; "15M";
                  "-maxrate"; "20M"; "-bufsize"; "40M"; "-vf"; "scale=3840:2160"];
         PresetPlatform := PlatformAppleSilicon |});
    ("4k_h265",
      {| Name := "4k_h265"; Resolution := "3840x2160"; Codec := "H.265";
         Encoder := "hevc_videotoolbox"; Bitrate := "20M";
         Description := "4K H.265 encoding with VideoToolbox";
         Args := ["-c:v"; "hevc_videotoolbox"; "-q:v"; "60"; "-b:v"; "20M";
                  "-maxrate"; "30M"; "-bufsize"; "60M"; "-vf"; "scale=3840:2160"];
         PresetPlatform := PlatformAppleSilicon |})
  ].

(** The loop [for name, preset := range catalog { presets[name] = preset }]. *)
Definition copyInto (catalog presets : gmap string Preset) : gmap string Preset :=
  map_fold (fun name preset acc => <[name := preset]> acc) presets catalog.

Definition addNVIDIAPresets (presets : gmap string Preset) : gmap string Preset :=
  copyInto nvencPresets presets.

Definition addAppleSiliconPresets (presets : gmap string Preset)
  : gmap string Preset :=
  copyInto appleSiliconPresets presets.

Definition GetPresets (rt : Runtime) : gmap string Preset :=
  let platform := detectPlatform rt in
  let presets : gmap string Preset := ∅ in
  match platform with
  | PlatformAppleSilicon => addAppleSiliconPresets presets
  | _ => addNVIDIAPresets presets
  end.

Definition IsValidPreset (presetCache : gmap string Preset) (preset : string) : bool :=
  bool_decide (is_Some (presetCache !! preset)).

Definition GetPresetsForPlatform (rt : Runtime) (platform : Platform)
  : gmap string Preset :=
  let allPresets := GetPresets rt in
  filter (fun entry => PresetPlatform entry.2 = platform) allPresets.

(** ** The parts of [path/filepath] that need no file system

    These follow the Unix implementation, where the only separator is the
    slash and there are no volume names. *)

Module Filepath.

Definition slash : ascii := ascii_of_nat 47.
Definition dot : ascii := ascii_of_nat 46.

Fixpoint hasByte (k : ascii) (s : string) : bool :=
  match s with
  | EmptyString => false
  | String c s' => Ascii.eqb c k || hasByte k s'
  end.

(** The part of [s] after its last slash; [s] itself when it has none. *)
Fixpoint lastElement (s : string) : string :=
  match s with
  | EmptyString => EmptyString
  | String c s' =>
      if hasByte slash s' then lastElement s'
      else if Ascii.eqb c slash then s'
      else s
  end.

(** The suffix of [s] that starts at its last dot; empty when it has none. *)
Fixpoint fromLastDot (s : string) : string :=
  match s with
  | EmptyString => EmptyString
  | String c s' =>
      if hasByte dot s' then fromLastDot s'
      else if Ascii.eqb c dot then s
      else EmptyString
  end.

(** [filepath.Base] *)
Definition Base (path : string) : string :=
  if Strings.isEmpty path then "."
  else
    (* Strip trailing slashes. *)
    let path := Strings.TrimRight path "/" in
    (* Find the last element *)
    let path := lastElement path in
    (* If empty now, it had only slashes. *)
    if Strings.isEmpty path then "/" else path.

(** [filepath.Ext]: the scan from the end stops at the first dot, or at a
    separator. *)
Definition Ext (path : string) : string := fromLastDot (lastElement path).

End Filepath.

(** ** [ValidateFilePath] *)

Definition problematicCharsToReject : list string :=
  ["<"; ">"; ":"; dquote; "|"; "?"; "*"].

(** The loop over [problematicChars] in [ValidateFilePath]. *)
Fixpoint rejectProblematic (filename : string) (chars : list string) : option error :=
  match chars with
  | [] => None
  | char :: rest =>
      if Strings.Contains filename char
      then Some (NewTranscoderError ErrorTypeInvalidFilePath
                   "filename contains problematic character" None)
      else rejectProblematic filename rest
  end.

Definition ValidateFilePath (path : string) : option error :=
  (* Check for extremely long paths *)
  if (260 <? String.length path)%nat then
    (* This is a warning, not an error *)
    None
  else
    (* Check for problematic characters in filenames *)
    let filename := Filepath.Base path in
    rejectProblematic filename problematicCharsToReject.

(** ** File discovery: the extension allowlist *)

Record FileDiscovery := { videoExtensions : gmap string bool }.

Definition NewFileDiscovery : FileDiscovery :=
  {| videoExtensions :=
       list_to_map [
         (".mp4", true); (".mkv", true); (".avi", true); (".mov", true);
         (".wmv", true); (".flv", true); (".webm", true); (".m4v", true);
         (".3gp", true); (".ts", true); (".mts", true); (".m2ts", true) ] |}.

(** ** Configuration and the transcoder value *)

Record Config := {
  InputPath : string;
  OutputDir : string;
  ConfigPreset : string;     (* the field [Preset] *)
  GPUIndex : Z;
  AudioCodec : string;
  Verbose : bool;
  Recursive : bool;
  Overwrite : bool;
  NoGPU : bool;
  DryRun : bool;
  SkipValidation : bool
}.

(** [Config.Validate] has a pointer receiver: it returns the error and the
    configuration as it has normalised it. *)
Definition Validate (c : Config) : option error * Config :=
  let normalised :=
    {| InputPath := InputPath c; OutputDir := OutputDir c;
       ConfigPreset := ConfigPreset c;
       GPUIndex := if (GPUIndex c <? 0)%Z then 0%Z else GPUIndex c;
       AudioCodec := if Strings.isEmpty (AudioCodec c) then "copy" else AudioCodec c;
       Verbose := Verbose c; Recursive := Recursive c; Overwrite := Overwrite c;
       NoGPU := NoGPU c; DryRun := DryRun c; SkipValidation := SkipValidation c |} in
  if SkipValidation c then (None, normalised)
  else if Strings.isEmpty (InputPath c) then
    (Some (NewTranscoderError ErrorTypeInvalidFilePath "input path is required" None), c)
  else if Strings.isEmpty (OutputDir c) then
    (Some (NewTranscoderError ErrorTypeInvalidFilePath
             "output directory is required" None), c)
  else (None, normalised).

(** A [Transcoder]: its configuration, the platform its system checker
    holds, its file discovery and its preset registry.  ([PathUtils] has no
    fields.) *)
Record Transcoder := {
  config : Config;
  platform : Platform;
  fileDiscovery : FileDiscovery;
  presets : gmap string Preset
}.

(** [New]; [None] stands for the panic on an invalid configuration. *)
Definition New (rt : Runtime) (cfg : Config) : option Transcoder :=
  match Validate cfg with
  | (Some _, _) => None
  | (None, cfg) =>
      Some {| config := cfg;
              platform := detectPlatform rt;
              fileDiscovery := NewFileDiscovery;
              presets := GetPresets rt |}
  end.

(** ** Command construction *)

(** [extractScaleFilter]: the argument after the first [-vf] that has one. *)
Fixpoint extractScaleFilter (args : list string) : string :=
  match args with
  | [] => "scale=-1:-1" (* Default no scaling *)
  | arg :: rest =>
      match rest with
      | next :: _ => if String.eqb arg "-vf" then next else extractScaleFilter rest
      | [] => extractScaleFilter rest
      end
  end.

(** The [switch] on the encoder name: codec, CRF and preset name. *)
Definition softwareProfile (encoder : string) : string * string * string :=
  let presetName := "medium" in
  if String.eqb encoder "h264_nvenc" then ("libx264", "23", presetName)
  else if String.eqb encoder "hevc_nvenc" then ("libx265", "26", presetName)
  else if String.eqb encoder "av1_nvenc" then ("libx264", "18", "slower")
  else if String.eqb encoder "h264_videotoolbox" then ("libx264", "23", presetName)
  else if String.eqb encoder "hevc_videotoolbox" then ("libx265", "26", presetName)
  else if String.eqb encoder "libsvtav1" then ("libx264", "18", "slower")
  else ("libx264", "23", presetName).

Definition convertToSoftwarePreset (preset : Preset) : list string :=
  let '(codec, crf, presetName) := softwareProfile (Encoder preset) in
  let args :=
    [ "-c:v"; codec;
      "-preset"; presetName;
      "-crf"; crf;
      "-vf"; extractScaleFilter (Args preset) ] in
  (* Add bitrate control if specified *)
  if negb (Strings.isEmpty (Bitrate preset)) then
    args ++ [ "-b:v"; Bitrate preset;
              "-maxrate"; Bitrate preset;
              "-bufsize"; Bitrate preset ]
  else args.

(** The bitrate flags that [convertToSoftwarePreset] appends, on their own. *)
Definition bitrateControl (preset : Preset) : list string :=
  if Strings.isEmpty (Bitrate preset) then []
  else ["-b:v"; Bitrate preset; "-maxrate"; Bitrate preset;
        "-bufsize"; Bitrate preset].

Definition buildFFmpegArgs (t : Transcoder) (inputPath outputPath : string)
    (preset : Preset) (useHardware : bool) : list string :=
  let args := ["-hide_banner"; "-loglevel"; "warning"] in
  let args :=
    if useHardware then
      (* Add platform-specific hardware acceleration *)
      match platform t with
      | PlatformAppleSilicon => args ++ ["-hwaccel"; "videotoolbox"]
      | PlatformNVIDIA => args ++ ["-hwaccel"; "auto"]
      | _ => args
      end
    else args in
  (* Add input file *)
  let args := args ++ ["-i"; inputPath] in
  (* Add preset arguments (hardware or software) *)
  let args :=
    if useHardware
       && (bool_decide (PresetPlatform preset = platform t)
           || bool_decide (PresetPlatform preset = PlatformUnknown))
    then args ++ Args preset
    else args ++ convertToSoftwarePreset preset in
  (* Add audio codec *)
  let args :=
    if Strings.isEmpty (AudioCodec (config t)) || String.eqb (AudioCodec (config t)) "copy"
    then args ++ ["-c:a"; "copy"]
    else args ++ ["-c:a"; AudioCodec (config t); "-b:a"; "128k"] in
  (* Add output path *)
  args ++ ["-y"; outputPath].

Definition createSafeFallbackArgs (inputPath outputPath : string) : list string :=
  [ "-hide_banner";
    "-loglevel"; "error";
    "-i"; inputPath;
    "-c:v"; "libx264";
    "-preset"; "medium";
    "-crf"; "23";
    "-c:a"; "copy";
    "-y"; outputPath ].

Definition probeArgs (inputPath : string) : list string :=
  [ "-hide_banner";
    "-loglevel"; "error";
    "-i"; inputPath;
    "-f"; "null";
    "-t"; "1"; (* Only check first second *)
    "-" ].

(** ** The environment: file system, external processes, path library

    The transcoder reads and changes the world only through the calls
    below.  They are the fields of an [Env], over a type [State] of its own
    choosing, so that every property holds whatever the file system and the
    external encoder do.  [filepath.Rel], [filepath.Join] and [filepath.Dir]
    are pure functions of the path library, and [strings_MapToLower] is
    [strings.Map(unicode.ToLower, s)], a pure function of the Unicode tables
    of the Go release; the others read or change the state. *)

Record FileInfo := { IsDir : bool; Size : Z }.

Record DirEntry := { EntryName : string; EntryIsDir : bool }.

(** What [cmd.Run()] returns, and what the process wrote on its error
    stream. *)
Record RunResult := { runErr : option error; runStderr : string }.

Record Env := {
  State : Type;
  os_Stat : State -> string -> FileInfo + error;
  os_ReadDir : State -> string -> list DirEntry + error;
  os_MkdirAll : string -> State -> option error * State;
  (** the calls [filepath.Walk] makes to its walk function, in order *)
  filepath_Walk : State -> string -> list (string * (FileInfo + error));
  filepath_Abs : State -> string -> string + error;
  filepath_Rel : string -> string -> string + error;
  filepath_Join : list string -> string;
  filepath_Dir : string -> string;
  strings_MapToLower : string -> string;
  exec_Run : string -> list string -> State -> RunResult * State;
  csv_Write : list string -> State -> option error * State
}.

(** What a run leaves behind, in order: the lines it prints, the external
    commands that transcoding a file runs, which are the probe and the
    encoder attempts (with whether their error stream was attached to a
    buffer, and whether they succeeded), the directories it asked for and
    the analytics rows it wrote.  The commands of the system checks go
    through a [CommandExecutor] and are not among the events: they change
    the state only.  A printed line is kept without its final
    newline.  Lines that hold a number are kept as data: the percentage, the
    duration and the sizes are floating-point values and are left out, as
    are the time stamps of an analytics row. *)
Inductive Event :=
| Printed (text : string)
| PrintedProgress (completed total : nat)
| PrintedErrorCount (count : nat)
| PrintedCompleted (base : string)
| Ran (name : string) (args : list string) (stderrAttached : bool) (ok : bool)
| MadeDir (path : string) (ok : bool)
| WroteCsv (filename preset status : string) (ok : bool).

Section Effects.

Context (env : Env).

(** Computations that thread the state of the environment and collect
    the events they cause. *)
Definition M (A : Type) : Type := State env -> A * State env * list Event.

Definition ret {A} (a : A) : M A := fun st => (a, st, []).

Definition bind {A B} (m : M A) (k : A -> M B) : M B :=
  fun st =>
    let '(a, st1, ev1) := m st in
    let '(b, st2, ev2) := k a st1 in
    (b, st2, ev1 ++ ev2).

Definition emit (e : Event) : M unit := fun st => (tt, st, [e]).

Definition when (b : bool) (m : M unit) : M unit := if b then m else ret tt.

Definition readState {A} (f : State env -> A) : M A := fun st => (f st, st, []).

End Effects.

Arguments ret {env A} a.
Arguments bind {env A B} m k.
Arguments emit {env} e.
Arguments when {env} b m.
Arguments readState {env A} f.

Notation "x <- m ;; k" := (bind m (fun x => k))
  (at level 63, m at next level, right associativity, only parsing).
Notation "m ;;; k" := (bind m (fun _ => k))
  (at level 63, right associativity, only parsing).

(** The three components of a finished computation. *)
Definition resultOf {A S} (r : A * S * list Event) : A := fst (fst r).
Definition stateOf {A S} (r : A * S * list Event) : S := snd (fst r).
Definition eventsOf {A S} (r : A * S * list Event) : list Event := snd r.

(** The [ffmpeg] invocations among some events, each with its outcome:
    the probes and encoder attempts of [processFile]. *)
Definition invocations (events : list Event) : list (list string * bool) :=
  flat_map (fun e =>
    match e with
    | Ran name args _ ok => if String.eqb name "ffmpeg" then [(args, ok)] else []
    | _ => []
    end) events.

Section Transcoding.

Context (env : Env).

Definition newline : string := String (ascii_of_nat 10) EmptyString.

Definition isOk {A} (r : A + error) : bool :=
  match r with inl _ => true | inr _ => false end.

(** [err == nil] *)
Definition succeeded (err : option error) : bool :=
  match err with None => true | Some _ => false end.

(** [exec.Command(name, args...)] followed by [Run], with the error
    stream attached to a buffer or not.  Without a buffer the text is
    discarded. *)
Definition run (name : string) (args : list string) (attachStderr : bool)
  : M env RunResult :=
  fun st =>
    let '(r, st') := exec_Run env name args st in
    let r := {| runErr := runErr r;
                runStderr := if attachStderr then runStderr r else EmptyString |} in
    (r, st', [Ran name args attachStderr (succeeded (runErr r))]).

Definition mkdirAll (path : string) : M env (option error) :=
  fun st =>
    let '(err, st') := os_MkdirAll env path st in
    (err, st', [MadeDir path (succeeded err)]).

Definition writeCsv (filename preset status : string) : M env (option error) :=
  fun st =>
    let '(err, st') := csv_Write env [filename; preset; status] st in
    (err, st', [WroteCsv filename preset status (succeeded err)]).

Definition stat (path : string) : M env (FileInfo + error) :=
  readState (fun st => os_Stat env st path).

(** *** Path utilities that look at the environment *)

Definition extendedPrefix : string := "\\?\".

Definition SanitizeWindowsPath (path : string) : M env string :=
  if (260 <? String.length path)%nat && negb (Strings.HasPrefix path extendedPrefix)
  then
    absPath <- readState (fun st => filepath_Abs env st path) ;;
    match absPath with
    | inl absPath => ret (extendedPrefix +:+ absPath)
    | inr _ => ret path
    end
  else ret path.

Definition GenerateOutputPath (inputPath outputDir inputBasePath : string)
    (preset : Preset) : M env string :=
  let filename := Filepath.Base inputPath in
  let nameWithoutExt := Strings.TrimSuffix filename (Filepath.Ext filename) in
  let nameWithoutExt := SanitizeFilename nameWithoutExt in
  let ext := ".mkv" in
  let outputFilename := nameWithoutExt +:+ "_" +:+ Name preset +:+ ext in
  info <- stat inputBasePath ;;
  let flat := filepath_Join env [outputDir; outputFilename] in
  match info with
  | inl info =>
      if IsDir info then
        match filepath_Rel env inputBasePath (filepath_Dir env inputPath) with
        | inl relPath =>
            if negb (String.eqb relPath ".")
            then ret (filepath_Join env [outputDir; relPath; outputFilename])
            else ret flat
        | inr _ => ret flat
        end
      else ret flat
  | inr _ => ret flat
  end.

(** *** transcoder.go *)

Definition probeInputFile (inputPath : string) : M env (option error) :=
  let args := probeArgs inputPath in
  r <- run "ffmpeg" args true ;;
  match runErr r with
  | Some err =>
      let stderrOutput := runStderr r in
      ret (Some (NewTranscoderError ErrorTypeEncodingFailed "input file probe failed"
                   (Some (errorString
                            (Error err +:+ newline +:+ "FFmpeg output: "
                             +:+ stderrOutput)))))
  | None => ret None
  end.

Definition handleEncodingError (t : Transcoder) (ffmpegErr : error)
    (stderrOutput inputPath outputPath : string) (preset : Preset)
  : M env (option error) :=
  if negb (NoGPU (config t)) then
    (* Try software fallback *)
    (if Verbose (config t)
     then emit (Printed "Hardware encoding failed, attempting software fallback...")
     else emit (Printed ("Hardware encoding failed for " +:+ Filepath.Base inputPath
                         +:+ ", trying software fallback..."))) ;;;
    let softwareArgs := buildFFmpegArgs t inputPath outputPath preset false in
    software <- run "ffmpeg" softwareArgs true ;;
    match runErr software with
    | Some _ =>
        (* Try safe fallback *)
        let safeArgs := createSafeFallbackArgs inputPath outputPath in
        safe <- run "ffmpeg" safeArgs false ;;
        match runErr safe with
        | Some safeErr =>
            ret (Some (NewTranscoderError ErrorTypeEncodingFailed
                         ("all encoding attempts failed for " +:+ inputPath)
                         (Some safeErr)))
        | None =>
            emit (Printed ("Successfully encoded " +:+ Filepath.Base inputPath
                           +:+ " using safe fallback mode")) ;;;
            ret None
        end
    | None =>
        emit (Printed ("Successfully encoded " +:+ Filepath.Base inputPath
                       +:+ " using software fallback")) ;;;
        ret None
    end
  else
    ret (Some (NewTranscoderError ErrorTypeEncodingFailed
                 ("encoding failed for " +:+ inputPath) (Some ffmpegErr))).

Definition processFile (t : Transcoder) (inputPath : string) : M env (option error) :=
  match presets t !! ConfigPreset (config t) with
  | None =>
      ret (Some (NewTranscoderError ErrorTypeInvalidPreset
                   ("preset " +:+ ConfigPreset (config t) +:+ " not found") None))
  | Some preset =>
      (* Sanitize paths for Windows *)
      inputPath <- SanitizeWindowsPath inputPath ;;
      (* Validate file path for common issues *)
      match ValidateFilePath inputPath with
      | Some err => ret (Some (errorString ("invalid file path: " +:+ Error err)))
      | None =>
          (* Probe input file to ensure it's valid *)
          when (Verbose (config t)) (emit (Printed "Probing input file...")) ;;;
          probeErr <- probeInputFile inputPath ;;
          match probeErr with
          | Some err =>
              ret (Some (errorString ("input file validation failed: " +:+ Error err)))
          | None =>
              (* Generate output filename *)
              outputPath <- GenerateOutputPath inputPath (OutputDir (config t))
                              (InputPath (config t)) preset ;;
              outputPath <- SanitizeWindowsPath outputPath ;;
              (* Check if output already exists *)
              alreadyThere <-
                (if negb (Overwrite (config t))
                 then (outputInfo <- stat outputPath ;; ret (isOk outputInfo))
                 else ret false) ;;
              if alreadyThere then
                when (Verbose (config t))
                  (emit (Printed ("Skipping " +:+ inputPath
                                  +:+ " (output already exists)"))) ;;;
                ret None
              else
                (* Create output directory if needed *)
                let outputDir := filepath_Dir env outputPath in
                mkErr <- mkdirAll outputDir ;;
                match mkErr with
                | Some err =>
                    ret (Some (NewTranscoderError ErrorTypeFileSystemError
                                 "failed to create output directory" (Some err)))
                | None =>
                    when (Verbose (config t))
                      (emit (Printed ("Processing: " +:+ inputPath +:+ " -> "
                                      +:+ outputPath))) ;;;
                    (* Build FFmpeg command *)
                    let args := buildFFmpegArgs t inputPath outputPath preset
                                  (negb (NoGPU (config t))) in
                    (* Execute FFmpeg *)
                    when (Verbose (config t))
                      (let encodingMode :=
                         if NoGPU (config t) then "software" else "hardware" in
                       emit (Printed ("Running (" +:+ encodingMode +:+ "): ffmpeg "
                                      +:+ Strings.Join args " "))) ;;;
                    (* Always capture stderr to get detailed error information *)
                    primary <- run "ffmpeg" args true ;;
                    let stderrOutput := runStderr primary in
                    (* Handle encoding errors with fallback *)
                    handled <-
                      match runErr primary with
                      | Some ffmpegErr =>
                          handleEncodingError t ffmpegErr stderrOutput inputPath
                            outputPath preset
                      | None => ret None
                      end ;;
                    match handled with
                    | Some err => ret (Some err)
                    | None =>
                        (* Get file sizes for compression info *)
                        inputInfo <- stat inputPath ;;
                        outputInfo <- stat outputPath ;;
                        when (isOk inputInfo && isOk outputInfo)
                          (emit (PrintedCompleted (Filepath.Base inputPath))) ;;;
                        ret None
                    end
                end
          end
      end
  end.

(** [csvWriter] is [true] for a writer and [false] for [nil].  After a
    success the source computes the output path again and reads the size of
    the output: this changes nothing, and only feeds the floating-point
    columns of the row, which the model leaves out. *)
Definition processFileWithAnalytics (t : Transcoder) (inputPath : string)
    (csvWriter : bool) : M env (option error) :=
  (* Get input file size *)
  inputInfo <- stat inputPath ;;
  match inputInfo with
  | inr err =>
      ret (Some (NewTranscoderError ErrorTypeFileSystemError
                   "failed to get input file info" (Some err)))
  | inl _ =>
      (* Process the file using existing method *)
      err <- processFile t inputPath ;;
      (* Prepare CSV data *)
      let filename := Filepath.Base inputPath in
      let status := match err with Some _ => "error" | None => "success" end in
      (* Write to CSV if provided *)
      when csvWriter
        (writeErr <- writeCsv filename (ConfigPreset (config t)) status ;;
         match writeErr with
         | Some writeErr =>
             emit (Printed ("Warning: failed to write CSV record: "
                            +:+ Error writeErr))
         | None => ret tt
         end) ;;;
      ret err
  end.

(** The loop that prints one line per error. *)
Fixpoint printErrors (errors : list error) : M env unit :=
  match errors with
  | [] => ret tt
  | err :: rest => emit (Printed ("  - " +:+ Error err)) ;;; printErrors rest
  end.

(** The report that ends both batch loops. *)
Definition reportErrors (errors : list error) : M env (option error) :=
  if (0 <? List.length errors)%nat then
    emit (PrintedErrorCount (List.length errors)) ;;;
    printErrors errors ;;;
    ret (Some (errorString "transcoding completed with errors"))
  else ret None.

(** The loop of [ProcessFiles], with its slice of errors. *)
Fixpoint processEach (t : Transcoder) (files : list string) (errors : list error)
  : M env (list error) :=
  match files with
  | [] => ret errors
  | file :: rest =>
      err <- processFile t file ;;
      let errors := match err with Some e => errors ++ [e] | None => errors end in
      processEach t rest errors
  end.

Definition ProcessFiles (t : Transcoder) (files : list string) : M env (option error) :=
  errors <- processEach t files [] ;;
  reportErrors errors.

(** The loop of [ProcessFilesWithProgress]: [i] is the index of the next
    file. *)
Fixpoint processEachWithProgress (t : Transcoder) (csvWriter : bool) (total : nat)
    (files : list string) (i : nat) (errors : list error) : M env (list error) :=
  match files with
  | [] => ret errors
  | file :: rest =>
      err <- processFileWithAnalytics t file csvWriter ;;
      let errors := match err with Some e => errors ++ [e] | None => errors end in
      (* Show progress *)
      let completed := (i + 1)%nat in
      emit (PrintedProgress completed total) ;;;
      processEachWithProgress t csvWriter total rest (S i) errors
  end.

Definition ProcessFilesWithProgress (t : Transcoder) (files : list string)
    (csvWriter : bool) : M env (option error) :=
  let total := List.length files in
  errors <- processEachWithProgress t csvWriter total files 0 [] ;;
  reportErrors errors.

(** *** File discovery *)

(** A missing key of a [map[string]bool] reads as [false]. *)
Definition isVideoFile (f : FileDiscovery) (filename : string) : bool :=
  let ext := Strings.ToLower (strings_MapToLower env) (Filepath.Ext filename) in
  default false (videoExtensions f !! ext).

(** The walk function passed to [filepath.Walk], over the calls the walk
    makes: the first error it is handed ends the walk. *)
Fixpoint walkFiles (f : FileDiscovery) (visits : list (string * (FileInfo + error)))
    (files : list string) : list string * option error :=
  match visits with
  | [] => (files, None)
  | (path, inr err) :: _ => (files, Some err)
  | (path, inl info) :: rest =>
      if negb (IsDir info) && isVideoFile f path
      then walkFiles f rest (files ++ [path])
      else walkFiles f rest files
  end.

Fixpoint listFiles (f : FileDiscovery) (inputPath : string) (entries : list DirEntry)
    (files : list string) : list string :=
  match entries with
  | [] => files
  | entry :: rest =>
      if negb (EntryIsDir entry) then
        let fullPath := filepath_Join env [inputPath; EntryName entry] in
        if isVideoFile f fullPath
        then listFiles f inputPath rest (files ++ [fullPath])
        else listFiles f inputPath rest files
      else listFiles f inputPath rest files
  end.

(** [FileDiscovery.FindVideoFiles]; it only reads the environment. *)
Definition FindVideoFiles (f : FileDiscovery) (inputPath : string) (recursive : bool)
    (st : State env) : list string * option error :=
  let files : list string := [] in
  match os_Stat env st inputPath with
  | inr err =>
      ([], Some (NewTranscoderError ErrorTypeFileSystemError
                   "cannot access input path" (Some err)))
  | inl info =>
      if IsDir info then
        if recursive then walkFiles f (filepath_Walk env st inputPath) files
        else
          match os_ReadDir env st inputPath with
          | inr err =>
              ([], Some (NewTranscoderError ErrorTypeFileSystemError
                           "cannot read directory" (Some err)))
          | inl entries => (listFiles f inputPath entries files, None)
          end
      else
        if isVideoFile f inputPath then (files ++ [inputPath], None)
        else (files, None)
  end.

(** The paths the two path utilities return, by name. *)
Definition sanitizedPath (path : string) (st : State env) : string :=
  resultOf (SanitizeWindowsPath path st).

Definition generatedPath (inputPath outputDir inputBasePath : string)
    (preset : Preset) (st : State env) : string :=
  resultOf (GenerateOutputPath inputPath outputDir inputBasePath preset st).

(** The output path [processFile] computes for an input path it has
    sanitized, in the state [st] it has reached after the probe. *)
Definition outputPathOf (t : Transcoder) (preset : Preset) (input : string)
    (st : State env) : string :=
  sanitizedPath
    (generatedPath input (OutputDir (config t)) (InputPath (config t)) preset st) st.

End Transcoding.

(** ** The design's statements, as definitions of their own

    These follow the words of the design document, to be compared with what
    the code above does. *)


(** Visiting every file of a list in turn, each from the state the one
    before it left: the finished runs, one per file. *)
Fixpoint visitAll {S : Type} (perFile : string -> S -> option error * S * list Event)
    (files : list string) (st : S) : list (option error * S * list Event) :=
  match files with
  | [] => []
  | file :: rest =>
      let r := perFile file st in
      r :: visitAll perFile rest (stateOf r)
  end.

(** The errors of the files that failed, and the state after the last. *)
Definition failuresOf {S : Type} (visits : list (option error * S * list Event))
  : list error :=
  flat_map (fun r => match resultOf r with Some e => [e] | None => [] end) visits.

Definition lastState {S : Type} (st : S) (visits : list (option error * S * list Event))
  : S :=
  List.last (map stateOf visits) st.

(** The progress lines among some events. *)
Definition progressLines (events : list Event) : list (nat * nat) :=
  flat_map (fun e =>
    match e with
    | PrintedProgress completed total => [(completed, total)]
    | _ => []
    end) events.

(** ** A scripted environment

    A small concrete environment, used to run the model on examples.  Its
    state is the list of the regular files that exist; it has no
    directories.  [fails] says which [ffmpeg] argument lists make the
    encoder fail, and [diagnostic] is what a failing encoder writes on its
    error stream.  A successful run creates the file named by its last
    argument. *)

Module Scripted.

Definition exists_ (st : list string) (path : string) : bool :=
  existsb (String.eqb path) st.

Fixpoint beforeLastSlash (s : string) : string :=
  match s with
  | EmptyString => EmptyString
  | String c s' =>
      if Filepath.hasByte Filepath.slash s' then String c (beforeLastSlash s')
      else EmptyString
  end.

Definition dir (path : string) : string :=
  if Strings.isEmpty (beforeLastSlash path) then "." else beforeLastSlash path.

Definition isProbe (args : list string) : bool := existsb (String.eqb "null") args.

(** The Unicode tables of the examples know two runes beyond ASCII: the
    Kelvin sign U+212A, in UTF-8 the bytes E2 84 AA, whose lower case is
    [k], and the dotted capital I U+0130, the bytes C4 B0, whose lower case
    is [i]. *)
Definition kelvin : string :=
  String (ascii_of_nat 226) (String (ascii_of_nat 132)
    (String (ascii_of_nat 170) EmptyString)).

Definition dottedI : string :=
  String (ascii_of_nat 196) (String (ascii_of_nat 176) EmptyString).

Definition mapToLower (s : string) : string :=
  Strings.lowerBytes
    (Strings.ReplaceAll (Strings.ReplaceAll s kelvin "k") dottedI "i").

Definition env (fails : list string -> bool) (diagnostic : string) : Env :=
  {| State := list string;
     os_Stat := fun st path =>
       if exists_ st path then inl {| IsDir := false; Size := 1000 |}
       else inr (errorString ("stat " +:+ path +:+ ": no such file or directory"));
     os_ReadDir := fun _ _ => inl [];
     os_MkdirAll := fun _ st => (None, st);
     filepath_Walk := fun _ _ => [];
     filepath_Abs := fun _ path => inl path;
     filepath_Rel := fun _ _ => inl ".";
     filepath_Join := fun elems => Strings.Join elems "/";
     filepath_Dir := dir;
     strings_MapToLower := mapToLower;
     exec_Run := fun _ args st =>
       if fails args
       then ({| runErr := Some (errorString "exit status 1");
                runStderr := diagnostic |}, st)
       else ({| runErr := None; runStderr := EmptyString |},
             match List.last (map Some args) None with
             | Some out => if isProbe args then st else out :: st
             | None => st
             end);
     csv_Write := fun _ st => (None, st) |}.

Definition linux : Runtime := {| GOOS := "linux"; GOARCH := "amd64" |}.

Definition cfg (preset : string) (noGPU overwrite : bool) : Config :=
  {| InputPath := "in.mp4"; OutputDir := "out"; ConfigPreset := preset;
     GPUIndex := 0; AudioCodec := "copy"; Verbose := false; Recursive := false;
     Overwrite := overwrite; NoGPU := noGPU; DryRun := false;
     SkipValidation := false |}.

(** A transcoder on a machine whose GPU check has found an NVIDIA GPU. *)
Definition transcoder (preset : string) (noGPU overwrite : bool) : Transcoder :=
  {| config := cfg preset noGPU overwrite;
     platform := PlatformNVIDIA;
     fileDiscovery := NewFileDiscovery;
     presets := GetPresets linux |}.

(** The entry [720p_av1] of the NVIDIA catalog. *)
Definition av1At720p : Preset :=
  {| Name := "720p_av1"; Resolution := "1280x720"; Codec := "AV1";
     Encoder := "av1_nvenc"; Bitrate := "2M";
     Description := "720p AV1 encoding with NVENC";
     Args := ["-c:v"; "av1_nvenc"; "-preset"; "p7"; "-crf"; "28"; "-b:v"; "2M";
              "-maxrate"; "3M"; "-bufsize"; "6M"; "-vf"; "scale=1280:720"];
     PresetPlatform := PlatformNVIDIA |}.

(** The entry [1080p_h264] of the NVIDIA catalog. *)
Definition h264At1080p : Preset :=
  {| Name := "1080p_h264"; Resolution := "1920x1080"; Codec := "H.264";
     Encoder := "h264_nvenc"; Bitrate := "5M";
     Description := "1080p H.264 encoding with NVENC";
     Args := ["-c:v"; "h264_nvenc"; "-preset"; "p7"; "-crf"; "23"; "-b:v"; "5M";
              "-maxrate"; "8M"; "-bufsize"; "16M"; "-vf"; "scale=1920:1080"];
     PresetPlatform := PlatformNVIDIA |}.

(** The arguments of the three tiers for [in.mp4] with that preset. *)
Definition hardwareArgs : list string :=
  ["-hide_banner"; "-loglevel"; "warning"; "-hwaccel"; "auto"; "-i"; "in.mp4";
   "-c:v"; "h264_nvenc"; "-preset"; "p7"; "-crf"; "23"; "-b:v"; "5M";
   "-maxrate"; "8M"; "-bufsize"; "16M"; "-vf"; "scale=1920:1080";
   "-c:a"; "copy"; "-y"; "out/in_1080p_h264.mkv"].

Definition softwareArgs : list string :=
  ["-hide_banner"; "-loglevel"; "warning"; "-i"; "in.mp4";
   "-c:v"; "libx264"; "-preset"; "medium"; "-crf"; "23"; "-vf"; "scale=1920:1080";
   "-b:v"; "5M"; "-maxrate"; "5M"; "-bufsize"; "5M";
   "-c:a"; "copy"; "-y"; "out/in_1080p_h264.mkv"].

Definition safeArgs : list string :=
  ["-hide_banner"; "-loglevel"; "error"; "-i"; "in.mp4";
   "-c:v"; "libx264"; "-preset"; "medium"; "-crf"; "23";
   "-c:a"; "copy"; "-y"; "out/in_1080p_h264.mkv"].

(** What the failing encoder of the examples writes on its error stream. *)
Definition diagnostic : string := "No NVENC capable devices found".

(** A path of 265 bytes whose file name holds a reserved character. *)
Definition longName : string :=
  string_of_list_ascii (repeat (ascii_of_nat 97) 260) +:+ "<.mp4".

Definition never (args : list string) : bool := false.
Definition onlyProbe (args : list string) : bool := isProbe args.
Definition allButProbe (args : list string) : bool := negb (isProbe args).
Definition onlyHardware (args : list string) : bool :=
  existsb (String.eqb "-hwaccel") args.

End Scripted.

(** ** The rest of the package: system checks, registry views, the command

    What follows covers the code around the functions above: the system
    checker of system.go with its command executor, the views of the preset
    registry, and [runTranscode] of the command-line layer, which calls all
    of them. *)

(** [strings.Split(s, sep)] for a non-empty [sep], by the scan of
    [replaceFrom]: the piece being read, and the pieces after it. *)
Fixpoint splitFrom (sep : string) (skip : nat) (s : string) : string * list string :=
  match s with
  | EmptyString => (EmptyString, [])
  | String c s' =>
      match skip with
      | S k => splitFrom sep k s'
      | O =>
          if Strings.HasPrefix s sep
          then (EmptyString,
                let '(piece, pieces) := splitFrom sep (String.length sep - 1) s' in
                piece :: pieces)
          else let '(piece, pieces) := splitFrom sep 0 s' in
               (String c piece, pieces)
      end
  end.

Definition Split (s sep : string) : list string :=
  let '(piece, pieces) := splitFrom sep 0 s in piece :: pieces.

(** *** system.go *)

(** The interface [CommandExecutor], over the state [X] of whatever runs
    the commands.  [Execute] returns the output of the command or an error,
    [Run] only the error. *)
Record CommandExecutor (X : Type) := {
  Execute : string -> list string -> X -> (string + error) * X;
  Run : string -> list string -> X -> option error * X
}.

Arguments Execute {X} _ _ _ _.
Arguments Run {X} _ _ _ _.

(** The executor of the test suite: it fails or returns its fixed output. *)
Record MockCommandExecutor := { shouldFail : bool; output : string }.

Definition mockExecutor : CommandExecutor MockCommandExecutor :=
  {| Execute := fun _ _ m =>
       (if shouldFail m
        then inr (NewTranscoderError ErrorTypeFFmpegNotFound "mock error" None)
        else inl (output m), m);
     Run := fun _ _ m =>
       (if shouldFail m
        then Some (NewTranscoderError ErrorTypeFFmpegNotFound "mock error" None)
        else None, m) |}.

(** A [SystemChecker] holds its executor, passed to each function here, and
    the platform, which the NVIDIA check updates. *)
Record SystemChecker := { checkerPlatform : Platform }.

Definition NewSystemChecker (rt : Runtime) : SystemChecker :=
  {| checkerPlatform := detectPlatform rt |}.

Definition GetPlatform (s : SystemChecker) : Platform := checkerPlatform s.

Section SystemChecks.

Context {X : Type} (executor : CommandExecutor X).

Definition CheckFFmpegAvailability (s : SystemChecker) (x : X) : option error * X :=
  let '(err, x) := Run executor "ffmpeg" ["-version"] x in
  match err with
  | Some err =>
      if bool_decide (checkerPlatform s = PlatformAppleSilicon) then
        (Some (NewTranscoderError ErrorTypeFFmpegNotFound
                 "FFmpeg not found. Please install FFmpeg with VideoToolbox support (brew install ffmpeg)"
                 (Some err)), x)
      else
        (Some (NewTranscoderError ErrorTypeFFmpegNotFound
                 "FFmpeg not found. Please install FFmpeg with NVIDIA support"
                 (Some err)), x)
  | None => (None, x)
  end.

Definition CheckEncoderAvailability (s : SystemChecker) (encoder : string) (x : X)
  : (bool * option error) * X :=
  let '(output, x) := Execute executor "ffmpeg" ["-encoders"] x in
  match output with
  | inr err =>
      ((false, Some (NewTranscoderError ErrorTypeEncoderNotFound
                       "failed to check encoders" (Some err))), x)
  | inl output => ((Strings.Contains output encoder, None), x)
  end.

(** The loop over the VideoToolbox encoders. *)
Fixpoint checkEncoders (s : SystemChecker) (encoders : list string) (x : X)
  : option error * X :=
  match encoders with
  | [] => (None, x)
  | encoder :: rest =>
      let '((available, err), x) := CheckEncoderAvailability s encoder x in
      match err with
      | Some err =>
          (Some (NewTranscoderError ErrorTypeGPUNotAvailable
                   "Failed to check VideoToolbox encoder availability" (Some err)), x)
      | None =>
          if negb available then
            (Some (NewTranscoderError ErrorTypeGPUNotAvailable
                     "VideoToolbox encoders not available. Please ensure FFmpeg is built with VideoToolbox support"
                     None), x)
          else checkEncoders s rest x
      end
  end.

Definition checkAppleSiliconAvailability (s : SystemChecker) (verbose : bool) (x : X)
  : option error * X :=
  (* Check if VideoToolbox encoders are available *)
  let encoders := ["h264_videotoolbox"; "hevc_videotoolbox"] in
  let '(err, x) := checkEncoders s encoders x in
  match err with
  | Some err => (Some err, x)
  | None =>
      if verbose then
        let '(output, x) := Execute executor "system_profiler" ["SPHardwareDataType"] x in
        let output := match output with inl output => output | inr _ => EmptyString end in
        if Strings.Contains output "Apple" then (None, x) else (None, x)
      else (None, x)
  end.

(** The number of lines of the GPU list that mention a GPU. *)
Definition countGPUs (output : string) : nat :=
  let lines := Split output newline in
  List.length (List.filter (fun line => Strings.Contains line "GPU") lines).

Definition checkNVIDIAAvailability (s : SystemChecker) (gpuIndex : Z) (verbose : bool)
    (x : X) : option error * SystemChecker * X :=
  let '(output, x) := Execute executor "nvidia-smi" ["-L"] x in
  match output with
  | inr err =>
      (* Update platform to software fallback if NVIDIA not available *)
      (Some (NewTranscoderError ErrorTypeGPUNotAvailable
               "NVIDIA GPU not detected. Please ensure NVIDIA drivers are installed"
               (Some err)),
       {| checkerPlatform := PlatformSoftware |}, x)
  | inl output =>
      (* Parse GPU list *)
      let gpuCount := countGPUs output in
      if (gpuCount =? 0)%nat then
        (Some (NewTranscoderError ErrorTypeGPUNotAvailable "no NVIDIA GPUs found" None),
         {| checkerPlatform := PlatformSoftware |}, x)
      else if (Z.of_nat gpuCount <=? gpuIndex)%Z then
        (Some (NewTranscoderError ErrorTypeGPUNotAvailable "GPU index not available" None),
         s, x)
      else
        (* Update platform to NVIDIA if successful *)
        (None, {| checkerPlatform := PlatformNVIDIA |}, x)
  end.

Definition CheckGPUAvailability (s : SystemChecker) (gpuIndex : Z) (verbose : bool)
    (x : X) : option error * SystemChecker * X :=
  match checkerPlatform s with
  | PlatformAppleSilicon =>
      let '(err, x) := checkAppleSiliconAvailability s verbose x in (err, s, x)
  | _ => checkNVIDIAAvailability s gpuIndex verbose x
  end.

(** [Transcoder.CheckGPUAvailability]: the check of the transcoder's own
    system checker, whose platform the transcoder then has. *)
Definition Transcoder_CheckGPUAvailability (t : Transcoder) (x : X)
  : option error * Transcoder * X :=
  let '(err, s, x) :=
    CheckGPUAvailability {| checkerPlatform := platform t |}
      (GPUIndex (config t)) (Verbose (config t)) x in
  (err,
   {| config := config t; platform := checkerPlatform s;
      fileDiscovery := fileDiscovery t; presets := presets t |},
   x).

End SystemChecks.

(** *** The command-line layer: [runTranscode] of cmd/root.go *)

(** What the command needs of the host beyond [Env]: whether an error of
    [os.Stat] says that the file does not exist, [os.Create], and the
    output of a command ([exec.Command(...).Output()]). *)
Record Host (env : Env) := {
  os_IsNotExist : error -> bool;
  os_Create : string -> State env -> option error * State env;
  exec_Output : string -> list string -> State env -> (string + error) * State env
}.

Arguments os_IsNotExist {env} _ _.
Arguments os_Create {env} _ _ _.
Arguments exec_Output {env} _ _ _ _.

(** [RealCommandExecutor] *)
Definition RealCommandExecutor (env : Env) (host : Host env)
  : CommandExecutor (State env) :=
  {| Execute := fun name args st => exec_Output host name args st;
     Run := fun name args st =>
       let '(r, st) := exec_Run env name args st in (runErr r, st) |}.

Module Cmd.

(** The flags of the command, as cobra has set them. *)
Record Flags := {
  recursive : bool;
  outputDir : string;
  preset : string;
  inputFile : string;
  overwrite : bool;
  verbose : bool;
  dryRun : bool;
  gpuIndex : Z;
  noGPU : bool;
  audioCodec : string;
  csvOutput : string
}.

(** How a call ends: it returns its error, or it panics. *)
Inductive Outcome := Returned (err : option error) | Panicked.

Definition csvHeader : list string :=
  ["filename"; "start_time"; "end_time"; "duration_seconds"; "size_before_mb";
   "size_after_mb"; "space_saved_mb"; "compression_ratio"; "preset"; "status"].

Section Command.

Context (env : Env) (host : Host env).

(** [runTranscode].  [rt] is the machine the package was initialised on, so
    that [presetCache] is [GetPresets rt], and [presetNames] is the slice
    [init] has filled from it, in the order the map happened to be
    iterated.  The commands of the GPU check, creating the analytics file and
    writing its header change the state and leave no event; the deferred
    [Close] and [Flush] are not modelled. *)
Definition runTranscode (rt : Runtime) (presetNames : list string) (f : Flags)
  : M env Outcome :=
  (* Validate required flags *)
  if Strings.isEmpty (inputFile f) then
    ret (Returned (Some (errorString "input file or directory is required")))
  else if Strings.isEmpty (outputDir f) then
    ret (Returned (Some (errorString "output directory is required")))
  else
    (* Check if input exists *)
    info <- stat env (inputFile f) ;;
    if match info with inr err => os_IsNotExist host err | inl _ => false end then
      ret (Returned (Some (errorString ("input file or directory does not exist: "
                                        +:+ inputFile f))))
    else
      (* Create output directory if it doesn't exist *)
      mkErr <- mkdirAll env (outputDir f) ;;
      match mkErr with
      | Some err =>
          ret (Returned (Some (errorString ("failed to create output directory: "
                                            +:+ Error err))))
      | None =>
          (* Validate preset *)
          if negb (IsValidPreset (GetPresets rt) (preset f)) then
            let availablePresets := Strings.Join presetNames ", " in
            ret (Returned (Some (errorString
                   ("invalid preset '" +:+ preset f +:+ "'. Available presets: "
                    +:+ availablePresets))))
          else
            (* Create transcoder config *)
            let cfg :=
              {| InputPath := inputFile f; OutputDir := outputDir f;
                 ConfigPreset := preset f; GPUIndex := gpuIndex f;
                 AudioCodec := audioCodec f; Verbose := verbose f;
                 Recursive := recursive f; Overwrite := overwrite f;
                 NoGPU := noGPU f; DryRun := dryRun f; SkipValidation := false |} in
            (* Initialize transcoder *)
            match New rt cfg with
            | None => ret Panicked
            | Some t =>
                (* Check GPU availability (skip if using software-only mode) *)
                checked <-
                  (if negb (noGPU f) then
                     fun st =>
                       let '(err, t, st) :=
                         Transcoder_CheckGPUAvailability
                           (RealCommandExecutor env host) t st in
                       ((err, t), st, [])
                   else ret (None, t)) ;;
                match checked with
                | (Some err, _) =>
                    emit (Printed ("GPU check failed: " +:+ Error err)) ;;;
                    emit (Printed "Consider using --no-gpu flag for software encoding") ;;;
                    ret (Returned (Some err))
                | (None, t) =>
                    (* Find files to process *)
                    found <- readState (fun st =>
                               FindVideoFiles env (fileDiscovery t)
                                 (InputPath (config t)) (Recursive (config t)) st) ;;
                    match found with
                    | (_, Some err) =>
                        ret (Returned (Some (errorString
                               ("failed to find video files: " +:+ Error err))))
                    | (files, None) =>
                        if (List.length files =? 0)%nat then
                          ret (Returned (Some (errorString "no video files found")))
                        else
                          emit (Printed ("Found " +:+ pretty.pretty (List.length files)
                                         +:+ " video file(s) to process")) ;;;
                          (* Setup CSV logging if requested *)
                          csv <-
                            (if negb (Strings.isEmpty (csvOutput f)) then
                               fun st =>
                                 let '(err, st) := os_Create host (csvOutput f) st in
                                 match err with
                                 | Some err =>
                                     (inr (errorString ("failed to create CSV file: "
                                                        +:+ Error err)), st, [])
                                 | None =>
                                     (* Write CSV header *)
                                     let '(err, st) := csv_Write env csvHeader st in
                                     match err with
                                     | Some err =>
                                         (inr (errorString
                                                 ("failed to write CSV header: "
                                                  +:+ Error err)), st, [])
                                     | None => (inl true, st, [])
                                     end
                                 end
                             else ret (inl false)) ;;
                          match csv with
                          | inr err => ret (Returned (Some err))
                          | inl csvWriter =>
                              (* Process files with progress tracking *)
                              err <- ProcessFilesWithProgress env t files csvWriter ;;
                              ret (Returned err)
                          end
                    end
                end
            end
      end.

(** A call that changes the state and leaves no event. *)
Definition quietly {A} (f : State env -> A * State env) : M env A :=
  fun st => let '(a, st) := f st in (a, st, []).

(** The loop of the check command over the encoders. *)
Fixpoint reportEncoders (t : Transcoder) (encoders : list string) : M env unit :=
  match encoders with
  | [] => ret tt
  | encoder :: rest =>
      checked <- quietly (CheckEncoderAvailability (RealCommandExecutor env host)
                            {| checkerPlatform := platform t |} encoder) ;;
      match checked with
      | (_, Some err) =>
          emit (Printed (encoder +:+ ": Error checking (" +:+ Error err +:+ ")"))
      | (true, None) => emit (Printed (encoder +:+ ": Available"))
      | (false, None) => emit (Printed (encoder +:+ ": Not available"))
      end ;;;
      reportEncoders t rest
  end.

(** The [RunE] of [checkCmd]. *)
Definition checkCmd (rt : Runtime) : M env Outcome :=
  let cfg :=
    {| InputPath := EmptyString; OutputDir := EmptyString; ConfigPreset := EmptyString;
       GPUIndex := 0; AudioCodec := EmptyString; Verbose := false; Recursive := false;
       Overwrite := false; NoGPU := false; DryRun := false; SkipValidation := true |} in
  match New rt cfg with
  | None => ret Panicked
  | Some t =>
      emit (Printed "System Check Results:") ;;;
      emit (Printed "====================") ;;;
      (* Check FFmpeg *)
      ffmpegErr <- quietly (CheckFFmpegAvailability (RealCommandExecutor env host)
                              {| checkerPlatform := platform t |}) ;;
      match ffmpegErr with
      | Some err => emit (Printed ("FFmpeg: " +:+ Error err))
      | None => emit (Printed "FFmpeg: Available")
      end ;;;
      (* Check hardware acceleration *)
      checked <- quietly (fun st =>
                   let '(err, t, st) :=
                     Transcoder_CheckGPUAvailability (RealCommandExecutor env host) t st in
                   ((err, t), st)) ;;
      let '(gpuErr, t) := checked in
      match gpuErr with
      | Some err => emit (Printed ("Hardware Acceleration: " +:+ Error err))
      | None =>
          (* Determine platform and show appropriate message *)
          let systemChecker := NewSystemChecker rt in
          let platform := GetPlatform systemChecker in
          match platform with
          | PlatformAppleSilicon =>
              emit (Printed "Hardware Acceleration: Apple Silicon VideoToolbox detected")
          | PlatformNVIDIA =>
              emit (Printed "Hardware Acceleration: NVIDIA GPU with CUDA support detected")
          | _ => emit (Printed "Hardware Acceleration: Available")
          end
      end ;;;
      (* Check platform-appropriate encoders *)
      let systemChecker := NewSystemChecker rt in
      let platform := GetPlatform systemChecker in
      let encoders :=
        match platform with
        | PlatformAppleSilicon => ["h264_videotoolbox"; "hevc_videotoolbox"; "libsvtav1"]
        | _ => ["h264_nvenc"; "hevc_nvenc"; "av1_nvenc"]
        end in
      reportEncoders t encoders ;;;
      ret (Returned None)
  end.

End Command.

End Cmd.

(** ** A scripted host

    The host that goes with the scripted environment: every error of
    [os.Stat] there says that the file does not exist, creating a file adds
    it, and [nvidia-smi -L] prints [gpuList] or fails when there is none. *)

Module ScriptedHost.

Definition host (fails : list string -> bool) (diagnostic : string)
    (gpuList : option string) : Host (Scripted.env fails diagnostic) :=
  {| os_IsNotExist := fun _ => true;
     os_Create := fun path (st : State (Scripted.env fails diagnostic)) =>
       (None, (path :: st) : State (Scripted.env fails diagnostic));
     exec_Output := fun name _ (st : State (Scripted.env fails diagnostic)) =>
       (if String.eqb name "nvidia-smi"
        then match gpuList with
             | Some text => inl text
             | None => inr (errorString "exec: nvidia-smi: executable file not found")
             end
        else inl EmptyString, st) |}.

(** One GPU, as in the test suite. *)
Definition oneGPU : string := "GPU 0: NVIDIA GeForce RTX 3080" +:+ newline.

Definition flags (presetName : string) (noGPU dryRun : bool) : Cmd.Flags :=
  {| Cmd.recursive := false; Cmd.outputDir := "out"; Cmd.preset := presetName;
     Cmd.inputFile := "in.mp4"; Cmd.overwrite := false; Cmd.verbose := false;
     Cmd.dryRun := dryRun; Cmd.gpuIndex := 0; Cmd.noGPU := noGPU;
     Cmd.audioCodec := "copy"; Cmd.csvOutput := EmptyString |}.

Definition presetNames : list string :=
  ["720p_av1"; "1080p_av1"; "720p_h264"; "1080p_h264"; "1080p_h265"; "4k_av1";
   "4k_h265"].

End ScriptedHost.

(** ** Vocabulary of the further properties

    Views of the registry, of a walk and of the events, and a scripted
    directory tree, used to state what the functions above do. *)

(** The platform whose catalog [GetPresets] registers on a runtime. *)
Definition catalogPlatform (rt : Runtime) : Platform :=
  match detectPlatform rt with
  | PlatformAppleSilicon => PlatformAppleSilicon
  | _ => PlatformNVIDIA
  end.

(** The argument list [args] passes [value] right after [flag]. *)
Fixpoint passes (flag value : string) (args : list string) : bool :=
  match args with
  | a :: (b :: _) as rest => String.eqb a flag && String.eqb b value || passes flag value rest
  | _ => false
  end.

(** What every entry of a catalog satisfies *)
Definition wellFormedEntry (target : Platform) (entry : string * Preset) : bool :=
  let '(name, p) := entry in
  String.eqb (Name p) name
  && bool_decide (PresetPlatform p = target)
  && bool_decide (firstn 2 (Args p) = ["-c:v"; Encoder p])
  && String.eqb (extractScaleFilter (Args p))
       ("scale=" +:+ Strings.ReplaceAll (Resolution p) "x" ":")
  && passes "-b:v" (Bitrate p) (Args p)
  && negb (Strings.isEmpty (Bitrate p)).

(** The bytes that [SanitizeFilename] removes or replaces. *)
Definition reservedBytes : list string :=
  ["<"; ">"; ":"; dquote; "|"; "?"; "*"; "/"; "\"].

(** The visits of a walk before the first one that carries an error, and
    that error. *)
Fixpoint visitedBeforeError (visits : list (string * (FileInfo + error)))
  : list (string * FileInfo) :=
  match visits with
  | (path, inl info) :: rest => (path, info) :: visitedBeforeError rest
  | _ => []
  end.

Fixpoint firstWalkError (visits : list (string * (FileInfo + error))) : option error :=
  match visits with
  | [] => None
  | (_, inr err) :: _ => Some err
  | (_, inl _) :: rest => firstWalkError rest
  end.

(** A directory [videos] with two videos, a text file and a subdirectory
    that holds a third video; the walk fails at [videos/locked]. *)
Module ScriptedTree.

Definition directory : FileInfo := {| IsDir := true; Size := 4096 |}.
Definition regular : FileInfo := {| IsDir := false; Size := 1000 |}.

Definition env : Env :=
  {| State := unit;
     os_Stat := fun _ path =>
       if String.eqb path "videos" then inl directory
       else inr (errorString ("stat " +:+ path +:+ ": no such file or directory"));
     os_ReadDir := fun _ _ =>
       inl [ {| EntryName := "B.MKV"; EntryIsDir := false |};
             {| EntryName := "a.mp4"; EntryIsDir := false |};
             {| EntryName := "clips.mp4"; EntryIsDir := true |};
             {| EntryName := "notes.txt"; EntryIsDir := false |} ];
     os_MkdirAll := fun _ st => (None, st);
     filepath_Walk := fun _ _ =>
       [ ("videos", inl directory);
         ("videos/B.MKV", inl regular);
         ("videos/a.mp4", inl regular);
         ("videos/clips.mp4", inl directory);
         ("videos/clips.mp4/c.webm", inl regular);
         ("videos/locked", inr (errorString "open videos/locked: permission denied"));
         ("videos/notes.txt", inl regular);
         ("videos/z.mp4", inl regular) ];
     filepath_Abs := fun _ path => inl path;
     filepath_Rel := fun _ _ => inl ".";
     filepath_Join := fun elems => Strings.Join elems "/";
     filepath_Dir := Scripted.dir;
     strings_MapToLower := Scripted.mapToLower;
     exec_Run := fun _ _ st => ({| runErr := None; runStderr := EmptyString |}, st);
     csv_Write := fun _ st => (None, st) |}.

End ScriptedTree.

(** The analytics rows and the directory requests among some events. *)
Definition csvRows (events : list Event) : list (string * string * string) :=
  flat_map (fun e =>
    match e with
    | WroteCsv filename preset status _ => [(filename, preset, status)]
    | _ => []
    end) events.

Definition directoriesMade (events : list Event) : list (string * bool) :=
  flat_map (fun e =>
    match e with
    | MadeDir path ok => [(path, ok)]
    | _ => []
    end) events.

(** * Properties *)

(** ** Facts about the string functions *)

Section StringFacts.

Import Strings.

Lemma prefix_cons a p b s :
  String.prefix (String a p) (String b s) = true <-> a = b /\ String.prefix p s = true.
Proof.
  simpl. destruct (ascii_dec a b) as [->|Hne]; split; intros H;
    try tauto; try discriminate.
  all: try (destruct H as [H _]; contradiction).
Qed.

Lemma prefix_trans a : forall b c,
  String.prefix a b = true -> String.prefix b c = true -> String.prefix a c = true.
Proof.
  induction a as [|x a IH]; intros [|y b] [|z c] Hab Hbc; try reflexivity;
    try discriminate.
  apply prefix_cons in Hab as [-> Hab]. apply prefix_cons in Hbc as [-> Hbc].
  apply prefix_cons. split; [reflexivity | eauto].
Qed.

Lemma prefix_refl a : String.prefix a a = true.
Proof. induction a as [|x a IH]; [reflexivity | now apply prefix_cons]. Qed.

Lemma Contains_cons c s sub :
  Contains (String c s) sub = HasPrefix (String c s) sub || Contains s sub.
Proof. reflexivity. Qed.

(** A string that occurs in a prefix of [s] occurs in [s]. *)
Lemma Contains_prefix sub : forall y s,
  String.prefix y s = true -> Contains y sub = true -> Contains s sub = true.
Proof.
  induction y as [|a y IH]; intros s Hp Hc.
  - simpl in Hc. rewrite orb_false_r in Hc. unfold HasPrefix in Hc.
    destruct sub; [|discriminate]. destruct s; reflexivity.
  - destruct s as [|b s]; [discriminate|].
    apply prefix_cons in Hp as [-> Hp].
    rewrite Contains_cons in *. apply orb_true_iff in Hc as [Hc|Hc].
    + apply orb_true_iff; left. unfold HasPrefix in *.
      eapply prefix_trans; [exact Hc|]. now apply prefix_cons.
    + apply orb_true_iff; right. eauto.
Qed.

(** A string with a prefix that occurs in [s] occurs in [s] too. *)
Lemma Contains_shorter a b : String.prefix a b = true ->
  forall s, Contains s b = true -> Contains s a = true.
Proof.
  intros Hab. induction s as [|c s IH]; intros Hc.
  - simpl in *. rewrite orb_false_r in *.
    destruct b; [|discriminate]. destruct a; [reflexivity|discriminate].
  - rewrite Contains_cons in *. apply orb_true_iff in Hc as [Hc|Hc];
      apply orb_true_iff; [left|right; auto].
    unfold HasPrefix in *. eapply prefix_trans; eauto.
Qed.

Lemma allChars_prefix p : forall y s,
  String.prefix y s = true -> allChars p s = true -> allChars p y = true.
Proof.
  induction y as [|a y IH]; intros [|b s] Hp Hs; try reflexivity; try discriminate.
  apply prefix_cons in Hp as [-> Hp]. simpl in *.
  apply andb_true_iff in Hs as [-> Hs]. simpl. eauto.
Qed.

Lemma allChars_append p a b :
  allChars p a = true -> allChars p b = true -> allChars p (a +:+ b) = true.
Proof.
  induction a as [|c a IH]; simpl; [auto|].
  intros Ha Hb. apply andb_true_iff in Ha as [-> Ha]. simpl. auto.
Qed.

Lemma sliceTo_prefix : forall n s, String.prefix (sliceTo n s) s = true.
Proof.
  induction n as [|n IH]; intros [|c s]; try reflexivity.
  simpl sliceTo. now apply prefix_cons.
Qed.

Lemma sliceTo_length : forall n s, (String.length (sliceTo n s) <= n)%nat.
Proof.
  induction n as [|n IH]; intros [|c s]; simpl; try lia.
  specialize (IH s). lia.
Qed.

Lemma TrimRight_prefix cut : forall s, String.prefix (TrimRight s cut) s = true.
Proof.
  induction s as [|c s IH]; [reflexivity|]. simpl.
  destruct (isEmpty (TrimRight s cut) && inCutset c cut); [reflexivity|].
  now apply prefix_cons.
Qed.

Lemma TrimRight_length cut : forall s,
  (String.length (TrimRight s cut) <= String.length s)%nat.
Proof.
  induction s as [|c s IH]; simpl; [lia|].
  destruct (isEmpty (TrimRight s cut) && inCutset c cut); simpl; lia.
Qed.

Lemma TrimRight_idempotent cut : forall s,
  TrimRight (TrimRight s cut) cut = TrimRight s cut.
Proof.
  induction s as [|c s IH]; [reflexivity|]. simpl.
  destruct (isEmpty (TrimRight s cut) && inCutset c cut) eqn:E; [reflexivity|].
  simpl. rewrite IH, E. reflexivity.
Qed.

(** Replacing a string that does not occur changes nothing. *)
Lemma ReplaceAll_absent old new : forall s,
  Contains s old = false -> ReplaceAll s old new = s.
Proof.
  unfold ReplaceAll. induction s as [|c s IH]; [reflexivity|].
  rewrite Contains_cons. intros H. apply orb_false_iff in H as [Hp Hc].
  cbn [replaceFrom]. rewrite Hp, IH; auto.
Qed.

Lemma allChars_replaceFrom p old new :
  allChars p new = true ->
  forall s skip, allChars p s = true -> allChars p (replaceFrom old new skip s) = true.
Proof.
  intros Hn. induction s as [|c s IH]; intros skip Hs; [reflexivity|].
  simpl in Hs. apply andb_true_iff in Hs as [Hc Hs]. cbn [replaceFrom].
  destruct skip; [|auto].
  destruct (HasPrefix (String c s) old).
  - apply allChars_append; auto.
  - simpl. rewrite Hc. simpl. auto.
Qed.

Lemma HasPrefix_byte c s k :
  HasPrefix (String c s) (String k EmptyString) = Ascii.eqb c k.
Proof.
  unfold HasPrefix. simpl. destruct (ascii_dec k c) as [->|Hne].
  - rewrite Ascii.eqb_refl. now destruct s.
  - symmetry. apply Ascii.eqb_neq. congruence.
Qed.

Lemma Contains_byte k : forall s,
  allChars (isNot k) s = true -> Contains s (String k EmptyString) = false.
Proof.
  induction s as [|c s IH]; [reflexivity|]. simpl allChars. intros H.
  apply andb_true_iff in H as [Hc Hs].
  rewrite Contains_cons, HasPrefix_byte, IH by assumption.
  unfold isNot in Hc. now destruct (Ascii.eqb c k).
Qed.

(** Replacing every occurrence of a byte by a text without it removes it. *)
Lemma ReplaceAll_byte_gone k new :
  allChars (isNot k) new = true ->
  forall s, allChars (isNot k) (ReplaceAll s (String k EmptyString) new) = true.
Proof.
  intros Hn. unfold ReplaceAll. induction s as [|c s IH]; [reflexivity|].
  cbn [replaceFrom]. rewrite HasPrefix_byte.
  destruct (Ascii.eqb c k) eqn:E.
  - apply allChars_append; auto.
  - simpl. unfold isNot at 1. rewrite E. simpl. exact IH.
Qed.

(** After [..] has been replaced by [_], no two dots are adjacent. *)
Lemma no_dotdot_replaceFrom : forall s,
  Contains (replaceFrom ".." "_" 0 s) ".." = false
  /\ Contains (replaceFrom ".." "_" 1 s) ".." = false
  /\ (startsWithDot (replaceFrom ".." "_" 0 s) = true ->
      startsWithDot s = true /\ HasPrefix s ".." = false).
Proof.
  induction s as [|c s (IH0 & IH1 & IHd)]; [repeat split; discriminate|].
  split; [|split].
  - cbn [replaceFrom]. destruct (HasPrefix (String c s) "..") eqn:E.
    + cbn [String.length Nat.sub]. change ("_" +:+ ?x) with (String "_"%char x).
      rewrite Contains_cons, IH1. reflexivity.
    + rewrite Contains_cons, IH0, orb_false_r.
      destruct (HasPrefix (String c (replaceFrom ".." "_" 0 s)) "..") eqn:E'; [|reflexivity].
      unfold HasPrefix in E, E'. apply prefix_cons in E' as [<- E'].
      destruct (IHd E') as [Hs _]. unfold startsWithDot, HasPrefix in Hs.
      assert (String.prefix ".." (String "."%char s) = true) as Hc
        by (apply prefix_cons; split; [reflexivity | exact Hs]).
      congruence.
  - cbn [replaceFrom]. exact IH0.
  - cbn [replaceFrom]. destruct (HasPrefix (String c s) "..") eqn:E.
    + cbn [String.length Nat.sub]. change ("_" +:+ ?x) with (String "_"%char x).
      intros H. discriminate H.
    + intros H. unfold startsWithDot, HasPrefix in H.
      apply prefix_cons in H as [<- _]. split; [|auto].
      unfold startsWithDot, HasPrefix. apply prefix_cons.
      split; [reflexivity | now destruct s].
Qed.

Lemma no_dotdot_ReplaceAll s : Contains (ReplaceAll s ".." "_") ".." = false.
Proof. apply no_dotdot_replaceFrom. Qed.

End StringFacts.

(** ** [SanitizeFilename] *)

Section SanitizeFacts.

Import Strings.

Lemma entryEqb_eq a b : entryEqb a b = true <-> a = b.
Proof.
  destruct a as [a1 a2], b as [b1 b2]. unfold entryEqb. simpl.
  rewrite andb_true_iff, !String.eqb_eq. split; [intros [-> ->]|intros [= -> ->]]; auto.
Qed.

Lemma iterationOrder_incl order :
  iterationOrder order = true ->
  (forall e, In e problematicChars -> In e order)
  /\ (forall e, In e order -> In e problematicChars).
Proof.
  unfold iterationOrder. rewrite !andb_true_iff. intros [[H1 H2] _].
  rewrite forallb_forall in H1, H2. split; intros e He.
  - apply H1 in He. apply existsb_exists in He as (x & Hx & E).
    apply entryEqb_eq in E as ->. exact Hx.
  - apply H2 in He. apply existsb_exists in He as (x & Hx & E).
    apply entryEqb_eq in E as ->. exact Hx.
Qed.

(** Every key of the table is one byte, and no replacement text (nor the
    underscore) holds a key. *)
Lemma problematicChars_entry e :
  In e problematicChars ->
  exists k, fst e = String k EmptyString
    /\ allChars (isNot k) "_" = true
    /\ forall e', In e' problematicChars -> allChars (isNot k) (snd e') = true.
Proof.
  intros He. simpl in He.
  repeat (destruct He as [<-|He]; [eexists; split; [reflexivity|]; split;
    [reflexivity|]; intros e' He'; simpl in He';
    repeat (destruct He' as [<-|He']; [reflexivity|]); contradiction|]).
  contradiction.
Qed.

Lemma problematicChars_functional e e' :
  In e problematicChars -> In e' problematicChars -> fst e = fst e' -> e = e'.
Proof.
  intros He He' E. simpl in He, He'.
  repeat (destruct He as [<-|He]; [
    repeat (destruct He' as [<-|He']; [reflexivity || discriminate E|]);
    contradiction|]).
  contradiction.
Qed.

Lemma fold_preserves p (order : list (string * string)) :
  (forall e, In e order -> allChars p (snd e) = true) ->
  forall s, allChars p s = true -> allChars p (fold_left replaceStep order s) = true.
Proof.
  induction order as [|e order IH]; intros Hv s Hs; [exact Hs|].
  cbn [fold_left]. apply IH.
  - intros e' He'. apply Hv. now right.
  - apply allChars_replaceFrom; [apply Hv; now left | exact Hs].
Qed.

Lemma fold_gone k (order : list (string * string)) :
  (exists v, In (String k EmptyString, v) order) ->
  (forall e, In e order -> allChars (isNot k) (snd e) = true) ->
  forall s, allChars (isNot k) (fold_left replaceStep order s) = true.
Proof.
  induction order as [|e order IH]; intros [v Hin] Hv s; [destruct Hin|].
  cbn [fold_left]. destruct Hin as [->|Hin].
  - apply fold_preserves; [intros e' He'; apply Hv; now right|].
    apply ReplaceAll_byte_gone. apply (Hv (String k EmptyString, v)). now left.
  - apply IH; [eauto | intros e' He'; apply Hv; now right].
Qed.

Lemma fold_absent (order : list (string * string)) s :
  (forall e, In e order -> Contains s (fst e) = false) ->
  fold_left replaceStep order s = s.
Proof.
  induction order as [|e order IH]; intros H; [reflexivity|].
  cbn [fold_left]. unfold replaceStep at 2.
  rewrite ReplaceAll_absent by (apply H; now left).
  apply IH. intros e' He'. apply H. now right.
Qed.

(** What a sanitized name looks like: no key of the table, no two
    adjacent dots, at most 180 bytes, no dot or space at the end. *)
Lemma SanitizeFilenameIn_shape order x :
  iterationOrder order = true ->
  let y := SanitizeFilenameIn order x in
  (forall e, In e problematicChars -> Contains y (fst e) = false)
  /\ Contains y ".." = false
  /\ (String.length y <= 180)%nat
  /\ TrimRight y ". " = y.
Proof.
  intros Hord y. destruct (iterationOrder_incl _ Hord) as [Hin Hout].
  subst y. unfold SanitizeFilenameIn.
  set (a := fold_left _ order x).
  rewrite (ReplaceAll_absent "..." "_" (ReplaceAll a ".." "_")).
  2:{ destruct (Contains (ReplaceAll a ".." "_") "...") eqn:E; [|reflexivity].
      apply (Contains_shorter ".." "...") in E; [|reflexivity].
      now rewrite no_dotdot_ReplaceAll in E. }
  set (b := ReplaceAll a ".." "_").
  set (c := if (180 <? String.length b)%nat then sliceTo 180 b else b).
  assert (Hcb : String.prefix c b = true).
  { subst c. destruct (180 <? String.length b)%nat;
      [apply sliceTo_prefix | apply prefix_refl]. }
  assert (Hyb : String.prefix (TrimRight c ". ") b = true).
  { eapply prefix_trans; [apply TrimRight_prefix | exact Hcb]. }
  repeat split.
  - intros [e1 e2] He.
    destruct (problematicChars_entry _ He) as (k & Hk & Hu & Hv).
    cbn [fst] in Hk |- *. subst e1.
    apply Contains_byte. eapply allChars_prefix; [exact Hyb|].
    subst b. apply allChars_replaceFrom; [exact Hu|].
    apply fold_gone.
    + exists e2. apply Hin. exact He.
    + intros e' He'. apply Hv. now apply Hout.
  - destruct (Contains (TrimRight c ". ") "..") eqn:E; [|reflexivity].
    apply (Contains_prefix _ _ b Hyb) in E. subst b.
    now rewrite no_dotdot_ReplaceAll in E.
  - etransitivity; [apply TrimRight_length|]. subst c.
    destruct (180 <? String.length b)%nat eqn:E.
    + apply sliceTo_length.
    + apply Nat.ltb_ge in E. exact E.
  - apply TrimRight_idempotent.
Qed.

Lemma append_assoc' (a b c : string) : (a +:+ b) +:+ c = a +:+ (b +:+ c).
Proof.
  induction a as [|x a IH]; [reflexivity|].
  change (String x ((a +:+ b) +:+ c) = String x (a +:+ (b +:+ c))).
  now rewrite IH.
Qed.

Lemma mapBytes_append f a b :
  mapBytes f (a +:+ b) = mapBytes f a +:+ mapBytes f b.
Proof.
  induction a as [|c a IH]; [reflexivity|]. simpl.
  now rewrite IH, append_assoc'.
Qed.

Lemma mapBytes_ext f g s :
  (forall c, f c = g c) -> mapBytes f s = mapBytes g s.
Proof. intros H. induction s as [|c s IH]; [reflexivity|]. simpl. now rewrite H, IH. Qed.

Lemma append_empty_r s : s +:+ EmptyString = s.
Proof.
  induction s as [|c s IH]; [reflexivity|].
  change (String c (s +:+ EmptyString) = String c s). now rewrite IH.
Qed.

(** The replacement loop acts byte by byte. *)
Lemma ReplaceAll_byte k new s :
  ReplaceAll s (String k EmptyString) new
  = mapBytes (fun c => if Ascii.eqb c k then new else String c EmptyString) s.
Proof.
  unfold ReplaceAll. induction s as [|c s IH]; [reflexivity|].
  cbn [replaceFrom mapBytes]. rewrite HasPrefix_byte.
  destruct (Ascii.eqb c k); cbn [String.length Nat.sub]; now rewrite IH.
Qed.

Lemma mapBytes_keyfree (table : list (string * string)) : forall s,
  (forall e, In e table -> Contains s (fst e) = false) ->
  mapBytes (substByte table) s = s.
Proof.
  induction s as [|c s IH]; intros H; [reflexivity|]. cbn [mapBytes].
  rewrite IH.
  - unfold substByte.
    destruct (find _ table) as [e|] eqn:F; [|reflexivity].
    apply find_some in F as [He E]. apply String.eqb_eq in E.
    specialize (H e He). rewrite E, Contains_cons, HasPrefix_byte,
      Ascii.eqb_refl in H. discriminate H.
  - intros e He. specialize (H e He). rewrite Contains_cons in H.
    now apply orb_false_iff in H as [_ H].
Qed.

Lemma fold_mapBytes (order : list (string * string)) :
  (forall e, In e order -> In e problematicChars) ->
  forall s, fold_left replaceStep order s = mapBytes (substByte order) s.
Proof.
  induction order as [|[k v] order IH]; intros Hsub s.
  - cbn [fold_left]. induction s as [|c s IHs]; [reflexivity|].
    cbn. now rewrite <- IHs.
  - cbn [fold_left]. rewrite IH by (intros e He; apply Hsub; now right).
    unfold replaceStep. cbn [fst snd].
    destruct (problematicChars_entry (k, v) (Hsub _ (or_introl eq_refl)))
      as (k0 & Hk & _ & Hv). cbn [fst] in Hk. subst k.
    rewrite ReplaceAll_byte. clear IH.
    induction s as [|c s IHs]; [reflexivity|].
    cbn [mapBytes]. rewrite mapBytes_append, IHs. f_equal.
    unfold substByte at 2. cbn [find fst snd].
    rewrite (String.eqb_sym (String k0 EmptyString)).
    replace (String.eqb (String c EmptyString) (String k0 EmptyString))
      with (Ascii.eqb c k0).
    2:{ destruct (Ascii.eqb c k0) eqn:E.
        - apply Ascii.eqb_eq in E as ->. now rewrite String.eqb_refl.
        - symmetry. apply String.eqb_neq. apply Ascii.eqb_neq in E. congruence. }
    destruct (Ascii.eqb c k0).
    + apply mapBytes_keyfree. intros [k1 v1] He.
      destruct (problematicChars_entry _ (Hsub _ (or_intror He)))
        as (k2 & Hk2 & _ & Hv2). cbn [fst] in Hk2 |- *. subst k1.
      apply Contains_byte. apply (Hv2 (String k0 EmptyString, v)).
      apply Hsub. now left.
    + cbn [mapBytes]. apply append_empty_r.
Qed.

Lemma substByte_order order c :
  iterationOrder order = true -> substByte order c = substByte problematicChars c.
Proof.
  intros Hord. destruct (iterationOrder_incl _ Hord) as [Hin Hout].
  unfold substByte.
  destruct (find _ order) as [e|] eqn:F.
  - apply find_some in F as [He E]. apply String.eqb_eq in E.
    destruct (find _ problematicChars) as [e'|] eqn:F'.
    + apply find_some in F' as [He' E']. apply String.eqb_eq in E'.
      f_equal. symmetry. apply problematicChars_functional; auto. congruence.
    + eapply find_none in F'; [|apply Hout; exact He].
      cbn beta in F'. rewrite E, String.eqb_refl in F'. discriminate.
  - destruct (find _ problematicChars) as [e'|] eqn:F'; [|reflexivity].
    apply find_some in F' as [He' E'].
    eapply find_none in F; [|apply Hin; exact He'].
    cbn beta in F. congruence.
Qed.

(** The order in which the map is iterated does not change the result. *)
Lemma SanitizeFilenameIn_order order x :
  iterationOrder order = true -> SanitizeFilenameIn order x = SanitizeFilename x.
Proof.
  intros Hord. destruct (iterationOrder_incl _ Hord) as [Hin Hout].
  unfold SanitizeFilename, SanitizeFilenameIn.
  rewrite (fold_mapBytes order Hout), (fold_mapBytes problematicChars) by auto.
  rewrite (mapBytes_ext _ (substByte problematicChars)); [reflexivity|].
  intros c. now apply substByte_order.
Qed.

(** C7. [SanitizeFilename] is idempotent: sanitizing a sanitized name gives
    it back, whatever order the map of problematic characters is iterated
    in by either call. *)
Theorem SanitizeFilename_idempotent order1 order2 x :
  iterationOrder order1 = true ->
  iterationOrder order2 = true ->
  SanitizeFilenameIn order2 (SanitizeFilenameIn order1 x)
  = SanitizeFilenameIn order1 x.
Proof.
  intros H1 H2.
  destruct (SanitizeFilenameIn_shape order1 x H1) as (Hkeys & Hdots & Hlen & Htrim).
  destruct (iterationOrder_incl _ H2) as [_ Hout].
  set (y := SanitizeFilenameIn order1 x) in *.
  unfold SanitizeFilenameIn at 1.
  rewrite fold_absent by (intros e He; apply Hkeys, Hout, He).
  rewrite (ReplaceAll_absent ".." "_" y Hdots).
  rewrite ReplaceAll_absent.
  2:{ destruct (Contains y "...") eqn:E; [|reflexivity].
      apply (Contains_shorter ".." "...") in E; [congruence | reflexivity]. }
  replace (180 <? String.length y)%nat with false
    by (symmetry; apply Nat.ltb_ge; exact Hlen).
  exact Htrim.
Qed.

Lemma SanitizeFilename_idempotent_witness :
  iterationOrder problematicChars = true
  /\ iterationOrder (rev problematicChars) = true
  /\ SanitizeFilenameIn (rev problematicChars)
       (SanitizeFilenameIn problematicChars "a<b>...c/d:e. . ")
     = SanitizeFilenameIn problematicChars "a<b>...c/d:e. . ".
Proof.
  split; [reflexivity|]. split; [reflexivity|].
  apply (SanitizeFilename_idempotent problematicChars (rev problematicChars));
    reflexivity.
Defined.

End SanitizeFacts.

(** ** [SanitizeFilename] on examples of the test suite *)

Example SanitizeFilename_clean : SanitizeFilename "video.mp4" = "video.mp4".
Proof. reflexivity. Qed.

Example SanitizeFilename_chars :
  SanitizeFilename "video<test>file.mp4" = "videotestfile.mp4".
Proof. reflexivity. Qed.

Example SanitizeFilename_dots :
  SanitizeFilename "video...test.mp4" = "video_.test.mp4".
Proof. reflexivity. Qed.

(** ** The preset registry *)

Section PresetFacts.

Lemma copyInto_empty_dom (catalog : gmap string Preset) :
  dom (copyInto catalog ∅) = dom catalog.
Proof.
  unfold copyInto.
  apply (map_fold_weak_ind (fun r m => dom r = dom m)).
  - reflexivity.
  - intros name preset m r Hfresh IH. now rewrite !dom_insert_L, IH.
Qed.

Lemma catalog_names :
  dom nvencPresets = dom appleSiliconPresets.
Proof. vm_compute. reflexivity. Qed.

Lemma GetPresets_names rt :
  dom (GetPresets rt) = dom nvencPresets.
Proof.
  unfold GetPresets, addAppleSiliconPresets, addNVIDIAPresets.
  destruct (detectPlatform rt); rewrite copyInto_empty_dom;
    auto using catalog_names.
Qed.

(** C8. Every preset that [GetPresetsForPlatform] returns for a platform is
    bound to that platform, and the NVIDIA and Apple Silicon catalogs (and
    so the registries built from them on any machine) have the same set of
    preset names. *)
Theorem GetPresetsForPlatform_bound_and_names :
  (forall rt P name preset,
      GetPresetsForPlatform rt P !! name = Some preset ->
      PresetPlatform preset = P)
  /\ dom (addNVIDIAPresets ∅) = dom (addAppleSiliconPresets ∅)
  /\ (forall rt rt', dom (GetPresets rt) = dom (GetPresets rt')).
Proof.
  split; [|split].
  - intros rt P name preset H. unfold GetPresetsForPlatform in H.
    apply map_lookup_filter_Some in H as [_ H]. exact H.
  - unfold addNVIDIAPresets, addAppleSiliconPresets.
    rewrite !copyInto_empty_dom. apply catalog_names.
  - intros rt rt'. now rewrite !GetPresets_names.
Qed.

Lemma GetPresetsForPlatform_bound_and_names_witness :
  GetPresetsForPlatform Scripted.linux PlatformNVIDIA !! "720p_av1"
    = Some Scripted.av1At720p
  /\ PresetPlatform Scripted.av1At720p = PlatformNVIDIA.
Proof.
  split; [vm_compute; reflexivity|].
  apply (proj1 GetPresetsForPlatform_bound_and_names Scripted.linux
           PlatformNVIDIA "720p_av1" Scripted.av1At720p).
  vm_compute. reflexivity.
Defined.

End PresetFacts.

(** ** Software-mode arguments *)

Section SoftwareFacts.

Lemma extractScaleFilter_first (pre : list string) v post :
  ~ In "-vf" pre ->
  extractScaleFilter (pre ++ "-vf" :: v :: post) = v.
Proof.
  induction pre as [|a pre IH]; intros Hnot.
  - reflexivity.
  - cbn [app extractScaleFilter].
    destruct (pre ++ "-vf" :: v :: post) as [|next rest] eqn:E.
    + destruct pre; discriminate E.
    + destruct (String.eqb a "-vf") eqn:Ea.
      * apply String.eqb_eq in Ea. subst a. exfalso. apply Hnot. now left.
      * apply IH. intros H. apply Hnot. now right.
Qed.

Lemma extractScaleFilter_absent (args : list string) :
  ~ In "-vf" args -> extractScaleFilter args = "scale=-1:-1".
Proof.
  induction args as [|a args IH]; intros Hnot; [reflexivity|].
  cbn [extractScaleFilter]. destruct args as [|next rest]; [reflexivity|].
  destruct (String.eqb a "-vf") eqn:Ea.
  - apply String.eqb_eq in Ea. subst a. exfalso. apply Hnot. now left.
  - apply IH. intros H. apply Hnot. now right.
Qed.

(** C3. For a preset whose encoder is [av1_nvenc] or [libsvtav1] the
    software-mode arguments select [libx264] with the [slower] preset at
    CRF 18 (the other encoders get [medium] at CRF 23 or 26), not a
    software AV1 encoder.  For every preset they carry the preset's
    bitrate as target and as ceiling, and the scale filter is the value
    that follows the first [-vf] of the preset's own arguments, or
    [scale=-1:-1] when the arguments have no [-vf]. *)
Theorem convertToSoftwarePreset_spec (preset : Preset) :
  (Encoder preset = "av1_nvenc" \/ Encoder preset = "libsvtav1" ->
     convertToSoftwarePreset preset
     = ["-c:v"; "libx264"; "-preset"; "slower"; "-crf"; "18";
        "-vf"; extractScaleFilter (Args preset)] ++ bitrateControl preset)
  /\ (exists codec crf,
        convertToSoftwarePreset preset
        = ["-c:v"; codec; "-preset";
           (if String.eqb (Encoder preset) "av1_nvenc"
               || String.eqb (Encoder preset) "libsvtav1"
            then "slower" else "medium");
           "-crf"; crf; "-vf"; extractScaleFilter (Args preset)]
          ++ bitrateControl preset
        /\ (codec = "libx264" \/ codec = "libx265")
        /\ (crf = "18" \/ crf = "23" \/ crf = "26"))
  /\ (forall pre v post,
        Args preset = pre ++ "-vf" :: v :: post -> ~ In "-vf" pre ->
        extractScaleFilter (Args preset) = v)
  /\ (~ In "-vf" (Args preset) -> extractScaleFilter (Args preset) = "scale=-1:-1").
Proof.
  split; [|split; [|split]].
  - unfold convertToSoftwarePreset, softwareProfile, bitrateControl.
    intros [-> | ->]; cbn [String.eqb Ascii.eqb Bool.eqb];
      destruct (Strings.isEmpty (Bitrate preset)); reflexivity.
  - unfold convertToSoftwarePreset, softwareProfile, bitrateControl.
    repeat match goal with
           | |- context [String.eqb (Encoder preset) ?s] =>
               destruct (String.eqb (Encoder preset) s) eqn:?
           end;
      try (repeat match goal with
                  | H : String.eqb _ _ = true |- _ => apply String.eqb_eq in H
                  end; congruence);
      cbn [orb]; destruct (Strings.isEmpty (Bitrate preset)); cbn [negb];
      do 2 eexists; (split; [reflexivity|]); split; auto.
  - intros pre v post -> Hnot. now apply extractScaleFilter_first.
  - apply extractScaleFilter_absent.
Qed.

Lemma convertToSoftwarePreset_spec_witness :
  (Encoder Scripted.av1At720p = "av1_nvenc" \/ Encoder Scripted.av1At720p = "libsvtav1")
  /\ convertToSoftwarePreset Scripted.av1At720p
     = ["-c:v"; "libx264"; "-preset"; "slower"; "-crf"; "18";
        "-vf"; "scale=1280:720"; "-b:v"; "2M"; "-maxrate"; "2M"; "-bufsize"; "2M"].
Proof.
  split; [left; reflexivity|].
  apply (proj1 (convertToSoftwarePreset_spec Scripted.av1At720p)).
  left; reflexivity.
Defined.

End SoftwareFacts.

(** ** Path validation *)

Section ValidateFacts.

Lemma rejectProblematic_hit filename (chars : list string) char :
  In char chars -> Strings.Contains filename char = true ->
  rejectProblematic filename chars
  = Some (NewTranscoderError ErrorTypeInvalidFilePath
            "filename contains problematic character" None).
Proof.
  induction chars as [|c chars IH]; intros Hin Hc; [destruct Hin|].
  cbn [rejectProblematic]. destruct (Strings.Contains filename c) eqn:E; [reflexivity|].
  destruct Hin as [->|Hin]; [congruence|auto].
Qed.

(** A path of at most 260 bytes whose file name holds a reserved character
    is rejected. *)
Lemma ValidateFilePath_rejects path char :
  (String.length path <= 260)%nat ->
  In char problematicCharsToReject ->
  Strings.Contains (Filepath.Base path) char = true ->
  IsTranscoderError (ValidateFilePath path) ErrorTypeInvalidFilePath = true.
Proof.
  intros Hlen Hin Hc. unfold ValidateFilePath.
  replace (260 <? String.length path)%nat with false
    by (symmetry; apply Nat.ltb_ge; exact Hlen).
  now rewrite (rejectProblematic_hit _ _ char Hin Hc).
Qed.

(** Past 260 bytes the function returns before it looks at the name. *)
Lemma ValidateFilePath_long path :
  (260 < String.length path)%nat -> ValidateFilePath path = None.
Proof.
  intros Hlen. unfold ValidateFilePath.
  now replace (260 <? String.length path)%nat with true
    by (symmetry; apply Nat.ltb_lt; exact Hlen).
Qed.

(** C4, at a path of 265 bytes whose file name holds [<]: the early
    return for long paths leaves the name unchecked, and no error comes
    back. *)
Theorem ValidateFilePath_long_path_unchecked :
  String.length Scripted.longName = 265%nat
  /\ Strings.Contains (Filepath.Base Scripted.longName) "<" = true
  /\ ValidateFilePath Scripted.longName = None
  /\ IsTranscoderError (ValidateFilePath Scripted.longName)
       ErrorTypeInvalidFilePath = false.
Proof. vm_compute. repeat split. Qed.

End ValidateFacts.

(** ** File discovery *)

Section DiscoveryFacts.

(** On a string of ASCII bytes [strings.ToLower] does not consult the
    Unicode tables. *)
Lemma ToLower_ascii mapToLower s :
  Strings.allChars (fun c => (nat_of_ascii c <? 128)%nat) s = true ->
  Strings.ToLower mapToLower s = Strings.lowerBytes s.
Proof.
  unfold Strings.ToLower. intros ->.
  destruct (negb (negb _)) eqn:E; [| reflexivity].
  rewrite negb_involutive in E. clear -E.
  induction s as [|c s IH]; [reflexivity |].
  cbn [Strings.allChars Strings.lowerBytes] in *.
  apply andb_true_iff in E as [Hc Hs]. rewrite <- (IH Hs).
  unfold Strings.lowerByte. apply negb_true_iff in Hc. rewrite Hc. reflexivity.
Qed.

Lemma isVideoFile_allowlist env filename :
  isVideoFile env NewFileDiscovery filename = true ->
  Strings.ToLower (strings_MapToLower env) (Filepath.Ext filename)
  ∈ [".mp4"; ".mkv"; ".avi"; ".mov"; ".wmv"; ".flv"; ".webm"; ".m4v";
     ".3gp"; ".ts"; ".mts"; ".m2ts"].
Proof.
  unfold isVideoFile. cbn [videoExtensions NewFileDiscovery].
  destruct (_ !! _) as [b|] eqn:E; [|discriminate]. intros _.
  apply elem_of_list_to_map_2 in E.
  repeat (apply elem_of_cons in E as [E|E];
          [injection E as -> _; set_solver|]).
  inversion E.
Qed.

(** C10. For a path that names a single regular file whose lowercased
    extension is not one of the twelve allowed, [FindVideoFiles] returns an
    empty list and a nil error.  The extension is lowered by
    [strings.ToLower] as Go does it, with the Unicode tables of the
    environment: the statement holds whatever they are. *)
Theorem FindVideoFiles_unsupported_extension env inputPath recursive st info :
  os_Stat env st inputPath = inl info ->
  IsDir info = false ->
  Strings.ToLower (strings_MapToLower env) (Filepath.Ext inputPath)
  ∉ [".mp4"; ".mkv"; ".avi"; ".mov"; ".wmv"; ".flv"; ".webm"; ".m4v";
     ".3gp"; ".ts"; ".mts"; ".m2ts"] ->
  FindVideoFiles env NewFileDiscovery inputPath recursive st = ([], None).
Proof.
  intros Hstat Hfile Hext. unfold FindVideoFiles. rewrite Hstat, Hfile.
  destruct (isVideoFile env NewFileDiscovery inputPath) eqn:E; [|reflexivity].
  apply isVideoFile_allowlist in E. contradiction.
Qed.

Lemma FindVideoFiles_unsupported_extension_witness :
  let e := Scripted.env Scripted.never EmptyString in
  os_Stat e ["notes.TXT"] "notes.TXT" = inl {| IsDir := false; Size := 1000 |}
  /\ Strings.ToLower (strings_MapToLower e) (Filepath.Ext "notes.TXT") = ".txt"
  /\ FindVideoFiles e NewFileDiscovery "notes.TXT" false ["notes.TXT"] = ([], None).
Proof.
  intros e. split; [reflexivity|]. split; [reflexivity|].
  apply (FindVideoFiles_unsupported_extension e "notes.TXT" false
           ["notes.TXT"] {| IsDir := false; Size := 1000 |}).
  - reflexivity.
  - reflexivity.
  - apply (bool_decide_unpack _). vm_compute. exact I.
Defined.

(** An extension that only the Unicode tables lower into the list is a
    video extension: with the Kelvin sign for [k] the file [clip.mKv] is
    found, and so is [clip.avI] with the dotted capital I. *)
Example FindVideoFiles_kelvin_sign :
  let e := Scripted.env Scripted.never EmptyString in
  let name := "clip.m" +:+ Scripted.kelvin +:+ "v" in
  Strings.ToLower (strings_MapToLower e) (Filepath.Ext name) = ".mkv"
  /\ Strings.lowerBytes (Filepath.Ext name) <> ".mkv"
  /\ FindVideoFiles e NewFileDiscovery name false [name] = ([name], None).
Proof. vm_compute. repeat split. discriminate. Qed.

Example FindVideoFiles_dotted_capital_I :
  let e := Scripted.env Scripted.never EmptyString in
  let name := "clip.av" +:+ Scripted.dottedI in
  Strings.ToLower (strings_MapToLower e) (Filepath.Ext name) = ".avi"
  /\ FindVideoFiles e NewFileDiscovery name false [name] = ([name], None).
Proof. vm_compute. split; reflexivity. Qed.

End DiscoveryFacts.

(** ** The per-file run *)

Section PathPurity.

Context (env : Env).

(** The path utilities cause no event and leave the state as it is. *)
Lemma SanitizeWindowsPath_pure path st :
  SanitizeWindowsPath env path st = (sanitizedPath env path st, st, []).
Proof.
  unfold sanitizedPath, SanitizeWindowsPath, bind, readState, ret.
  destruct (_ && _); [|reflexivity]. destruct (filepath_Abs env st path); reflexivity.
Qed.

Lemma GenerateOutputPath_pure inputPath outputDir inputBasePath preset st :
  GenerateOutputPath env inputPath outputDir inputBasePath preset st
  = (generatedPath env inputPath outputDir inputBasePath preset st, st, []).
Proof.
  unfold generatedPath, GenerateOutputPath, bind, stat, readState, ret.
  destruct (os_Stat env st inputBasePath) as [info|]; [|reflexivity].
  destruct (IsDir info); [|reflexivity].
  destruct (filepath_Rel env _ _) as [relPath|]; [|reflexivity].
  destruct (negb _); reflexivity.
Qed.

End PathPurity.

(** One step of a run: name the path a path utility returns, or split on
    the next test the code makes. *)
Ltac step :=
  cbn beta iota zeta; cbn [fst snd resultOf stateOf eventsOf];
  first
    [ rewrite SanitizeWindowsPath_pure
    | rewrite GenerateOutputPath_pure
    | match goal with
      | |- context [match ?x with _ => _ end] =>
          lazymatch x with
          | context [match _ with _ => _ end] => fail
          | _ => destruct x eqn:?
          end
      end ].

Ltac unfold_run :=
  unfold probeInputFile, handleEncodingError, run, stat, mkdirAll, writeCsv,
    readState, when, emit, ret, bind.

Ltac observe :=
  cbn [eventsOf resultOf stateOf fst snd app invocations progressLines flat_map
       String.eqb Ascii.eqb Bool.eqb succeeded negb].

Section ProcessFileFacts.

Context (env : Env).


(** C9, as amended.  When overwriting is disabled and the output path that
    [processFile] computes already exists, no encoder attempt is made: the
    only [ffmpeg] invocation is the probe of the input.  The file is then
    skipped with a nil error, provided the checks that run before the
    existence test have passed: the preset is registered, the path passes
    [ValidateFilePath] and the probe succeeds. *)
Theorem processFile_skips_existing_output (t : Transcoder) (inputPath : string)
    (st : State env) (preset : Preset) :
  let input := sanitizedPath env inputPath st in
  let probe := exec_Run env "ffmpeg" (probeArgs input) st in
  let output := outputPathOf env t preset input (snd probe) in
  let r := processFile env t inputPath st in
  presets t !! ConfigPreset (config t) = Some preset ->
  Overwrite (config t) = false ->
  isOk (os_Stat env (snd probe) output) = true ->
  (forall args ok, In (args, ok) (invocations (eventsOf r)) -> args = probeArgs input)
  /\ (ValidateFilePath input = None ->
      runErr (fst probe) = None ->
      resultOf r = None
      /\ invocations (eventsOf r) = [(probeArgs input, true)]
      /\ stateOf r = snd probe).
Proof.
  intros input probe output r Hp Hov. subst r output probe.
  unfold processFile, outputPathOf. rewrite Hp.
  unfold_run. rewrite !SanitizeWindowsPath_pure, ?Hov. fold input.
  cbn [negb andb].
  destruct (exec_Run env "ffmpeg" (probeArgs input) st) as [probe st1] eqn:Hprobe.
  cbn [fst snd].
  repeat (rewrite ?Hprobe; step).
  all: observe.
  all: intros Hex.
  all: try discriminate Hex.
  all: split; [intros args ok HIn; cbn in HIn; intuition congruence|].
  all: intros Hv Hpr; try congruence.
  all: cbn [runErr] in *; try congruence.
  all: auto.
Qed.

End ProcessFileFacts.

(** ** The batch loops *)

Section BatchFacts.

Context (env : Env).

Lemma last_cons {A} (l : list A) : forall x d, List.last (x :: l) d = List.last l x.
Proof.
  induction l as [|y l IH]; intros x d; [reflexivity|].
  change (List.last (x :: y :: l) d) with (List.last (y :: l) d).
  now rewrite !IH.
Qed.

Lemma invocations_app a b : invocations (a ++ b) = invocations a ++ invocations b.
Proof. apply flat_map_app. Qed.

Lemma progressLines_app a b :
  progressLines (a ++ b) = progressLines a ++ progressLines b.
Proof. apply flat_map_app. Qed.

Lemma failuresOf_length {S} (visits : list (option error * S * list Event)) :
  (List.length (failuresOf visits) <= List.length visits)%nat.
Proof.
  induction visits as [|v visits IH]; [cbn; lia|].
  unfold failuresOf in *. cbn [flat_map List.length].
  rewrite List.length_app. destruct (resultOf v); cbn [List.length]; lia.
Qed.

Lemma visitAll_length {S} (perFile : string -> S -> option error * S * list Event)
    files : forall st, List.length (visitAll perFile files st) = List.length files.
Proof. induction files as [|f files IH]; intros st; cbn; [reflexivity|now rewrite IH]. Qed.

Lemma printErrors_spec errors st :
  printErrors env errors st
  = (tt, st, map (fun e => Printed ("  - " +:+ Error e)) errors).
Proof.
  induction errors as [|e errors IH]; [reflexivity|].
  cbn [printErrors]. unfold bind, emit. now rewrite IH.
Qed.

Lemma printed_lines_silent (lines : list string) :
  invocations (map Printed lines) = [] /\ progressLines (map Printed lines) = [].
Proof. induction lines as [|l lines [IH1 IH2]]; split; cbn; auto. Qed.

(** The closing report runs nothing, and returns the aggregate error exactly
    when there is an error to report. *)
Lemma reportErrors_spec errors st :
  let r := reportErrors env errors st in
  resultOf r = (if (0 <? List.length errors)%nat
                then Some (errorString "transcoding completed with errors")
                else None)
  /\ stateOf r = st
  /\ invocations (eventsOf r) = []
  /\ progressLines (eventsOf r) = [].
Proof.
  unfold reportErrors. destruct (0 <? List.length errors)%nat; [|repeat split].
  unfold bind, emit, ret. rewrite printErrors_spec.
  cbn [resultOf stateOf eventsOf fst snd].
  rewrite app_nil_r, <- (map_map (fun e => "  - " +:+ Error e) Printed).
  destruct (printed_lines_silent (map (fun e => "  - " +:+ Error e) errors))
    as [H1 H2].
  rewrite invocations_app, progressLines_app, H1, H2.
  repeat split.
Qed.

Lemma processEach_spec t files : forall errors st,
  let visits := visitAll (processFile env t) files st in
  processEach env t files errors st
  = (errors ++ failuresOf visits, lastState st visits, flat_map eventsOf visits).
Proof.
  induction files as [|file files IH]; intros errors st visits; subst visits.
  - cbn. unfold ret. now rewrite app_nil_r.
  - cbn [processEach visitAll]. unfold bind.
    destruct (processFile env t file st) as [[err st1] ev1] eqn:E.
    rewrite IH. cbn [stateOf fst snd flat_map eventsOf failuresOf resultOf].
    unfold lastState. cbn [map stateOf fst snd]. rewrite last_cons.
    destruct err; cbn [app]; now rewrite <- ?app_assoc.
Qed.

(** What one file leaves behind in [ProcessFilesWithProgress] holds no
    progress line. *)
Lemma processFileWithAnalytics_no_progress t file csvWriter st :
  progressLines (eventsOf (processFileWithAnalytics env t file csvWriter st)) = [].
Proof.
  unfold processFileWithAnalytics, processFile. unfold_run.
  repeat step. all: reflexivity.
Qed.

Lemma processEachWithProgress_spec t csvWriter total files : forall i errors st,
  let visits :=
    visitAll (fun f => processFileWithAnalytics env t f csvWriter) files st in
  let r := processEachWithProgress env t csvWriter total files i errors st in
  resultOf r = errors ++ failuresOf visits
  /\ stateOf r = lastState st visits
  /\ invocations (eventsOf r) = flat_map (fun v => invocations (eventsOf v)) visits
  /\ progressLines (eventsOf r)
     = map (fun j => ((j + 1)%nat, total)) (seq i (List.length files)).
Proof.
  induction files as [|file files IH]; intros i errors st visits r; subst visits r.
  - cbn. unfold ret. rewrite app_nil_r. repeat split.
  - cbn [processEachWithProgress visitAll]. unfold bind, emit.
    pose proof (processFileWithAnalytics_no_progress t file csvWriter st) as Hnp.
    destruct (processFileWithAnalytics env t file csvWriter st) as [[err st1] ev1] eqn:E.
    cbn [eventsOf snd] in Hnp.
    match goal with
    | |- context [processEachWithProgress env t csvWriter total files (S i) ?errs st1] =>
        destruct (IH (S i) errs st1) as (H1 & H2 & H3 & H4);
        destruct (processEachWithProgress env t csvWriter total files (S i) errs st1)
          as [[res st2] ev2]
    end.
    cbn [resultOf stateOf eventsOf fst snd] in *.
    cbn [flat_map failuresOf resultOf fst snd eventsOf List.length seq map].
    unfold lastState. cbn [map stateOf fst snd]. rewrite last_cons.
    rewrite !invocations_app, !progressLines_app, Hnp, H3, H4.
    cbn [invocations progressLines flat_map app].
    repeat split; auto.
    subst res. destruct err; cbn [app]; now rewrite <- ?app_assoc.
Qed.

(** C2. Both batch processors visit every file of the list, whatever the
    earlier files did: their final state is the state after the last file,
    their encoder invocations are those of all [N] visits in order, and
    [ProcessFilesWithProgress] prints the progress lines [1/N] to [N/N].
    With [k] the number of files that returned an error ([k <= N]), they
    return the aggregate error when [0 < k] and nil when [k = 0]. *)
Theorem batch_processes_every_file (t : Transcoder) (files : list string)
    (csvWriter : bool) (st : State env) :
  let aggregate := errorString "transcoding completed with errors" in
  (let visits := visitAll (processFile env t) files st in
   let k := List.length (failuresOf visits) in
   let r := ProcessFiles env t files st in
   List.length visits = List.length files
   /\ (k <= List.length files)%nat
   /\ stateOf r = lastState st visits
   /\ invocations (eventsOf r) = flat_map (fun v => invocations (eventsOf v)) visits
   /\ resultOf r = (if (0 <? k)%nat then Some aggregate else None))
  /\
  (let visits :=
     visitAll (fun f => processFileWithAnalytics env t f csvWriter) files st in
   let k := List.length (failuresOf visits) in
   let r := ProcessFilesWithProgress env t files csvWriter st in
   List.length visits = List.length files
   /\ (k <= List.length files)%nat
   /\ stateOf r = lastState st visits
   /\ invocations (eventsOf r) = flat_map (fun v => invocations (eventsOf v)) visits
   /\ progressLines (eventsOf r)
      = map (fun j => ((j + 1)%nat, List.length files)) (seq 0 (List.length files))
   /\ resultOf r = (if (0 <? k)%nat then Some aggregate else None)).
Proof.
  intros aggregate. split.
  - intros visits k r. subst r k.
    split; [apply visitAll_length|].
    split; [rewrite <- (visitAll_length (processFile env t) files st);
            apply failuresOf_length|].
    unfold ProcessFiles, bind. rewrite processEach_spec. fold visits.
    cbn [app].
    destruct (reportErrors_spec (failuresOf visits) (lastState st visits))
      as (H1 & H2 & H3 & H4).
    destruct (reportErrors env (failuresOf visits) (lastState st visits))
      as [[res st2] ev2].
    cbn [resultOf stateOf eventsOf fst snd] in *.
    rewrite invocations_app, H3, app_nil_r.
    repeat split; auto.
    clear. induction visits as [|v visits IH]; [reflexivity|].
    cbn [flat_map]. now rewrite invocations_app, IH.
  - intros visits k r. subst r k.
    split; [apply visitAll_length|].
    split; [rewrite <- (visitAll_length
                          (fun f => processFileWithAnalytics env t f csvWriter) files st);
            apply failuresOf_length|].
    unfold ProcessFilesWithProgress, bind.
    destruct (processEachWithProgress_spec t csvWriter (List.length files) files 0 [] st)
      as (E1 & E2 & E3 & E4).
    fold visits in E1, E2, E3.
    destruct (processEachWithProgress env t csvWriter (List.length files) files 0 [] st)
      as [[errors st1] ev1].
    cbn [resultOf stateOf eventsOf fst snd app] in *. subst errors st1.
    destruct (reportErrors_spec (failuresOf visits) (lastState st visits))
      as (H1 & H2 & H3 & H4).
    destruct (reportErrors env (failuresOf visits) (lastState st visits))
      as [[res st2] ev2].
    cbn [resultOf stateOf eventsOf fst snd] in *.
    rewrite invocations_app, progressLines_app, H3, H4, !app_nil_r.
    repeat split; auto.
Qed.

(** *** A preset that is not registered *)

Lemma processFile_missing_preset t file st :
  presets t !! ConfigPreset (config t) = None ->
  processFile env t file st
  = (Some (NewTranscoderError ErrorTypeInvalidPreset
             ("preset " +:+ ConfigPreset (config t) +:+ " not found") None),
     st, []).
Proof. intros Hp. unfold processFile. now rewrite Hp. Qed.

Lemma processFileWithAnalytics_missing_preset t file csvWriter st :
  presets t !! ConfigPreset (config t) = None ->
  let r := processFileWithAnalytics env t file csvWriter st in
  succeeded (resultOf r) = false /\ invocations (eventsOf r) = [].
Proof.
  intros Hp r. subst r. unfold processFileWithAnalytics, bind, stat, readState.
  destruct (os_Stat env st file); [|split; reflexivity].
  rewrite (processFile_missing_preset _ _ _ Hp).
  unfold when, writeCsv, bind, emit, ret.
  repeat step. all: split; reflexivity.
Qed.

Lemma visits_all_fail {S} (perFile : string -> S -> option error * S * list Event) :
  (forall file st, succeeded (resultOf (perFile file st)) = false
                   /\ invocations (eventsOf (perFile file st)) = []) ->
  forall files st,
    List.length (failuresOf (visitAll perFile files st)) = List.length files
    /\ flat_map (fun v => invocations (eventsOf v)) (visitAll perFile files st) = [].
Proof.
  intros H. induction files as [|file files IH]; intros st; [split; reflexivity|].
  cbn [visitAll failuresOf flat_map List.length].
  destruct (H file st) as [Hr Hi]. destruct (IH (stateOf (perFile file st))) as [IH1 IH2].
  rewrite Hi, IH2, List.length_app. fold (failuresOf (visitAll perFile files
    (stateOf (perFile file st)))). rewrite IH1.
  destruct (resultOf (perFile file st)); [split; reflexivity|discriminate Hr].
Qed.

(** C5, as amended.  When the configured preset is not in the registry,
    [processFile] returns an [InvalidPreset] error for a file before it
    validates, probes or encodes it, and without touching the state.  The
    batch processors do not abort: they visit every file, run no [ffmpeg]
    at all, and for a non-empty list return the aggregate error (which is
    not an [InvalidPreset] error); for an empty list they return nil. *)
Theorem missing_preset_fails_every_file (t : Transcoder) (files : list string)
    (csvWriter : bool) (st : State env) :
  presets t !! ConfigPreset (config t) = None ->
  let invalid :=
    NewTranscoderError ErrorTypeInvalidPreset
      ("preset " +:+ ConfigPreset (config t) +:+ " not found") None in
  let aggregate := errorString "transcoding completed with errors" in
  let expected := match files with [] => None | _ :: _ => Some aggregate end in
  (forall file st', processFile env t file st' = (Some invalid, st', []))
  /\ (let r := ProcessFiles env t files st in
      failuresOf (visitAll (processFile env t) files st)
        = repeat invalid (List.length files)
      /\ invocations (eventsOf r) = []
      /\ stateOf r = st
      /\ resultOf r = expected)
  /\ (let r := ProcessFilesWithProgress env t files csvWriter st in
      invocations (eventsOf r) = []
      /\ progressLines (eventsOf r)
         = map (fun j => ((j + 1)%nat, List.length files)) (seq 0 (List.length files))
      /\ resultOf r = expected)
  /\ IsTranscoderError expected ErrorTypeInvalidPreset = false.
Proof.
  intros Hp invalid aggregate expected.
  assert (Hfile : forall file st', processFile env t file st' = (Some invalid, st', []))
    by (intros; now apply processFile_missing_preset).
  assert (Hvisits : forall fs, visitAll (processFile env t) fs st
                               = map (fun _ => (Some invalid, st, [])) fs).
  { induction fs as [|f fs IH]; [reflexivity|].
    cbn [visitAll map]. rewrite Hfile. cbn [stateOf fst snd]. now rewrite IH. }
  assert (Hf : failuresOf (map (fun _ : string => (Some invalid, st, [])) files)
               = repeat invalid (List.length files)).
  { clear. induction files as [|f fs IH]; [reflexivity|].
    cbn [map failuresOf flat_map resultOf fst List.length repeat app].
    fold (failuresOf (map (fun _ : string => (Some invalid, st, @nil Event)) fs)).
    now rewrite IH. }
  assert (Hexp : (if (0 <? List.length files)%nat
                  then Some (errorString "transcoding completed with errors")
                  else None)
                 = expected) by (subst expected; now destruct files).
  split; [exact Hfile|]. split; [|split].
  - intros r. subst r. rewrite Hvisits. split; [exact Hf|].
    unfold ProcessFiles, bind. rewrite processEach_spec, Hvisits, Hf. cbn [app].
    set (st' := lastState st _).
    assert (Hst : st' = st).
    { subst st'. unfold lastState. clear. induction files as [|f fs IH]; [reflexivity|].
      cbn [map]. rewrite last_cons. cbn [stateOf fst snd].
      destruct fs; [reflexivity|exact IH]. }
    rewrite Hst. clear Hst st'.
    destruct (reportErrors_spec (repeat invalid (List.length files)) st)
      as (H1 & H2 & H3 & H4).
    destruct (reportErrors env (repeat invalid (List.length files)) st)
      as [[res st2] ev2].
    cbn [resultOf stateOf eventsOf fst snd] in *.
    rewrite repeat_length in H1. rewrite invocations_app, H3, app_nil_r, H1, H2, Hexp.
    repeat split.
    clear. induction files as [|f fs IH]; [reflexivity|exact IH].
  - intros r. subst r. unfold ProcessFilesWithProgress, bind.
    destruct (processEachWithProgress_spec t csvWriter (List.length files) files 0 [] st)
      as (E1 & E2 & E3 & E4).
    destruct (visits_all_fail (fun f => processFileWithAnalytics env t f csvWriter)
                (fun file st' =>
                   processFileWithAnalytics_missing_preset t file csvWriter st' Hp)
                files st) as [Hk Hi].
    destruct (processEachWithProgress env t csvWriter (List.length files) files 0 [] st)
      as [[errors st1] ev1].
    cbn [resultOf stateOf eventsOf fst snd app] in *.
    destruct (reportErrors_spec errors st1) as (H1 & H2 & H3 & H4).
    destruct (reportErrors env errors st1) as [[res st2] ev2].
    cbn [resultOf stateOf eventsOf fst snd] in *.
    rewrite invocations_app, progressLines_app, H3, H4, !app_nil_r, E3, E4, Hi, H1.
    rewrite E1, Hk, Hexp. repeat split.
  - subst expected. now destruct files.
Qed.

End BatchFacts.

(** ** Runs on the scripted environment *)

Section ScriptedRuns.

Import Scripted.

(** Each shape of the fallback chain occurs. *)
Example run_hardware_succeeds :
  let r := processFile (env never diagnostic) (transcoder "1080p_h264" false false)
             "in.mp4" ["in.mp4"] in
  invocations (eventsOf r) = [(probeArgs "in.mp4", true); (hardwareArgs, true)]
  /\ resultOf r = None.
Proof. vm_compute. split; reflexivity. Qed.

Example run_software_fallback :
  let r := processFile (env onlyHardware diagnostic)
             (transcoder "1080p_h264" false false) "in.mp4" ["in.mp4"] in
  invocations (eventsOf r)
  = [(probeArgs "in.mp4", true); (hardwareArgs, false); (softwareArgs, true)]
  /\ resultOf r = None.
Proof. vm_compute. split; reflexivity. Qed.

Example run_software_only :
  let r := processFile (env allButProbe diagnostic)
             (transcoder "1080p_h264" true false) "in.mp4" ["in.mp4"] in
  invocations (eventsOf r) = [(probeArgs "in.mp4", true); (softwareArgs, false)]
  /\ resultOf r
     = Some (TranscoderError ErrorTypeEncodingFailed "encoding failed for in.mp4"
               (Some (errorString "exit status 1"))).
Proof. vm_compute. split; reflexivity. Qed.


(** The stderr text handed to [handleEncodingError] plays no part in it. *)
Lemma handleEncodingError_ignores_stderr e t ffmpegErr text text' input output preset :
  handleEncodingError e t ffmpegErr text input output preset
  = handleEncodingError e t ffmpegErr text' input output preset.
Proof. reflexivity. Qed.

(** C6, at a file on which the hardware, software and safe tiers all fail,
    each writing a diagnostic on its error stream: the safe tier runs with
    no buffer attached to its error stream, and the [EncodingFailed] error
    that comes back wraps the exit status only; the diagnostic text is not
    in it. *)
Theorem all_tiers_fail_without_diagnostic :
  let r := processFile (env allButProbe diagnostic)
             (transcoder "1080p_h264" false false) "in.mp4" ["in.mp4"] in
  let failure :=
    TranscoderError ErrorTypeEncodingFailed "all encoding attempts failed for in.mp4"
      (Some (errorString "exit status 1")) in
  invocations (eventsOf r)
  = [(probeArgs "in.mp4", true); (hardwareArgs, false); (softwareArgs, false);
     (safeArgs, false)]
  /\ resultOf r = Some failure
  /\ Strings.Contains (Error failure) diagnostic = false
  /\ In (Ran "ffmpeg" safeArgs false false) (eventsOf r).
Proof.
  vm_compute. split; [reflexivity|]. split; [reflexivity|]. split; [reflexivity|].
  do 5 right. left. reflexivity.
Qed.

(** The probe, next to it, does put the diagnostic in its error. *)
Example probe_failure_carries_diagnostic :
  let r := processFile (env onlyProbe diagnostic)
             (transcoder "1080p_h264" false false) "in.mp4" ["in.mp4"] in
  match resultOf r with
  | Some e => Strings.Contains (Error e) diagnostic
  | None => false
  end = true.
Proof. vm_compute. reflexivity. Qed.

(** The claim C9 as stated fails when the probe fails: the output exists,
    overwriting is disabled, and the file is an error. *)
Lemma existing_output_probe_failure :
  let e := env onlyProbe diagnostic in
  let t := transcoder "1080p_h264" false false in
  let st := ["in.mp4"; "out/in_1080p_h264.mkv"] in
  let r := processFile e t "in.mp4" st in
  Overwrite (config t) = false
  /\ outputPathOf e t h264At1080p "in.mp4" st = "out/in_1080p_h264.mkv"
  /\ isOk (os_Stat e st "out/in_1080p_h264.mkv") = true
  /\ succeeded (resultOf r) = false
  /\ invocations (eventsOf r) = [(probeArgs "in.mp4", false)].
Proof. vm_compute. repeat split. Qed.

Lemma processFile_skips_existing_output_witness :
  let e := env never diagnostic in
  let t := transcoder "1080p_h264" false false in
  let st := ["in.mp4"; "out/in_1080p_h264.mkv"] in
  let r := processFile e t "in.mp4" st in
  presets t !! ConfigPreset (config t) = Some h264At1080p
  /\ Overwrite (config t) = false
  /\ resultOf r = None
  /\ invocations (eventsOf r) = [(probeArgs "in.mp4", true)].
Proof.
  split; [vm_compute; reflexivity|]. split; [reflexivity|].
  destruct (processFile_skips_existing_output (env never diagnostic)
              (transcoder "1080p_h264" false false) "in.mp4"
              ["in.mp4"; "out/in_1080p_h264.mkv"] h264At1080p)
    as [_ H].
  - vm_compute. reflexivity.
  - reflexivity.
  - vm_compute. reflexivity.
  - destruct H as (H1 & H2 & _); [vm_compute; reflexivity | vm_compute; reflexivity|].
    split; [exact H1 | exact H2].
Defined.

(** The claim C5 as stated fails: with an unregistered preset the batch
    visits both files and returns the aggregate error, which is not an
    [InvalidPreset] error. *)
Lemma missing_preset_aggregate_error :
  let e := env never diagnostic in
  let t := transcoder "nope" false false in
  let r := ProcessFiles e t ["in.mp4"; "b.mp4"] ["in.mp4"; "b.mp4"] in
  presets t !! ConfigPreset (config t) = None
  /\ resultOf r = Some (errorString "transcoding completed with errors")
  /\ IsTranscoderError (resultOf r) ErrorTypeInvalidPreset = false
  /\ eventsOf r
     = [PrintedErrorCount 2;
        Printed "  - invalid_preset: preset nope not found";
        Printed "  - invalid_preset: preset nope not found"].
Proof. vm_compute. repeat split. Qed.

Lemma missing_preset_fails_every_file_witness :
  let e := env never diagnostic in
  let t := transcoder "nope" false false in
  presets t !! ConfigPreset (config t) = None
  /\ resultOf (ProcessFilesWithProgress e t ["in.mp4"; "b.mp4"] true ["in.mp4"; "b.mp4"])
     = Some (errorString "transcoding completed with errors")
  /\ invocations
       (eventsOf (ProcessFilesWithProgress e t ["in.mp4"; "b.mp4"] true
                    ["in.mp4"; "b.mp4"])) = [].
Proof.
  split; [vm_compute; reflexivity|].
  destruct (missing_preset_fails_every_file (env never diagnostic)
              (transcoder "nope" false false) ["in.mp4"; "b.mp4"] true
              ["in.mp4"; "b.mp4"])
    as (_ & _ & (H1 & _ & H3) & _).
  - vm_compute. reflexivity.
  - split; [exact H3 | exact H1].
Defined.

End ScriptedRuns.

(** * Further properties

    What the code does beyond the statements above: the configuration, the
    registry, the path utilities, file discovery, the system checks, the
    errors and events of one file, the analytics rows and the command-line
    layer. *)

(** ** The configuration *)

Section ConfigFacts.

Lemma isEmpty_spec s : Strings.isEmpty s = true <-> s = "".
Proof. destruct s; simpl; split; congruence. Qed.

Lemma isEmpty_false s : Strings.isEmpty s = false <-> s <> "".
Proof. destruct s; simpl; split; congruence. Qed.

(** X1. [Config.Validate] accepts a configuration exactly when validation
    is skipped or both the input path and the output directory are
    non-empty.  A rejection is an [InvalidFilePath] error and leaves the
    configuration as it was; an acceptance clamps a negative GPU index to 0,
    replaces an empty audio codec by [copy], and changes no other field. *)
Theorem Validate_outcome (c : Config) :
  let err := fst (Validate c) in
  let c' := snd (Validate c) in
  (err = None <->
     SkipValidation c = true \/ (InputPath c <> "" /\ OutputDir c <> ""))
  /\ (err <> None ->
      IsTranscoderError err ErrorTypeInvalidFilePath = true /\ c' = c)
  /\ (err = None ->
      GPUIndex c' = Z.max 0 (GPUIndex c)
      /\ AudioCodec c' <> ""
      /\ (AudioCodec c <> "" -> AudioCodec c' = AudioCodec c)
      /\ (AudioCodec c = "" -> AudioCodec c' = "copy")
      /\ (InputPath c', OutputDir c', ConfigPreset c')
         = (InputPath c, OutputDir c, ConfigPreset c)
      /\ (Verbose c', Recursive c', Overwrite c', NoGPU c', DryRun c',
          SkipValidation c')
         = (Verbose c, Recursive c, Overwrite c, NoGPU c, DryRun c,
            SkipValidation c)).
Proof.
  unfold Validate.
  destruct (SkipValidation c) eqn:Hs;
    [| destruct (Strings.isEmpty (InputPath c)) eqn:Hi;
       [| destruct (Strings.isEmpty (OutputDir c)) eqn:Ho ] ];
    cbn [fst snd];
    rewrite ?isEmpty_spec, ?isEmpty_false in *.
  all: split; [| split ].
  all: try (split; [ intros _ | intros; reflexivity ]).
  all: try (intros H; exfalso; apply H; reflexivity).
  all: try (intros _; split; reflexivity).
  all: try tauto.
  all: try (split; [ discriminate | intros [? | [? ?]]; congruence ]).
  all: try (intros H; discriminate H).
  all: intros _; cbn [GPUIndex AudioCodec InputPath OutputDir ConfigPreset Verbose
                      Recursive Overwrite NoGPU DryRun SkipValidation];
    rewrite ?Hs;
    (split; [ destruct (Z.ltb_spec (GPUIndex c) 0); lia |]);
    destruct (AudioCodec c) eqn:Ha; cbn [Strings.isEmpty];
    repeat split; congruence.
Qed.

(** X2. [Config.Validate] is idempotent on what it accepts: validating the
    configuration it has normalised succeeds again and changes nothing. *)
Theorem Validate_idempotent (c : Config) :
  fst (Validate c) = None ->
  Validate (snd (Validate c)) = (None, snd (Validate c)).
Proof.
  unfold Validate.
  assert (Hnorm : forall z : Z,
    (if ((if (z <? 0)%Z then 0%Z else z) <? 0)%Z then 0%Z
     else (if (z <? 0)%Z then 0%Z else z)) = (if (z <? 0)%Z then 0%Z else z)).
  { intros z. destruct (Z.ltb_spec z 0); [reflexivity |].
    destruct (Z.ltb_spec z 0); [lia | reflexivity]. }
  assert (Hcodec : forall s : string,
    (if Strings.isEmpty (if Strings.isEmpty s then "copy" else s)
     then "copy" else (if Strings.isEmpty s then "copy" else s))
    = (if Strings.isEmpty s then "copy" else s)).
  { intros [|? ?]; reflexivity. }
  destruct (SkipValidation c) eqn:Hs;
    [| destruct (Strings.isEmpty (InputPath c)) eqn:Hi;
       [| destruct (Strings.isEmpty (OutputDir c)) eqn:Ho ] ];
    cbn [fst snd]; try discriminate; intros _;
    cbn [GPUIndex AudioCodec InputPath OutputDir ConfigPreset Verbose
         Recursive Overwrite NoGPU DryRun SkipValidation];
    rewrite ?Hs, ?Hi, ?Ho, Hnorm, Hcodec; reflexivity.
Qed.

Lemma Validate_idempotent_witness :
  let c := {| InputPath := "in.mp4"; OutputDir := "out"; ConfigPreset := "720p_av1";
              GPUIndex := (-3)%Z; AudioCodec := ""; Verbose := false;
              Recursive := false; Overwrite := false; NoGPU := false;
              DryRun := false; SkipValidation := false |} in
  GPUIndex (snd (Validate c)) = 0%Z
  /\ AudioCodec (snd (Validate c)) = "copy"
  /\ Validate (snd (Validate c)) = (None, snd (Validate c)).
Proof.
  split; [reflexivity | split; [reflexivity |]].
  apply Validate_idempotent. reflexivity.
Defined.

End ConfigFacts.

(** ** The preset registry *)

Section RegistryFacts.

Lemma copyInto_empty (catalog : gmap string Preset) : copyInto catalog ∅ = catalog.
Proof.
  unfold copyInto.
  apply (map_fold_weak_ind (fun r m => r = m)); [reflexivity |].
  intros i x m r _ ->. reflexivity.
Qed.

Lemma GetPresets_catalog rt :
  GetPresets rt
  = match detectPlatform rt with
    | PlatformAppleSilicon => appleSiliconPresets
    | _ => nvencPresets
    end.
Proof.
  unfold GetPresets, addAppleSiliconPresets, addNVIDIAPresets.
  destruct (detectPlatform rt); apply copyInto_empty.
Qed.

Lemma detectPlatform_cases rt :
  detectPlatform rt = PlatformAppleSilicon \/ detectPlatform rt = PlatformUnknown.
Proof. unfold detectPlatform. destruct (_ && _); auto. Qed.

Lemma catalog_wellFormed rt name p :
  GetPresets rt !! name = Some p ->
  wellFormedEntry (catalogPlatform rt) (name, p) = true.
Proof.
  rewrite GetPresets_catalog. unfold catalogPlatform.
  destruct (detectPlatform_cases rt) as [-> | ->]; intros H;
    apply elem_of_list_to_map_2 in H;
    repeat (apply elem_of_cons in H as [H | H]; [injection H as -> ->; vm_compute; reflexivity |]);
    apply elem_of_nil in H; contradiction.
Qed.

(** X3. On every runtime [IsValidPreset] accepts exactly the seven preset
    names of the catalogs, whichever catalog [GetPresets] has registered. *)
Theorem IsValidPreset_names rt name :
  IsValidPreset (GetPresets rt) name = true
  <-> In name ["720p_av1"; "1080p_av1"; "720p_h264"; "1080p_h264"; "1080p_h265";
               "4k_av1"; "4k_h265"].
Proof.
  unfold IsValidPreset.
  rewrite bool_decide_eq_true, <- elem_of_dom, GetPresets_names.
  unfold nvencPresets. rewrite dom_list_to_map_L, elem_of_list_to_set.
  cbn [fmap list_fmap fst]. rewrite <- list_elem_of_In. reflexivity.
Qed.

(** X4. Every entry of the preset registry is consistent: it is stored
    under its own [Name], it is bound to the platform of the catalog that
    [GetPresets] registers on this runtime, its arguments start with [-c:v]
    and its [Encoder], its scale filter is its [Resolution] with [x] turned
    into [:], and its arguments pass its non-empty [Bitrate] after [-b:v]. *)
Theorem registry_entries_wellFormed rt name p :
  GetPresets rt !! name = Some p ->
  Name p = name
  /\ PresetPlatform p = (if bool_decide (detectPlatform rt = PlatformAppleSilicon)
                         then PlatformAppleSilicon else PlatformNVIDIA)
  /\ firstn 2 (Args p) = ["-c:v"; Encoder p]
  /\ extractScaleFilter (Args p)
     = "scale=" +:+ Strings.ReplaceAll (Resolution p) "x" ":"
  /\ passes "-b:v" (Bitrate p) (Args p) = true
  /\ Bitrate p <> "".
Proof.
  intros H. apply catalog_wellFormed in H. unfold wellFormedEntry in H.
  repeat (apply andb_true_iff in H as [H ?]).
  repeat match goal with
         | H : bool_decide _ = true |- _ => apply bool_decide_eq_true in H
         | H : String.eqb _ _ = true |- _ => apply String.eqb_eq in H
         end.
  repeat split; try assumption.
  - unfold catalogPlatform in *.
    destruct (detectPlatform_cases rt) as [E | E]; rewrite E in *; assumption.
  - destruct (Bitrate p); [discriminate | congruence].
Qed.

Lemma registry_entries_wellFormed_witness :
  Name Scripted.h264At1080p = "1080p_h264"
  /\ extractScaleFilter (Args Scripted.h264At1080p) = "scale=1920:1080".
Proof.
  pose proof (registry_entries_wellFormed Scripted.linux "1080p_h264"
                Scripted.h264At1080p) as H.
  destruct H as (Hn & _ & _ & Hs & _); [vm_compute; reflexivity |].
  split; [exact Hn | rewrite Hs; vm_compute; reflexivity].
Defined.

(** X5. [GetPresetsForPlatform] is all or nothing: for the platform of the
    registered catalog it returns the whole registry, for every other
    platform (in particular [PlatformSoftware] and [PlatformUnknown]) the
    empty map. *)
Theorem GetPresetsForPlatform_all_or_nothing rt P :
  GetPresetsForPlatform rt P
  = if bool_decide (P = catalogPlatform rt) then GetPresets rt else ∅.
Proof.
  unfold GetPresetsForPlatform. cbn zeta.
  assert (Hall : forall name p, GetPresets rt !! name = Some p ->
                                PresetPlatform p = catalogPlatform rt).
  { intros name p H. apply catalog_wellFormed in H. unfold wellFormedEntry in H.
    repeat (apply andb_true_iff in H as [H ?]).
    repeat match goal with
           | H : bool_decide _ = true |- _ => apply bool_decide_eq_true in H
           end.
    assumption. }
  destruct (bool_decide_reflect (P = catalogPlatform rt)) as [-> | Hne].
  - apply map_filter_id. intros name p H. cbn. exact (Hall _ _ H).
  - apply map_empty_filter_2. intros name p H Hp. cbn in Hp.
    apply Hne. rewrite <- Hp. exact (Hall _ _ H).
Qed.

End RegistryFacts.

(** ** Command construction *)

Section ArgumentFacts.

(** X6. The software-mode arguments keep the scale filter:
    [extractScaleFilter] reads from [convertToSoftwarePreset preset] what it
    reads from the preset's own arguments, for every preset. *)
Theorem convertToSoftwarePreset_keeps_scale (preset : Preset) :
  extractScaleFilter (convertToSoftwarePreset preset)
  = extractScaleFilter (Args preset).
Proof.
  unfold convertToSoftwarePreset, softwareProfile.
  repeat match goal with
         | |- context [if String.eqb ?a ?b then _ else _] => destruct (String.eqb a b)
         end;
    destruct (negb (Strings.isEmpty (Bitrate preset))); reflexivity.
Qed.

(** X7. A transcoder fresh from [New] on a runtime that is not Apple
    Silicon has platform [PlatformUnknown], to which no registered preset is
    bound: until a GPU check has run, the arguments [buildFFmpegArgs] builds
    in hardware mode are those of software mode, for every registered
    preset. *)
Theorem fresh_transcoder_hardware_is_software rt cfg t name preset input output :
  detectPlatform rt <> PlatformAppleSilicon ->
  New rt cfg = Some t ->
  presets t !! name = Some preset ->
  platform t = PlatformUnknown
  /\ PresetPlatform preset = PlatformNVIDIA
  /\ buildFFmpegArgs t input output preset true
     = buildFFmpegArgs t input output preset false.
Proof.
  intros Hrt Hnew Hp. unfold New in Hnew.
  destruct (Validate cfg) as [[e|] c]; [discriminate |].
  injection Hnew as <-. cbn [presets] in Hp.
  apply catalog_wellFormed in Hp. unfold wellFormedEntry in Hp.
  repeat (apply andb_true_iff in Hp as [Hp ?]).
  match goal with H : bool_decide (PresetPlatform _ = _) = true |- _ =>
    apply bool_decide_eq_true in H; rename H into Hplat end.
  unfold catalogPlatform in Hplat.
  destruct (detectPlatform_cases rt) as [E | E]; [contradiction |].
  rewrite E in Hplat.
  split; [exact E | split; [exact Hplat |]].
  unfold buildFFmpegArgs. cbn [platform config]. rewrite E, Hplat.
  reflexivity.
Qed.

Lemma fresh_transcoder_hardware_is_software_witness :
  let t := {| config := Scripted.cfg "1080p_h264" false false;
              platform := PlatformUnknown;
              fileDiscovery := NewFileDiscovery;
              presets := GetPresets Scripted.linux |} in
  detectPlatform Scripted.linux <> PlatformAppleSilicon
  /\ New Scripted.linux (Scripted.cfg "1080p_h264" false false) = Some t
  /\ buildFFmpegArgs t "in.mp4" "out.mkv" Scripted.h264At1080p true
     = buildFFmpegArgs t "in.mp4" "out.mkv" Scripted.h264At1080p false.
Proof.
  intros t.
  assert (Hrt : detectPlatform Scripted.linux <> PlatformAppleSilicon)
    by (vm_compute; discriminate).
  assert (Hnew : New Scripted.linux (Scripted.cfg "1080p_h264" false false) = Some t)
    by reflexivity.
  split; [exact Hrt | split; [exact Hnew |]].
  apply (fresh_transcoder_hardware_is_software Scripted.linux
           (Scripted.cfg "1080p_h264" false false) t "1080p_h264");
    [exact Hrt | exact Hnew | vm_compute; reflexivity].
Defined.

End ArgumentFacts.

(** ** Path utilities and the extension allowlist *)

Section PathFacts.

Import Strings Filepath.

Lemma length_append' (a b : string) :
  String.length (a +:+ b) = (String.length a + String.length b)%nat.
Proof.
  induction a as [|c a IH]; [reflexivity |].
  change (String.length (String c (a +:+ b)) = S (String.length a) + String.length b)%nat.
  cbn [String.length]. rewrite IH. reflexivity.
Qed.

Lemma sliceTo_append (a b : string) : sliceTo (String.length a) (a +:+ b) = a.
Proof.
  induction a as [|c a IH]; [destruct b; reflexivity |].
  change (sliceTo (S (String.length a)) (String c (a +:+ b)) = String c a).
  cbn [sliceTo]. rewrite IH. reflexivity.
Qed.

Lemma substring_append (a b : string) :
  String.substring (String.length a) (String.length b) (a +:+ b) = b.
Proof.
  induction a as [|c a IH].
  - change (String.substring 0 (String.length b) b = b).
    induction b as [|d b IHb]; [reflexivity |].
    cbn [String.length String.substring]. rewrite IHb. reflexivity.
  - change (String.substring (S (String.length a)) (String.length b)
              (String c (a +:+ b)) = b).
    cbn [String.substring]. exact IH.
Qed.

Lemma TrimSuffix_append (a b : string) : TrimSuffix (a +:+ b) b = a.
Proof.
  unfold TrimSuffix, HasSuffix. rewrite length_append'.
  replace (String.length a + String.length b - String.length b)%nat
    with (String.length a) by lia.
  rewrite substring_append, String.eqb_refl, sliceTo_append.
  destruct (Nat.leb_spec (String.length b) (String.length a + String.length b));
    [reflexivity | lia].
Qed.

Lemma lastElement_suffix : forall s, exists a, s = a +:+ lastElement s.
Proof.
  induction s as [|c s [a IH]]; [exists ""; reflexivity |].
  cbn [lastElement].
  destruct (hasByte slash s).
  - exists (String c a). change (String c s = String c (a +:+ lastElement s)).
    rewrite <- IH. reflexivity.
  - destruct (Ascii.eqb c slash).
    + exists (String c ""). reflexivity.
    + exists "". reflexivity.
Qed.

Lemma fromLastDot_suffix : forall s, exists a, s = a +:+ fromLastDot s.
Proof.
  induction s as [|c s [a IH]]; [exists ""; reflexivity |].
  cbn [fromLastDot].
  destruct (hasByte dot s).
  - exists (String c a). change (String c s = String c (a +:+ fromLastDot s)).
    rewrite <- IH. reflexivity.
  - destruct (Ascii.eqb c dot).
    + exists "". reflexivity.
    + exists (String c s). rewrite append_empty_r. reflexivity.
Qed.

Lemma hasByte_append k a b : hasByte k (a +:+ b) = hasByte k a || hasByte k b.
Proof.
  induction a as [|c a IH]; [reflexivity |].
  change (hasByte k (String c (a +:+ b)) = hasByte k (String c a) || hasByte k b).
  cbn [hasByte]. rewrite IH, orb_assoc. reflexivity.
Qed.

Lemma lastElement_no_slash : forall s, hasByte slash (lastElement s) = false.
Proof.
  induction s as [|c s IH]; [reflexivity |].
  cbn [lastElement]. destruct (hasByte slash s) eqn:Hs; [exact IH |].
  destruct (Ascii.eqb c slash) eqn:Hc; [exact Hs |].
  cbn [hasByte]. rewrite Hc, Hs. reflexivity.
Qed.

Lemma fromLastDot_shape : forall s,
  fromLastDot s = "" \/ exists rest, fromLastDot s = String dot rest /\ hasByte dot rest = false.
Proof.
  induction s as [|c s IH]; [left; reflexivity |].
  cbn [fromLastDot]. destruct (hasByte dot s) eqn:Hs; [exact IH |].
  destruct (Ascii.eqb_spec c dot) as [-> | _]; [| left; reflexivity].
  right. exists s. split; [reflexivity | exact Hs].
Qed.

(** X8. The split of a file name in [GenerateOutputPath] loses nothing:
    the name without its extension, followed by the extension, is the name.
    The extension [filepath.Ext] returns holds no separator, and is empty or
    starts with the only dot it holds. *)
Theorem Ext_TrimSuffix_roundtrip (filename : string) :
  TrimSuffix filename (Ext filename) +:+ Ext filename = filename
  /\ hasByte slash (Ext filename) = false
  /\ (Ext filename = ""
      \/ exists rest, Ext filename = String dot rest /\ hasByte dot rest = false).
Proof.
  unfold Ext.
  destruct (lastElement_suffix filename) as [a Ha].
  destruct (fromLastDot_suffix (lastElement filename)) as [b Hb].
  split; [| split].
  - assert (E : filename = (a +:+ b) +:+ fromLastDot (lastElement filename)).
    { rewrite append_assoc', <- Hb. exact Ha. }
    rewrite E at 1. rewrite TrimSuffix_append. symmetry. exact E.
  - pose proof (lastElement_no_slash filename) as H.
    rewrite Hb, hasByte_append in H. apply orb_false_iff in H. tauto.
  - apply fromLastDot_shape.
Qed.

Lemma hasByte_allChars k : forall s, hasByte k s = negb (allChars (isNot k) s).
Proof.
  induction s as [|c s IH]; [reflexivity |].
  cbn [hasByte allChars]. rewrite IH. unfold isNot.
  destruct (Ascii.eqb c k); reflexivity.
Qed.

Lemma Contains_byte_iff k : forall s,
  Contains s (String k EmptyString) = hasByte k s.
Proof.
  induction s as [|c s IH]; [reflexivity |].
  rewrite Contains_cons, HasPrefix_byte, IH. reflexivity.
Qed.

Lemma TrimRight_no_cut k : forall s,
  hasByte k s = false -> TrimRight s (String k EmptyString) = s.
Proof.
  induction s as [|c s IH]; [reflexivity |].
  cbn [hasByte]. intros H. apply orb_false_iff in H as [Hc Hs].
  cbn [TrimRight inCutset]. rewrite (IH Hs), Hc, orb_false_r, andb_false_r.
  reflexivity.
Qed.

Lemma lastElement_id : forall s, hasByte slash s = false -> lastElement s = s.
Proof.
  destruct s as [|c s]; [reflexivity |].
  cbn [hasByte lastElement]. intros H. apply orb_false_iff in H as [Hc Hs].
  rewrite Hs, Hc. reflexivity.
Qed.

Lemma Base_plain s :
  s <> "" -> hasByte slash s = false -> Base s = s.
Proof.
  intros Hne Hs. unfold Base.
  destruct s as [|c s]; [congruence |]. cbn [Strings.isEmpty].
  change "/" with (String slash "").
  rewrite (TrimRight_no_cut slash _ Hs), (lastElement_id _ Hs). reflexivity.
Qed.

Lemma rejectProblematic_none filename : forall chars,
  (forall ch, In ch chars -> Contains filename ch = false) ->
  rejectProblematic filename chars = None.
Proof.
  induction chars as [|ch chars IH]; [reflexivity |].
  intros H. cbn [rejectProblematic].
  rewrite (H ch (or_introl eq_refl)). apply IH. intros; apply H; right; assumption.
Qed.

Lemma reserved_absent y :
  (forall e, In e problematicChars -> Contains y (fst e) = false) ->
  forall ch, In ch reservedBytes -> Contains y ch = false.
Proof.
  intros H ch Hch. unfold reservedBytes in Hch.
  apply (in_map_iff fst problematicChars ch) in Hch as [e [<- He]].
  exact (H e He).
Qed.

(** X9. [ValidateFilePath] accepts every name that [SanitizeFilename]
    returns, for every iteration order of the replacement map. *)
Theorem ValidateFilePath_accepts_sanitized order filename :
  iterationOrder order = true ->
  ValidateFilePath (SanitizeFilenameIn order filename) = None.
Proof.
  intros Ho.
  destruct (SanitizeFilenameIn_shape order filename Ho) as (Hkeys & _ & Hlen & _).
  set (y := SanitizeFilenameIn order filename) in *.
  pose proof (reserved_absent y Hkeys) as Hres.
  unfold ValidateFilePath.
  destruct (Nat.ltb_spec 260 (String.length y)); [reflexivity |].
  destruct y as [|c y'] eqn:Ey; [reflexivity |]. rewrite <- Ey in *.
  assert (Hslash : hasByte slash y = false).
  { rewrite <- Contains_byte_iff. apply Hres. unfold reservedBytes. simpl. tauto. }
  rewrite Base_plain; [| rewrite Ey; discriminate | exact Hslash].
  apply rejectProblematic_none. intros ch Hch. apply Hres.
  unfold problematicCharsToReject in Hch. unfold reservedBytes.
  simpl in *. tauto.
Qed.

Lemma ValidateFilePath_accepts_sanitized_witness :
  iterationOrder (rev problematicChars) = true
  /\ IsTranscoderError (ValidateFilePath "a<b>c.mp4") ErrorTypeInvalidFilePath = true
  /\ ValidateFilePath (SanitizeFilenameIn (rev problematicChars) "a<b>c.mp4") = None.
Proof.
  split; [reflexivity | split; [reflexivity |]].
  apply ValidateFilePath_accepts_sanitized. reflexivity.
Defined.

Lemma prefix_length : forall a b,
  String.prefix a b = true -> (String.length a <= String.length b)%nat.
Proof.
  induction a as [|c a IH]; intros [|d b] H; cbn [String.length]; try lia.
  - discriminate H.
  - apply prefix_cons in H as [_ H]. specialize (IH _ H). lia.
Qed.

Lemma replaceFrom_length old new :
  (String.length new <= String.length old)%nat ->
  forall s skip,
    (String.length (replaceFrom old new skip s) + Nat.min skip (String.length s)
     <= String.length s)%nat.
Proof.
  intros Hlen. induction s as [|c s IH]; intros skip; [cbn; lia |].
  cbn [replaceFrom]. destruct skip as [|k].
  - destruct (HasPrefix (String c s) old) eqn:Hp.
    + apply prefix_length in Hp. cbn [String.length] in *.
      rewrite length_append'. specialize (IH (String.length old - 1)%nat). lia.
    + cbn [String.length]. specialize (IH 0%nat). lia.
  - cbn [String.length]. specialize (IH k). lia.
Qed.

Lemma ReplaceAll_length s old new :
  (String.length new <= String.length old)%nat ->
  (String.length (ReplaceAll s old new) <= String.length s)%nat.
Proof.
  intros H. pose proof (replaceFrom_length old new H s 0). unfold ReplaceAll. lia.
Qed.

Lemma fold_length (order : list (string * string)) :
  (forall e, In e order -> (String.length (snd e) <= String.length (fst e))%nat) ->
  forall s, (String.length (fold_left replaceStep order s) <= String.length s)%nat.
Proof.
  induction order as [|e order IH]; intros H s; [cbn; lia |].
  cbn [fold_left].
  etransitivity; [apply IH; intros; apply H; right; assumption |].
  apply ReplaceAll_length. apply H. left. reflexivity.
Qed.

Lemma sliceTo_shorter : forall n s, (String.length (sliceTo n s) <= String.length s)%nat.
Proof.
  induction n as [|n IH]; intros [|c s]; cbn [sliceTo String.length]; try lia.
  specialize (IH s). lia.
Qed.

Lemma TrimRight_drops_last cut k : forall a,
  inCutset k cut = true ->
  TrimRight (a +:+ String k EmptyString) cut = TrimRight a cut.
Proof.
  intros a Hk. induction a as [|c a IH].
  - change (TrimRight (String k EmptyString) cut = EmptyString).
    cbn [TrimRight Strings.isEmpty]. rewrite Hk. reflexivity.
  - change (TrimRight (String c (a +:+ String k EmptyString)) cut
            = TrimRight (String c a) cut).
    cbn [TrimRight]. rewrite IH. reflexivity.
Qed.

Lemma TrimRight_fixed_end cut s :
  TrimRight s cut = s ->
  forall stem k, s = stem +:+ String k EmptyString -> inCutset k cut = false.
Proof.
  intros Hfix stem k ->. destruct (inCutset k cut) eqn:Hk; [| reflexivity].
  rewrite (TrimRight_drops_last cut k stem Hk) in Hfix.
  pose proof (TrimRight_length cut stem) as Hlen.
  rewrite Hfix, length_append' in Hlen. cbn [String.length] in Hlen. lia.
Qed.

(** X10. What [SanitizeFilename] returns: at most 180 bytes and never more
    than the input, none of the nine reserved characters, no two adjacent
    dots, and no dot or space at the end. *)
Theorem SanitizeFilename_result_safe order filename :
  iterationOrder order = true ->
  let cleaned := SanitizeFilenameIn order filename in
  (String.length cleaned <= 180)%nat
  /\ (String.length cleaned <= String.length filename)%nat
  /\ (forall ch, In ch reservedBytes -> Contains cleaned ch = false)
  /\ Contains cleaned ".." = false
  /\ (forall stem, cleaned <> stem +:+ "." /\ cleaned <> stem +:+ " ").
Proof.
  intros Ho cleaned.
  destruct (SanitizeFilenameIn_shape order filename Ho) as (Hkeys & Hdots & Hlen & Htrim).
  fold cleaned in Hkeys, Hdots, Hlen, Htrim.
  split; [exact Hlen | split; [| split; [| split; [exact Hdots |]]]].
  - unfold cleaned, SanitizeFilenameIn.
    etransitivity; [apply TrimRight_length |].
    set (a := fold_left replaceStep order filename).
    assert (Ha : (String.length a <= String.length filename)%nat).
    { apply fold_length. intros e He.
      apply (proj2 (iterationOrder_incl order Ho)) in He.
      cbn in He.
      repeat (destruct He as [<- | He]; [cbn; lia |]). contradiction. }
    assert (Hb : (String.length (ReplaceAll (ReplaceAll a ".." "_") "..." "_")
                  <= String.length a)%nat).
    { etransitivity; [apply ReplaceAll_length; cbn; lia |].
      apply ReplaceAll_length; cbn; lia. }
    destruct (_ <? _)%nat; [etransitivity; [apply sliceTo_shorter |] |]; lia.
  - exact (reserved_absent cleaned Hkeys).
  - intros stem. split; intros E;
      pose proof (TrimRight_fixed_end ". " cleaned Htrim stem _ E) as H;
      discriminate H.
Qed.

Lemma SanitizeFilename_result_safe_witness :
  iterationOrder problematicChars = true
  /\ SanitizeFilenameIn problematicChars "..\clip: take?/2. " = "__clip take_2"
  /\ (String.length (SanitizeFilenameIn problematicChars "..\clip: take?/2. ")
      <= String.length "..\clip: take?/2. ")%nat.
Proof.
  split; [reflexivity | split; [reflexivity |]].
  apply (SanitizeFilename_result_safe problematicChars "..\clip: take?/2. ").
  reflexivity.
Defined.

(** X11. The names [SanitizeFilename] leaves unchanged are exactly the
    names of at most 180 bytes that hold no reserved character and no two
    adjacent dots and do not end in a dot or a space. *)
Theorem SanitizeFilename_fixed_points order filename :
  iterationOrder order = true ->
  SanitizeFilenameIn order filename = filename
  <-> (String.length filename <= 180)%nat
      /\ forallb (fun ch => negb (Contains filename ch)) reservedBytes = true
      /\ Contains filename ".." = false
      /\ TrimRight filename ". " = filename.
Proof.
  intros Ho. split.
  - intros E.
    destruct (SanitizeFilenameIn_shape order filename Ho) as (Hkeys & Hdots & Hlen & Htrim).
    rewrite E in *.
    repeat split; try assumption.
    apply forallb_forall. intros ch Hch.
    rewrite (reserved_absent filename Hkeys ch Hch). reflexivity.
  - intros (Hlen & Hres & Hdots & Htrim).
    rewrite forallb_forall in Hres.
    unfold SanitizeFilenameIn.
    rewrite fold_absent.
    + rewrite (ReplaceAll_absent ".." "_" filename Hdots).
      rewrite ReplaceAll_absent.
      * destruct (Nat.ltb_spec 180 (String.length filename)); [lia | exact Htrim].
      * destruct (Contains filename "...") eqn:E; [| reflexivity].
        rewrite <- Hdots. symmetry.
        apply (Contains_shorter ".." "..."); [reflexivity | exact E].
    + intros e He. apply (proj2 (iterationOrder_incl order Ho)) in He.
      apply negb_true_iff. apply Hres. unfold reservedBytes.
      apply (in_map fst) in He. exact He.
Qed.

Lemma SanitizeFilename_fixed_points_witness :
  iterationOrder (rev problematicChars) = true
  /\ SanitizeFilenameIn (rev problematicChars) "My Holiday (2019).final" = "My Holiday (2019).final".
Proof.
  split; [reflexivity |].
  apply (SanitizeFilename_fixed_points (rev problematicChars)); [reflexivity |].
  repeat split; [cbn; lia | reflexivity ..].
Defined.

(** X12. [isVideoFile] of the file discovery that [NewFileDiscovery]
    builds holds exactly when the extension of the path, lowered by
    [strings.ToLower] with the Unicode tables of the environment, is one of
    the twelve listed extensions.  For an extension of ASCII bytes the tables
    play no part: it holds exactly when the extension with its letters A to Z
    lowered is in the list. *)
Theorem isVideoFile_iff_allowlisted env filename :
  let allowed :=
    [".mp4"; ".mkv"; ".avi"; ".mov"; ".wmv"; ".flv"; ".webm"; ".m4v";
     ".3gp"; ".ts"; ".mts"; ".m2ts"] in
  (isVideoFile env NewFileDiscovery filename = true
   <-> In (ToLower (strings_MapToLower env) (Ext filename)) allowed)
  /\ (allChars (fun c => (nat_of_ascii c <? 128)%nat) (Ext filename) = true ->
      (isVideoFile env NewFileDiscovery filename = true
       <-> In (lowerBytes (Ext filename)) allowed)).
Proof.
  intros allowed.
  assert (H : isVideoFile env NewFileDiscovery filename = true
              <-> In (ToLower (strings_MapToLower env) (Ext filename)) allowed).
  { split.
    - intros H. apply list_elem_of_In. apply isVideoFile_allowlist. exact H.
    - unfold isVideoFile. cbn zeta. intros H.
      repeat (destruct H as [<- | H]; [vm_compute; reflexivity |]). contradiction. }
  split; [exact H |].
  intros Hascii. rewrite <- (ToLower_ascii (strings_MapToLower env) _ Hascii). exact H.
Qed.

End PathFacts.

(** ** File discovery *)

Section DiscoveryMore.

Context (env : Env).

Lemma filter_snoc {A} (p : A -> bool) l x :
  List.filter p (l ++ [x]) = List.filter p l ++ (if p x then [x] else []).
Proof. rewrite List.filter_app. reflexivity. Qed.

Lemma walkFiles_spec f : forall visits files,
  walkFiles env f visits files
  = (files ++ map fst (List.filter (fun v => negb (IsDir (snd v)) && isVideoFile env f (fst v))
                         (visitedBeforeError visits)),
     firstWalkError visits).
Proof.
  induction visits as [|[path [info | err]] rest IH]; intros files;
    cbn [walkFiles visitedBeforeError firstWalkError List.filter map fst snd].
  - rewrite app_nil_r. reflexivity.
  - destruct (negb (IsDir info) && isVideoFile env f path); rewrite IH;
      cbn [map fst]; rewrite <- ?app_assoc; reflexivity.
  - rewrite app_nil_r. reflexivity.
Qed.

Lemma listFiles_spec f inputPath : forall entries files,
  listFiles env f inputPath entries files
  = files ++ List.filter (isVideoFile env f)
               (map (fun entry => filepath_Join env [inputPath; EntryName entry])
                  (List.filter (fun entry => negb (EntryIsDir entry)) entries)).
Proof.
  induction entries as [|entry rest IH]; intros files;
    cbn [listFiles List.filter map].
  - rewrite app_nil_r. reflexivity.
  - destruct (negb (EntryIsDir entry)); cbn [map List.filter]; [| apply IH].
    destruct (isVideoFile env f _); rewrite IH; rewrite <- ?app_assoc; reflexivity.
Qed.

(** X13. Every path that [FindVideoFiles] returns passes [isVideoFile], in
    both modes and whatever the file system holds, also when it returns an
    error beside the paths. *)
Theorem FindVideoFiles_returns_only_videos f inputPath recursive st :
  Forall (fun path => isVideoFile env f path = true)
    (fst (FindVideoFiles env f inputPath recursive st)).
Proof.
  unfold FindVideoFiles.
  destruct (os_Stat env st inputPath) as [info | err]; [| constructor].
  destruct (IsDir info); [destruct recursive |].
  - rewrite walkFiles_spec. cbn [fst app].
    apply List.Forall_forall. intros path Hin.
    apply in_map_iff in Hin as [[p i] [<- Hin]].
    apply List.filter_In in Hin as [_ Hin]. cbn [fst snd] in *.
    apply andb_true_iff in Hin. tauto.
  - destruct (os_ReadDir env st inputPath) as [entries | err]; [| constructor].
    rewrite listFiles_spec. cbn [fst app].
    apply List.Forall_forall. intros path Hin.
    apply List.filter_In in Hin. tauto.
  - destruct (isVideoFile env f inputPath) eqn:E; cbn [fst app]; repeat constructor.
    exact E.
Qed.

(** X14. Without recursion, [FindVideoFiles] on a directory returns, in
    the order of [os.ReadDir], the joined paths of the entries that are not
    directories and pass [isVideoFile], and no error: a directory whose name
    looks like a video is left out. *)
Theorem FindVideoFiles_flat_listing f inputPath st info entries :
  os_Stat env st inputPath = inl info ->
  IsDir info = true ->
  os_ReadDir env st inputPath = inl entries ->
  FindVideoFiles env f inputPath false st
  = (List.filter (isVideoFile env f)
       (map (fun entry => filepath_Join env [inputPath; EntryName entry])
          (List.filter (fun entry => negb (EntryIsDir entry)) entries)),
     None).
Proof.
  intros Hs Hd Hr. unfold FindVideoFiles. rewrite Hs, Hd, Hr, listFiles_spec.
  reflexivity.
Qed.

(** X15. With recursion, [FindVideoFiles] on a directory returns the video
    files among the visits of the walk before the first visit that carries an
    error, together with that error: the files found before a failure are
    returned beside it. *)
Theorem FindVideoFiles_recursive_walk f inputPath st info :
  os_Stat env st inputPath = inl info ->
  IsDir info = true ->
  let visits := filepath_Walk env st inputPath in
  FindVideoFiles env f inputPath true st
  = (map fst (List.filter (fun v => negb (IsDir (snd v)) && isVideoFile env f (fst v))
                (visitedBeforeError visits)),
     firstWalkError visits).
Proof.
  intros Hs Hd visits. unfold FindVideoFiles. rewrite Hs, Hd, walkFiles_spec.
  reflexivity.
Qed.

Lemma firstWalkError_In : forall visits err,
  firstWalkError visits = Some err -> exists path, In (path, inr err) visits.
Proof.
  induction visits as [|[path [info | e]] rest IH]; intros err H;
    cbn [firstWalkError] in H; [discriminate | |].
  - destruct (IH err H) as [p Hp]. exists p. right. exact Hp.
  - injection H as ->. exists path. left. reflexivity.
Qed.

(** X16. The errors of [FindVideoFiles]: an error of [os.Stat] or
    [os.ReadDir] is wrapped in a [FileSystemError] that keeps it as its
    cause, and comes with no path; the only other error is, in recursive
    mode, an error the walk was handed, returned as it is. *)
Theorem FindVideoFiles_error_kinds f inputPath recursive st err :
  snd (FindVideoFiles env f inputPath recursive st) = Some err ->
  (IsTranscoderError (Some err) ErrorTypeFileSystemError = true
   /\ fst (FindVideoFiles env f inputPath recursive st) = []
   /\ exists cause, Unwrap err = Some cause
        /\ (os_Stat env st inputPath = inr cause
            \/ os_ReadDir env st inputPath = inr cause))
  \/ (recursive = true
      /\ exists path, In (path, inr err) (filepath_Walk env st inputPath)).
Proof.
  unfold FindVideoFiles.
  destruct (os_Stat env st inputPath) as [info | cause] eqn:Hs.
  - destruct (IsDir info); [destruct recursive |].
    + rewrite walkFiles_spec. cbn [snd]. intros H. right.
      split; [reflexivity | exact (firstWalkError_In _ _ H)].
    + destruct (os_ReadDir env st inputPath) as [entries | cause] eqn:Hr;
        cbn [fst snd]; [discriminate |].
      intros H. injection H as <-. left.
      split; [reflexivity | split; [reflexivity |]].
      exists cause. split; [reflexivity | right; reflexivity].
    + destruct (isVideoFile env f inputPath); cbn [snd]; discriminate.
  - cbn [fst snd]. intros H. injection H as <-. left.
    split; [reflexivity | split; [reflexivity |]].
    exists cause. split; [reflexivity | left; reflexivity].
Qed.

End DiscoveryMore.

Lemma FindVideoFiles_flat_listing_witness :
  FindVideoFiles ScriptedTree.env NewFileDiscovery "videos" false tt
  = (["videos/B.MKV"; "videos/a.mp4"], None).
Proof.
  rewrite (FindVideoFiles_flat_listing ScriptedTree.env NewFileDiscovery "videos" tt
             ScriptedTree.directory
             [ {| EntryName := "B.MKV"; EntryIsDir := false |};
               {| EntryName := "a.mp4"; EntryIsDir := false |};
               {| EntryName := "clips.mp4"; EntryIsDir := true |};
               {| EntryName := "notes.txt"; EntryIsDir := false |} ]);
    reflexivity.
Defined.

Lemma FindVideoFiles_recursive_walk_witness :
  FindVideoFiles ScriptedTree.env NewFileDiscovery "videos" true tt
  = (["videos/B.MKV"; "videos/a.mp4"; "videos/clips.mp4/c.webm"],
     Some (errorString "open videos/locked: permission denied")).
Proof.
  rewrite (FindVideoFiles_recursive_walk ScriptedTree.env NewFileDiscovery "videos" tt
             ScriptedTree.directory); reflexivity.
Defined.

Lemma FindVideoFiles_error_kinds_witness :
  snd (FindVideoFiles ScriptedTree.env NewFileDiscovery "videos" true tt)
    = Some (errorString "open videos/locked: permission denied")
  /\ IsTranscoderError
       (snd (FindVideoFiles ScriptedTree.env NewFileDiscovery "videos" true tt))
       ErrorTypeFileSystemError = false
  /\ IsTranscoderError
       (snd (FindVideoFiles ScriptedTree.env NewFileDiscovery "missing" true tt))
       ErrorTypeFileSystemError = true.
Proof.
  pose proof (FindVideoFiles_error_kinds ScriptedTree.env NewFileDiscovery "missing" true tt
                _ eq_refl) as H.
  split; [reflexivity | split; [reflexivity |]].
  destruct H as [[H _] | [_ [path H]]]; [exact H |].
  reflexivity.
Defined.

(** ** The system checks *)

Lemma Validate_codec cfg c :
  Validate cfg = (None, c) -> Strings.isEmpty (AudioCodec c) = false.
Proof.
  unfold Validate.
  destruct (SkipValidation cfg);
    [| destruct (Strings.isEmpty (InputPath cfg));
       [| destruct (Strings.isEmpty (OutputDir cfg)) ] ];
    intros H; try discriminate H; injection H as <-; cbn [AudioCodec];
    destruct (AudioCodec cfg); reflexivity.
Qed.

Section SystemFacts.

Context {X : Type} (executor : CommandExecutor X).

Lemma checkEncoders_error s : forall encoders x err,
  fst (checkEncoders executor s encoders x) = Some err ->
  IsTranscoderError (Some err) ErrorTypeGPUNotAvailable = true.
Proof.
  induction encoders as [|encoder rest IH]; intros x err; cbn [checkEncoders fst].
  - discriminate.
  - unfold CheckEncoderAvailability.
    destruct (Execute executor "ffmpeg" ["-encoders"] x) as [[out | e] x1].
    + destruct (negb (Strings.Contains out encoder)); cbn [fst].
      * intros H. injection H as <-. reflexivity.
      * apply IH.
    + cbn [fst]. intros H. injection H as <-. reflexivity.
Qed.

Lemma checkNVIDIAAvailability_cases s gpuIndex verbose x :
  let r := checkNVIDIAAvailability executor s gpuIndex verbose x in
  (fst (fst r) <> None ->
   IsTranscoderError (fst (fst r)) ErrorTypeGPUNotAvailable = true)
  /\ match fst (fst r) with
     | None => checkerPlatform (snd (fst r)) = PlatformNVIDIA
     | Some _ => checkerPlatform (snd (fst r)) = PlatformSoftware \/ snd (fst r) = s
     end.
Proof.
  unfold checkNVIDIAAvailability.
  destruct (Execute executor "nvidia-smi" ["-L"] x) as [[out | e] x1]; cbn [fst snd].
  - destruct (countGPUs out =? 0)%nat; cbn [fst snd];
      [split; [reflexivity | left; reflexivity] |].
    destruct (Z.of_nat (countGPUs out) <=? gpuIndex)%Z; cbn [fst snd].
    + split; [reflexivity | right; reflexivity].
    + split; [congruence | reflexivity].
  - split; [reflexivity | left; reflexivity].
Qed.

Lemma checkAppleSiliconAvailability_error s verbose x :
  let r := checkAppleSiliconAvailability executor s verbose x in
  fst r <> None -> IsTranscoderError (fst r) ErrorTypeGPUNotAvailable = true.
Proof.
  unfold checkAppleSiliconAvailability.
  destruct (checkEncoders executor s ["h264_videotoolbox"; "hevc_videotoolbox"] x)
    as [[err |] x1] eqn:He.
  - cbn [fst]. intros _.
    apply (checkEncoders_error s ["h264_videotoolbox"; "hevc_videotoolbox"] x).
    rewrite He. reflexivity.
  - destruct verbose.
    + destruct (Execute executor "system_profiler" ["SPHardwareDataType"] x1) as [out x2].
      destruct (Strings.Contains _ "Apple"); cbn [fst]; congruence.
    + cbn [fst]. congruence.
Qed.

Lemma CheckGPUAvailability_cases s gpuIndex verbose x :
  let r := CheckGPUAvailability executor s gpuIndex verbose x in
  (fst (fst r) <> None ->
   IsTranscoderError (fst (fst r)) ErrorTypeGPUNotAvailable = true)
  /\ (checkerPlatform s = PlatformAppleSilicon -> snd (fst r) = s)
  /\ (checkerPlatform s <> PlatformAppleSilicon ->
      match fst (fst r) with
      | None => checkerPlatform (snd (fst r)) = PlatformNVIDIA
      | Some _ => checkerPlatform (snd (fst r)) = PlatformSoftware \/ snd (fst r) = s
      end).
Proof.
  unfold CheckGPUAvailability.
  pose proof (checkNVIDIAAvailability_cases s gpuIndex verbose x) as Hnv.
  pose proof (checkAppleSiliconAvailability_error s verbose x) as Happle.
  cbn zeta in *.
  destruct (checkerPlatform s) eqn:Hp.
  1, 2, 4: destruct Hnv as [H1 H2];
    split; [exact H1 | split; [discriminate | intros _; exact H2]].
  destruct (checkAppleSiliconAvailability executor s verbose x) as [err x1].
  cbn [fst snd] in *. split; [exact Happle | split; [reflexivity | congruence]].
Qed.

(** X17. [CheckGPUAvailability]: every error is a [GPUNotAvailable] error.
    On Apple Silicon the checker's platform never changes.  On every other
    platform a success sets the platform to [PlatformNVIDIA]; a failure sets
    it to [PlatformSoftware], or leaves the checker as it was, which is what
    happens when GPUs are listed but the requested index is not among
    them. *)
Theorem CheckGPUAvailability_outcome s gpuIndex verbose x :
  let r := CheckGPUAvailability executor s gpuIndex verbose x in
  let err := fst (fst r) in
  let s' := snd (fst r) in
  (err <> None -> IsTranscoderError err ErrorTypeGPUNotAvailable = true)
  /\ (checkerPlatform s = PlatformAppleSilicon -> s' = s)
  /\ (checkerPlatform s <> PlatformAppleSilicon ->
      (err = None -> checkerPlatform s' = PlatformNVIDIA)
      /\ (err <> None -> checkerPlatform s' = PlatformSoftware \/ s' = s))
  /\ (forall out,
        checkerPlatform s <> PlatformAppleSilicon ->
        fst (Execute executor "nvidia-smi" ["-L"] x) = inl out ->
        (0 < countGPUs out)%nat ->
        (Z.of_nat (countGPUs out) <= gpuIndex)%Z ->
        err <> None /\ s' = s).
Proof.
  intros r err s'. subst r err s'.
  destruct (CheckGPUAvailability_cases s gpuIndex verbose x) as (Hk & Ha & Hn).
  cbn zeta in *.
  split; [exact Hk | split; [exact Ha | split]].
  - intros Hp. specialize (Hn Hp).
    destruct (fst (fst (CheckGPUAvailability executor s gpuIndex verbose x)));
      split; congruence.
  - intros out Hp Hout Hpos Hidx. unfold CheckGPUAvailability.
    assert (E : checkNVIDIAAvailability executor s gpuIndex verbose x
                = (Some (NewTranscoderError ErrorTypeGPUNotAvailable
                           "GPU index not available" None), s,
                   snd (Execute executor "nvidia-smi" ["-L"] x))).
    { unfold checkNVIDIAAvailability.
      destruct (Execute executor "nvidia-smi" ["-L"] x) as [o x1].
      cbn [fst snd] in *. subst o.
      destruct (Nat.eqb_spec (countGPUs out) 0); [lia |].
      destruct (Z.leb_spec (Z.of_nat (countGPUs out)) gpuIndex); [reflexivity | lia]. }
    destruct (checkerPlatform s); try contradiction; rewrite E; cbn [fst snd];
      split; congruence.
Qed.

(** X18. [checkNVIDIAAvailability] succeeds exactly when [nvidia-smi -L]
    runs and prints at least one line that mentions a GPU, and the requested
    index is below the number of such lines. *)
Theorem checkNVIDIAAvailability_accepts_iff s gpuIndex verbose x :
  fst (fst (checkNVIDIAAvailability executor s gpuIndex verbose x)) = None
  <-> exists output,
        fst (Execute executor "nvidia-smi" ["-L"] x) = inl output
        /\ (0 < countGPUs output)%nat
        /\ (gpuIndex < Z.of_nat (countGPUs output))%Z.
Proof.
  unfold checkNVIDIAAvailability.
  destruct (Execute executor "nvidia-smi" ["-L"] x) as [[out | e] x1]; cbn [fst snd].
  - destruct (Nat.eqb_spec (countGPUs out) 0) as [E | E]; cbn [fst].
    + split; [discriminate |]. intros (o & Ho & Hc & _). injection Ho as <-. lia.
    + destruct (Z.leb_spec (Z.of_nat (countGPUs out)) gpuIndex); cbn [fst].
      * split; [discriminate |]. intros (o & Ho & _ & Hc). injection Ho as <-. lia.
      * split; [| reflexivity]. intros _. exists out. repeat split; lia.
  - split; [discriminate |]. intros (o & Ho & _). discriminate Ho.
Qed.

(** X19. After a successful GPU check of a transcoder built by [New], the
    hardware-mode arguments of every registered preset are the banner flags,
    [-hwaccel] with [videotoolbox] on Apple Silicon and [auto] elsewhere, the
    input, the preset's own arguments unchanged, the audio flags and
    [-y] with the output path. *)
Theorem checked_transcoder_hardware_args rt cfg t t' x x' name preset input output :
  New rt cfg = Some t ->
  Transcoder_CheckGPUAvailability executor t x = (None, t', x') ->
  presets t' !! name = Some preset ->
  buildFFmpegArgs t' input output preset true
  = ["-hide_banner"; "-loglevel"; "warning"; "-hwaccel";
     (if bool_decide (detectPlatform rt = PlatformAppleSilicon)
      then "videotoolbox" else "auto");
     "-i"; input]
    ++ Args preset
    ++ (if String.eqb (AudioCodec (config t')) "copy" then ["-c:a"; "copy"]
        else ["-c:a"; AudioCodec (config t'); "-b:a"; "128k"])
    ++ ["-y"; output].
Proof.
  intros Hnew Hcheck Hp. unfold New in Hnew.
  destruct (Validate cfg) as [[e|] c] eqn:Hv; [discriminate |].
  injection Hnew as <-.
  unfold Transcoder_CheckGPUAvailability in Hcheck. cbn [platform config presets fileDiscovery] in Hcheck.
  pose proof (CheckGPUAvailability_cases {| checkerPlatform := detectPlatform rt |}
                (GPUIndex c) (Verbose c) x) as (_ & Happle & Hother).
  destruct (CheckGPUAvailability executor _ (GPUIndex c) (Verbose c) x) as [[err s'] x1].
  cbn [fst snd checkerPlatform] in *.
  injection Hcheck as -> <- <-. cbn [presets] in Hp.
  apply catalog_wellFormed in Hp. unfold wellFormedEntry in Hp.
  repeat (apply andb_true_iff in Hp as [Hp ?]).
  match goal with H : bool_decide (PresetPlatform _ = _) = true |- _ =>
    apply bool_decide_eq_true in H; rename H into Hplat end.
  unfold catalogPlatform in Hplat.
  assert (Hcodec : Strings.isEmpty (AudioCodec c) = false).
  { exact (Validate_codec cfg c Hv). }
  unfold buildFFmpegArgs. cbn [platform config]. rewrite Hcodec. cbn [orb].
  destruct (detectPlatform_cases rt) as [E | E]; rewrite E in *.
  - rewrite (Happle eq_refl). cbn [checkerPlatform]. rewrite Hplat.
    rewrite bool_decide_eq_true_2 by reflexivity. cbn [andb orb].
    destruct (String.eqb (AudioCodec c) "copy"); rewrite <- !app_assoc; reflexivity.
  - rewrite (Hother ltac:(discriminate)). rewrite Hplat.
    rewrite bool_decide_eq_true_2 by reflexivity. cbn [andb orb].
    rewrite bool_decide_eq_false_2 by discriminate.
    destruct (String.eqb (AudioCodec c) "copy"); rewrite <- !app_assoc; reflexivity.
Qed.

End SystemFacts.

(** ** One file: errors and order of events *)

Ltac observe' :=
  cbn [eventsOf resultOf stateOf fst snd app invocations progressLines flat_map
       csvRows directoriesMade String.eqb Ascii.eqb Bool.eqb succeeded negb].

Section ProcessFileMore.

Context (env : Env).

Lemma HasPrefix_append (prefix rest : string) :
  Strings.HasPrefix (prefix +:+ rest) prefix = true.
Proof.
  unfold Strings.HasPrefix. induction prefix as [|c p IH].
  - destruct rest; reflexivity.
  - change (String.prefix (String c p) (String c (p +:+ rest)) = true).
    apply prefix_cons. auto.
Qed.

(** X20. The errors of [processFile].  A [TranscoderError] it returns is an
    [InvalidPreset] without cause, exactly when the configured preset is not
    registered, or a [FileSystemError] or [EncodingFailed] with a cause.
    Every other error is a plain text that starts with [invalid file path: ]
    or [input file validation failed: ]: a rejected path or a failed probe
    never surfaces as a typed error. *)
Theorem processFile_error_kinds (t : Transcoder) (inputPath : string) (st : State env) :
  match resultOf (processFile env t inputPath st) with
  | None => True
  | Some (errorString text) =>
      Strings.HasPrefix text "invalid file path: " = true
      \/ Strings.HasPrefix text "input file validation failed: " = true
  | Some (TranscoderError kind _ cause) =>
      (kind = ErrorTypeInvalidPreset /\ cause = None
       /\ presets t !! ConfigPreset (config t) = None)
      \/ ((kind = ErrorTypeFileSystemError \/ kind = ErrorTypeEncodingFailed)
          /\ cause <> None)
  end
  /\ (presets t !! ConfigPreset (config t) = None ->
      IsTranscoderError (resultOf (processFile env t inputPath st))
        ErrorTypeInvalidPreset = true).
Proof.
  split; [| intros H; rewrite (processFile_missing_preset env t inputPath st H);
            reflexivity].
  unfold processFile.
  destruct (presets t !! ConfigPreset (config t)) as [preset|] eqn:Hp;
    [| cbn; left; auto].
  unfold_run. unfold NewTranscoderError. rewrite !SanitizeWindowsPath_pure.
  set (input := sanitizedPath env inputPath st).
  destruct (exec_Run env "ffmpeg" (probeArgs input) st) as [probe st1] eqn:Hprobe.
  repeat (rewrite ?Hprobe; step).
  all: observe'.
  all: first
    [ exact I
    | left; apply HasPrefix_append
    | right; apply HasPrefix_append
    | right; split; [left; reflexivity | discriminate]
    | right; split; [right; reflexivity | discriminate] ].
Qed.

(** X21. A failed probe ends [processFile] at once: the error is the plain
    text that wraps the [EncodingFailed] error of the probe, which holds the
    error of the command and what it wrote on its error stream; the probe is
    the only command that ran, no directory was asked for, and the state is
    the one the probe left. *)
Theorem processFile_probe_failure (t : Transcoder) (inputPath : string)
    (st : State env) (preset : Preset) (err : error) :
  let input := sanitizedPath env inputPath st in
  let probe := exec_Run env "ffmpeg" (probeArgs input) st in
  let r := processFile env t inputPath st in
  presets t !! ConfigPreset (config t) = Some preset ->
  ValidateFilePath input = None ->
  runErr (fst probe) = Some err ->
  resultOf r
  = Some (errorString
            ("input file validation failed: "
             +:+ Error (NewTranscoderError ErrorTypeEncodingFailed
                          "input file probe failed"
                          (Some (errorString
                                   (Error err +:+ newline +:+ "FFmpeg output: "
                                    +:+ runStderr (fst probe)))))))
  /\ invocations (eventsOf r) = [(probeArgs input, false)]
  /\ directoriesMade (eventsOf r) = []
  /\ stateOf r = snd probe.
Proof.
  intros input probe r Hp Hv He. subst r probe.
  unfold processFile. rewrite Hp.
  unfold_run. rewrite !SanitizeWindowsPath_pure. fold input. rewrite Hv.
  destruct (exec_Run env "ffmpeg" (probeArgs input) st) as [probe st1] eqn:Hprobe.
  cbn [fst snd] in *.
  destruct (Verbose (config t)); cbn [when];
    repeat (cbn beta iota zeta; cbn [fst snd runErr runStderr]; rewrite ?Hprobe, ?He);
    observe'; repeat split; reflexivity.
Qed.

(** X22. [processFile] asks for the output directory before it encodes:
    in every run that reaches an encoding attempt, the events hold exactly
    one directory request, it succeeded, and the only command before it is
    the successful probe. *)
Theorem processFile_directory_before_encoding (t : Transcoder) (inputPath : string)
    (st : State env) :
  let r := processFile env t inputPath st in
  (2 <= List.length (invocations (eventsOf r)))%nat ->
  exists before dir after,
    eventsOf r = before ++ MadeDir dir true :: after
    /\ invocations before = [(probeArgs (sanitizedPath env inputPath st), true)]
    /\ directoriesMade before = []
    /\ directoriesMade after = [].
Proof.
  intros r. subst r. unfold processFile.
  destruct (presets t !! ConfigPreset (config t)) as [preset|] eqn:Hp;
    [| cbn; lia].
  unfold_run. unfold NewTranscoderError. rewrite !SanitizeWindowsPath_pure.
  set (input := sanitizedPath env inputPath st).
  destruct (exec_Run env "ffmpeg" (probeArgs input) st) as [probe st1] eqn:Hprobe.
  repeat (rewrite ?Hprobe; step).
  all: observe'.
  all: intros Hlen; try (cbn in Hlen; lia).
  all: first
    [ eexists [_], _, _; split; [reflexivity | repeat split; reflexivity]
    | eexists [_; _], _, _; split; [reflexivity | repeat split; reflexivity] ].
Qed.

End ProcessFileMore.

(** ** The batch: analytics rows and unused settings *)

Section BatchMore.

Context (env : Env).

Lemma csvRows_app a b : csvRows (a ++ b) = csvRows a ++ csvRows b.
Proof. apply flat_map_app. Qed.

Lemma processFile_no_rows t inputPath st :
  csvRows (eventsOf (processFile env t inputPath st)) = [].
Proof.
  unfold processFile.
  destruct (presets t !! ConfigPreset (config t)) as [preset|] eqn:Hp;
    [| reflexivity].
  unfold_run. unfold NewTranscoderError. rewrite !SanitizeWindowsPath_pure.
  set (input := sanitizedPath env inputPath st).
  destruct (exec_Run env "ffmpeg" (probeArgs input) st) as [probe st1] eqn:Hprobe.
  repeat (rewrite ?Hprobe; step).
  all: reflexivity.
Qed.

Lemma printErrors_no_rows errors st :
  csvRows (eventsOf (printErrors env errors st)) = [].
Proof.
  rewrite printErrors_spec. cbn [eventsOf snd].
  induction errors as [|e errors IH]; [reflexivity | exact IH].
Qed.

Lemma reportErrors_no_rows errors st :
  csvRows (eventsOf (reportErrors env errors st)) = [].
Proof.
  unfold reportErrors. destruct (0 <? List.length errors)%nat; [| reflexivity].
  unfold bind, emit, ret. rewrite printErrors_spec. cbn [eventsOf snd].
  rewrite app_nil_r. cbn [app csvRows flat_map].
  induction errors as [|e errors IH]; [reflexivity | exact IH].
Qed.

Lemma processFileWithAnalytics_rows t inputPath csvWriter st :
  let r := processFileWithAnalytics env t inputPath csvWriter st in
  match os_Stat env st inputPath with
  | inr err =>
      r = (Some (NewTranscoderError ErrorTypeFileSystemError
                   "failed to get input file info" (Some err)), st, [])
  | inl _ =>
      resultOf r = resultOf (processFile env t inputPath st)
      /\ csvRows (eventsOf r)
         = if csvWriter
           then [(Filepath.Base inputPath, ConfigPreset (config t),
                  if succeeded (resultOf r) then "success" else "error")]
           else []
  end.
Proof.
  unfold processFileWithAnalytics, stat, readState, bind.
  destruct (os_Stat env st inputPath) as [info | err]; [| reflexivity].
  pose proof (processFile_no_rows t inputPath st) as Hrows.
  destruct (processFile env t inputPath st) as [[err st1] events].
  cbn [eventsOf snd] in Hrows.
  destruct csvWriter; cbn [when]; unfold writeCsv, emit, ret.
  - destruct (csv_Write env _ st1) as [[werr|] st2];
      destruct err; cbn [resultOf eventsOf fst snd app succeeded];
      rewrite ?csvRows_app, ?app_nil_r, Hrows; split; reflexivity.
  - cbn [resultOf eventsOf fst snd app]. rewrite ?app_nil_r, Hrows.
    split; reflexivity.
Qed.

Lemma processEachWithProgress_rows t csvWriter total files : forall i errors st,
  csvRows (eventsOf (processEachWithProgress env t csvWriter total files i errors st))
  = flat_map (fun v => csvRows (eventsOf v))
      (visitAll (fun f => processFileWithAnalytics env t f csvWriter) files st).
Proof.
  induction files as [|file rest IH]; intros i errors st; [reflexivity |].
  cbn [processEachWithProgress visitAll flat_map]. unfold bind, emit.
  destruct (processFileWithAnalytics env t file csvWriter st) as [[err st1] ev] eqn:E.
  cbn [stateOf fst snd eventsOf].
  specialize (IH (S i) (match err with Some e => errors ++ [e] | None => errors end) st1).
  destruct (processEachWithProgress env t csvWriter total rest (S i) _ st1)
    as [[errs st2] ev2].
  cbn [eventsOf snd app] in *. rewrite csvRows_app. cbn [csvRows flat_map app].
  fold (csvRows ev2). rewrite IH. reflexivity.
Qed.

(** X24. The analytics rows of [ProcessFilesWithProgress]: the rows written
    are those of the visited files in order, at most one per file and none
    without a writer.  A file gets its row exactly when a writer is given and
    [os.Stat] of the input succeeds; the row holds the base name, the preset
    name, and [success] or [error] according to the error that is
    returned. *)
Theorem analytics_rows (t : Transcoder) (files : list string) (csvWriter : bool)
    (st : State env) :
  let visits :=
    visitAll (fun f => processFileWithAnalytics env t f csvWriter) files st in
  let r := ProcessFilesWithProgress env t files csvWriter st in
  csvRows (eventsOf r) = flat_map (fun v => csvRows (eventsOf v)) visits
  /\ (List.length (csvRows (eventsOf r)) <= List.length files)%nat
  /\ (csvWriter = false -> csvRows (eventsOf r) = [])
  /\ (forall file st',
        let v := processFileWithAnalytics env t file csvWriter st' in
        csvRows (eventsOf v)
        = if csvWriter && isOk (os_Stat env st' file)
          then [(Filepath.Base file, ConfigPreset (config t),
                 if succeeded (resultOf v) then "success" else "error")]
          else []).
Proof.
  intros visits r.
  assert (Hfile : forall file st',
        let v := processFileWithAnalytics env t file csvWriter st' in
        csvRows (eventsOf v)
        = if csvWriter && isOk (os_Stat env st' file)
          then [(Filepath.Base file, ConfigPreset (config t),
                 if succeeded (resultOf v) then "success" else "error")]
          else []).
  { intros file st' v. subst v.
    pose proof (processFileWithAnalytics_rows t file csvWriter st') as H.
    cbn zeta in H. destruct (os_Stat env st' file); cbn [isOk].
    - destruct H as [_ H]. rewrite H. destruct csvWriter; reflexivity.
    - rewrite H. rewrite andb_false_r. reflexivity. }
  assert (Hrows : csvRows (eventsOf r) = flat_map (fun v => csvRows (eventsOf v)) visits).
  { subst r visits. unfold ProcessFilesWithProgress, bind. cbn zeta.
    pose proof (processEachWithProgress_rows t csvWriter (List.length files) files 0 [] st)
      as H.
    destruct (processEachWithProgress env t csvWriter (List.length files) files 0 [] st)
      as [[errs st1] ev].
    pose proof (reportErrors_no_rows errs st1) as H'.
    destruct (reportErrors env errs st1) as [[res st2] ev2].
    cbn [eventsOf snd] in *. rewrite csvRows_app, H, H', app_nil_r. reflexivity. }
  assert (Hbound : forall fs s,
    (List.length (flat_map (fun v => csvRows (eventsOf v))
       (visitAll (fun f => processFileWithAnalytics env t f csvWriter) fs s))
     <= List.length fs)%nat
    /\ (csvWriter = false ->
        flat_map (fun v => csvRows (eventsOf v))
          (visitAll (fun f => processFileWithAnalytics env t f csvWriter) fs s) = [])).
  { induction fs as [|f fs IH]; intros s; [split; [cbn; lia | reflexivity] |].
    cbn [visitAll flat_map]. rewrite List.length_app, (Hfile f s).
    destruct (IH (stateOf (processFileWithAnalytics env t f csvWriter s))) as [IH1 IH2].
    split.
    - destruct (csvWriter && _); cbn [List.length] in *; lia.
    - intros ->. rewrite (IH2 eq_refl). reflexivity. }
  split; [exact Hrows | rewrite Hrows].
  split; [apply Hbound | split; [apply Hbound | exact Hfile]].
Qed.

Lemma processFile_unused (t t' : Transcoder) file st :
  platform t' = platform t ->
  presets t' = presets t ->
  (InputPath (config t'), OutputDir (config t'), ConfigPreset (config t'),
   AudioCodec (config t'))
  = (InputPath (config t), OutputDir (config t), ConfigPreset (config t),
     AudioCodec (config t)) ->
  (Verbose (config t'), Overwrite (config t'), NoGPU (config t'))
  = (Verbose (config t), Overwrite (config t), NoGPU (config t)) ->
  processFile env t' file st = processFile env t file st.
Proof.
  intros Hpl Hpr Hs Hb. injection Hs as Hi Ho Hc Ha. injection Hb as Hv Hw Hn.
  unfold processFile, handleEncodingError, buildFFmpegArgs.
  rewrite Hpl, Hpr, Hi, Ho, Hc, Ha, Hv, Hw, Hn. reflexivity.
Qed.

Lemma processEach_ext (t t' : Transcoder) :
  (forall file st, processFile env t' file st = processFile env t file st) ->
  forall files errors st,
    processEach env t' files errors st = processEach env t files errors st.
Proof.
  intros H. induction files as [|file rest IH]; intros errors st; [reflexivity |].
  cbn [processEach]. unfold bind. rewrite H.
  destruct (processFile env t file st) as [[err st1] ev]. rewrite IH. reflexivity.
Qed.

Lemma processFileWithAnalytics_ext (t t' : Transcoder) csvWriter :
  (forall file st, processFile env t' file st = processFile env t file st) ->
  ConfigPreset (config t') = ConfigPreset (config t) ->
  forall file st,
    processFileWithAnalytics env t' file csvWriter st
    = processFileWithAnalytics env t file csvWriter st.
Proof.
  intros H Hc file st. unfold processFileWithAnalytics, bind.
  destruct (stat env file st) as [[[info | e] st0] ev0]; [| reflexivity].
  rewrite H, Hc. reflexivity.
Qed.

Lemma processEachWithProgress_ext (t t' : Transcoder) csvWriter total :
  (forall file st, processFile env t' file st = processFile env t file st) ->
  ConfigPreset (config t') = ConfigPreset (config t) ->
  forall files i errors st,
    processEachWithProgress env t' csvWriter total files i errors st
    = processEachWithProgress env t csvWriter total files i errors st.
Proof.
  intros H Hc. induction files as [|file rest IH]; intros i errors st; [reflexivity |].
  cbn [processEachWithProgress]. unfold bind.
  rewrite (processFileWithAnalytics_ext t t' csvWriter H Hc).
  destruct (processFileWithAnalytics env t file csvWriter st) as [[err st1] ev].
  destruct (emit _ st1) as [[u st2] ev2]. rewrite IH. reflexivity.
Qed.

(** X23. [DryRun], [GPUIndex], [Recursive] and [SkipValidation] are never
    consulted while files are processed: both batch loops do the same, event
    for event, whatever these four settings are.  In particular a dry run
    transcodes. *)
Theorem batch_ignores_unused_settings (t : Transcoder) (gpuIndex : Z)
    (recursive dryRun skipValidation : bool) (files : list string) (csvWriter : bool)
    (st : State env) :
  let t' :=
    {| config :=
         {| InputPath := InputPath (config t); OutputDir := OutputDir (config t);
            ConfigPreset := ConfigPreset (config t); GPUIndex := gpuIndex;
            AudioCodec := AudioCodec (config t); Verbose := Verbose (config t);
            Recursive := recursive; Overwrite := Overwrite (config t);
            NoGPU := NoGPU (config t); DryRun := dryRun;
            SkipValidation := skipValidation |};
       platform := platform t; fileDiscovery := fileDiscovery t;
       presets := presets t |} in
  ProcessFiles env t' files st = ProcessFiles env t files st
  /\ ProcessFilesWithProgress env t' files csvWriter st
     = ProcessFilesWithProgress env t files csvWriter st.
Proof.
  intros t'.
  assert (H : forall file s, processFile env t' file s = processFile env t file s).
  { intros file s. apply processFile_unused; reflexivity. }
  split.
  - unfold ProcessFiles, bind. rewrite (processEach_ext t t' H). reflexivity.
  - unfold ProcessFilesWithProgress, bind. cbn zeta.
    rewrite (processEachWithProgress_ext t t' csvWriter _ H eq_refl). reflexivity.
Qed.

End BatchMore.

(** ** The command-line layer *)

Ltac unfold_cmd :=
  unfold Cmd.quietly, stat, mkdirAll, readState, when, emit, ret, bind.

Section CommandFacts.

Context (env : Env) (host : Host env).

Lemma reportEncoders_lines t : forall encoders st,
  exists lines,
    eventsOf (Cmd.reportEncoders env host t encoders st) = map Printed lines
    /\ List.length lines = List.length encoders
    /\ resultOf (Cmd.reportEncoders env host t encoders st) = tt.
Proof.
  induction encoders as [|encoder rest IH]; intros st.
  - exists []. repeat split.
  - cbn [Cmd.reportEncoders]. unfold_cmd.
    destruct (CheckEncoderAvailability _ _ encoder st) as [[available err] st1].
    destruct (IH st1) as (lines & Hl & Hn & Hu).
    destruct err as [err|], available; cbn beta iota zeta;
      destruct (Cmd.reportEncoders env host t rest st1) as [[u st2] ev];
      cbn [eventsOf resultOf fst snd app] in *; subst ev;
      eexists (_ :: lines); cbn [map List.length]; rewrite Hn;
      (split; [reflexivity | split; [reflexivity | destruct u; reflexivity]]).
Qed.

(** X30. The check command always returns nil and prints seven lines: two
    of heading, one for FFmpeg, one for hardware acceleration and three for
    the encoders.  The FFmpeg line shows the error of the FFmpeg check or
    [FFmpeg: Available].  The hardware line shows the error of the GPU
    check, a [GPUNotAvailable] error, when it fails; after a successful
    check it is the Apple Silicon line on Apple Silicon and
    [Hardware Acceleration: Available] everywhere else: the platform is read
    from a fresh system checker, so the NVIDIA line is never printed. *)
Theorem checkCmd_report (rt : Runtime) (st : State env) :
  let r := Cmd.checkCmd env host rt st in
  let checker := {| checkerPlatform := detectPlatform rt |} in
  let ffmpeg := CheckFFmpegAvailability (RealCommandExecutor env host) checker st in
  let gpu :=
    CheckGPUAvailability (RealCommandExecutor env host) checker 0 false (snd ffmpeg) in
  resultOf r = Cmd.Returned None
  /\ exists ffmpegLine hardwareLine encoderLines,
       eventsOf r
       = map Printed ([ "System Check Results:"; "===================="; ffmpegLine;
                        hardwareLine ] ++ encoderLines)
       /\ List.length encoderLines = 3%nat
       /\ ((hardwareLine = "Hardware Acceleration: Apple Silicon VideoToolbox detected"
            /\ detectPlatform rt = PlatformAppleSilicon)
           \/ (hardwareLine = "Hardware Acceleration: Available"
               /\ detectPlatform rt <> PlatformAppleSilicon)
           \/ exists err,
                hardwareLine = "Hardware Acceleration: " +:+ Error err
                /\ IsTranscoderError (Some err) ErrorTypeGPUNotAvailable = true)
       /\ ffmpegLine
          = match fst ffmpeg with
            | Some err => "FFmpeg: " +:+ Error err
            | None => "FFmpeg: Available"
            end
       /\ hardwareLine
          = match fst (fst gpu) with
            | Some err => "Hardware Acceleration: " +:+ Error err
            | None =>
                if bool_decide (detectPlatform rt = PlatformAppleSilicon)
                then "Hardware Acceleration: Apple Silicon VideoToolbox detected"
                else "Hardware Acceleration: Available"
            end.
Proof.
  intros r checker ffmpeg gpu. subst r gpu ffmpeg checker. unfold Cmd.checkCmd.
  change (New rt _)
    with (Some {| config :=
                    {| InputPath := EmptyString; OutputDir := EmptyString;
                       ConfigPreset := EmptyString; GPUIndex := 0; AudioCodec := "copy";
                       Verbose := false; Recursive := false; Overwrite := false;
                       NoGPU := false; DryRun := false; SkipValidation := true |};
                  platform := detectPlatform rt;
                  fileDiscovery := NewFileDiscovery;
                  presets := GetPresets rt |}).
  cbn beta iota zeta. unfold_cmd. cbn beta iota zeta. cbn [platform].
  destruct (CheckFFmpegAvailability _ _ st) as [ffmpegErr st1].
  cbn [fst snd].
  unfold Transcoder_CheckGPUAvailability.
  cbn [platform config GPUIndex Verbose fileDiscovery presets].
  pose proof (CheckGPUAvailability_cases (RealCommandExecutor env host)
                {| checkerPlatform := detectPlatform rt |} 0 false st1) as (Hk & _).
  cbn zeta in Hk.
  unfold NewSystemChecker, GetPlatform. cbn [checkerPlatform].
  set (encoders := match detectPlatform rt with
                   | PlatformAppleSilicon =>
                       ["h264_videotoolbox"; "hevc_videotoolbox"; "libsvtav1"]
                   | _ => ["h264_nvenc"; "hevc_nvenc"; "av1_nvenc"]
                   end).
  assert (Hthree : List.length encoders = 3%nat)
    by (subst encoders; destruct (detectPlatform rt); reflexivity).
  clearbody encoders.
  destruct ffmpegErr as [fe|]; cbn beta iota zeta.
  all: destruct (CheckGPUAvailability _ _ 0 false st1) as [[gpuErr s'] st2];
    cbn [fst snd] in *; cbn beta iota zeta.
  all: destruct gpuErr as [ge|]; cbn beta iota zeta.
  all: try (destruct (detectPlatform_cases rt) as [E | E]; rewrite E; cbn beta iota zeta).
  all: match goal with
       | |- context [Cmd.reportEncoders _ _ ?t ?es ?s] =>
           destruct (reportEncoders_lines t es s) as (lines & Hl & Hn & Hu);
           destruct (Cmd.reportEncoders env host t es s) as [[u st3] ev]
       end.
  all: cbn [eventsOf resultOf fst snd app] in *; subst ev; rewrite ?app_nil_r.
  all: split; [reflexivity |].
  all: do 3 eexists; cbn [map app];
    split; [reflexivity | split; [congruence |]].
  all: (split; [| split; reflexivity]).
  all: first
    [ right; right; eexists; split; [reflexivity | apply Hk; discriminate]
    | left; split; reflexivity
    | right; left; split; [reflexivity | discriminate] ].
Qed.

End CommandFacts.

Ltac cmd_step :=
  cbn beta iota zeta; cbn [fst snd resultOf stateOf eventsOf];
  match goal with
  | |- context [match ?x with _ => _ end] =>
      lazymatch x with
      | context [match _ with _ => _ end] => fail
      | _ => destruct x eqn:?
      end
  end.

Section RunTranscodeFacts.

Context (env : Env) (host : Host env).

Lemma ProcessFilesWithProgress_summary t files csvWriter st :
  let r := ProcessFilesWithProgress env t files csvWriter st in
  (resultOf r = None
   \/ resultOf r = Some (errorString "transcoding completed with errors"))
  /\ progressLines (eventsOf r)
     = map (fun j => ((j + 1)%nat, List.length files)) (seq 0 (List.length files)).
Proof.
  unfold ProcessFilesWithProgress, bind. cbn zeta.
  pose proof (processEachWithProgress_spec env t csvWriter (List.length files) files
                0 [] st) as H.
  cbn zeta in H. destruct H as (_ & _ & _ & Hprog).
  destruct (processEachWithProgress env t csvWriter (List.length files) files 0 [] st)
    as [[errors st1] ev].
  pose proof (reportErrors_spec env errors st1) as H. cbn zeta in H.
  destruct H as (Hres & _ & _ & Hprog').
  destruct (reportErrors env errors st1) as [[res st2] ev2].
  cbn [resultOf eventsOf fst snd] in *. rewrite progressLines_app, Hprog, Hprog', app_nil_r.
  split; [| reflexivity].
  rewrite Hres. destruct (0 <? List.length errors)%nat; auto.
Qed.

Lemma Transcoder_CheckGPUAvailability_error {X} (executor : CommandExecutor X) t x err t' x' :
  Transcoder_CheckGPUAvailability executor t x = (Some err, t', x') ->
  IsTranscoderError (Some err) ErrorTypeGPUNotAvailable = true.
Proof.
  unfold Transcoder_CheckGPUAvailability.
  pose proof (CheckGPUAvailability_cases executor {| checkerPlatform := platform t |}
                (GPUIndex (config t)) (Verbose (config t)) x) as (Hk & _).
  destruct (CheckGPUAvailability executor _ _ _ x) as [[e s'] x1].
  cbn [fst snd] in Hk. intros H. injection H as -> _ _. apply Hk. discriminate.
Qed.

Lemma New_flags rt (f : Cmd.Flags) cfg :
  Strings.isEmpty (InputPath cfg) = false ->
  Strings.isEmpty (OutputDir cfg) = false ->
  New rt cfg <> None.
Proof.
  intros Hi Ho. unfold New, Validate. rewrite Hi, Ho.
  destruct (SkipValidation cfg); discriminate.
Qed.

(** X25. [runTranscode] never panics: whenever it reaches [New], the
    configuration it has built passes [Validate]. *)
Theorem runTranscode_never_panics rt presetNames (f : Cmd.Flags) (st : State env) :
  exists err, resultOf (Cmd.runTranscode env host rt presetNames f st) = Cmd.Returned err.
Proof.
  unfold Cmd.runTranscode. unfold_cmd.
  repeat cmd_step.
  all: try (eexists; reflexivity).
  all: match goal with
       | H : New _ _ = None |- _ => exfalso; revert H; apply (New_flags rt f); assumption
       end.
Qed.

(** X26. The only [TranscoderError] that [runTranscode] returns is the
    [GPUNotAvailable] error of the GPU check, with hardware mode on, and it
    is returned right after the check: the output directory has been
    created, the two lines about the failure are printed and nothing else
    has happened, and the state is the one the commands of the check left.
    No file has been looked for or processed.  Every other failure is
    returned as a plain text. *)
Theorem runTranscode_typed_error rt presetNames (f : Cmd.Flags) (st : State env)
    kind message cause :
  let r := Cmd.runTranscode env host rt presetNames f st in
  let failure := TranscoderError kind message cause in
  resultOf r = Cmd.Returned (Some failure) ->
  kind = ErrorTypeGPUNotAvailable
  /\ Cmd.noGPU f = false
  /\ exists t made,
       New rt {| InputPath := Cmd.inputFile f; OutputDir := Cmd.outputDir f;
                 ConfigPreset := Cmd.preset f; GPUIndex := Cmd.gpuIndex f;
                 AudioCodec := Cmd.audioCodec f; Verbose := Cmd.verbose f;
                 Recursive := Cmd.recursive f; Overwrite := Cmd.overwrite f;
                 NoGPU := Cmd.noGPU f; DryRun := Cmd.dryRun f;
                 SkipValidation := false |} = Some t
       /\ os_MkdirAll env (Cmd.outputDir f) st = (None, made)
       /\ (let check :=
             Transcoder_CheckGPUAvailability (RealCommandExecutor env host) t made in
           fst (fst check) = Some failure
           /\ stateOf r = snd check)
       /\ eventsOf r
          = [ MadeDir (Cmd.outputDir f) true;
              Printed ("GPU check failed: " +:+ Error failure);
              Printed "Consider using --no-gpu flag for software encoding" ].
Proof.
  intros r failure. subst r failure. unfold Cmd.runTranscode. unfold_cmd.
  repeat cmd_step.
  all: observe'.
  all: intros Hres; try discriminate Hres.
  all: try match goal with
       | H : ProcessFilesWithProgress ?e ?t ?fs ?c ?s = _ |- _ =>
           exfalso;
           pose proof (ProcessFilesWithProgress_summary t fs c s) as [[Hs | Hs] _];
           rewrite H in Hs; cbn [resultOf fst] in Hs; congruence
       end.
  all: injection Hres as ->.
  all: match goal with
       | H : Transcoder_CheckGPUAvailability _ _ _ = _ |- _ =>
           pose proof (Transcoder_CheckGPUAvailability_error _ _ _ _ _ _ H) as Hk;
           cbn [IsTranscoderError] in Hk; apply bool_decide_eq_true in Hk
       end.
  all: match goal with H : negb (Cmd.noGPU _) = true |- _ =>
         apply negb_true_iff in H end.
  all: split; [assumption | split; [assumption |]].
  all: do 2 eexists; split; [reflexivity | split; [reflexivity |]].
  all: match goal with
       | H : Transcoder_CheckGPUAvailability _ _ _ = _ |- _ => rewrite H
       end.
  all: cbn [fst snd]; repeat split; reflexivity.
Qed.


Lemma ProcessFilesWithProgress_unused (t t' : Transcoder) files csvWriter st :
  platform t' = platform t ->
  presets t' = presets t ->
  (InputPath (config t'), OutputDir (config t'), ConfigPreset (config t'),
   AudioCodec (config t'))
  = (InputPath (config t), OutputDir (config t), ConfigPreset (config t),
     AudioCodec (config t)) ->
  (Verbose (config t'), Overwrite (config t'), NoGPU (config t'))
  = (Verbose (config t), Overwrite (config t), NoGPU (config t)) ->
  ProcessFilesWithProgress env t' files csvWriter st
  = ProcessFilesWithProgress env t files csvWriter st.
Proof.
  intros Hpl Hpr Hs Hb.
  unfold ProcessFilesWithProgress, bind. cbn zeta.
  rewrite (processEachWithProgress_ext env t t' csvWriter (List.length files)).
  - reflexivity.
  - intros file s. apply processFile_unused; assumption.
  - congruence.
Qed.

(** X28. The flag [dryRun] has no effect on [runTranscode]: the result, the
    final state and the events are the same whatever its value. *)
Theorem runTranscode_ignores_dry_run rt presetNames (f : Cmd.Flags) (flag : bool)
    (st : State env) :
  let f' :=
    {| Cmd.recursive := Cmd.recursive f; Cmd.outputDir := Cmd.outputDir f;
       Cmd.preset := Cmd.preset f; Cmd.inputFile := Cmd.inputFile f;
       Cmd.overwrite := Cmd.overwrite f; Cmd.verbose := Cmd.verbose f;
       Cmd.dryRun := flag; Cmd.gpuIndex := Cmd.gpuIndex f; Cmd.noGPU := Cmd.noGPU f;
       Cmd.audioCodec := Cmd.audioCodec f; Cmd.csvOutput := Cmd.csvOutput f |} in
  Cmd.runTranscode env host rt presetNames f' st
  = Cmd.runTranscode env host rt presetNames f st.
Proof.
  intros f'. subst f'. unfold Cmd.runTranscode.
  cbn [Cmd.recursive Cmd.outputDir Cmd.preset Cmd.inputFile Cmd.overwrite Cmd.verbose
       Cmd.dryRun Cmd.gpuIndex Cmd.noGPU Cmd.audioCodec Cmd.csvOutput].
  destruct (Strings.isEmpty (Cmd.inputFile f)) eqn:Hi; [reflexivity |].
  destruct (Strings.isEmpty (Cmd.outputDir f)) eqn:Ho; [reflexivity |].
  unfold New, Validate.
  cbn [SkipValidation InputPath OutputDir ConfigPreset GPUIndex AudioCodec Verbose
       Recursive Overwrite NoGPU DryRun].
  rewrite Hi, Ho. unfold Transcoder_CheckGPUAvailability.
  cbn [config platform fileDiscovery presets
       SkipValidation InputPath OutputDir ConfigPreset GPUIndex AudioCodec Verbose
       Recursive Overwrite NoGPU DryRun].
  unfold_cmd.
  repeat (cbn [config platform fileDiscovery presets
               SkipValidation InputPath OutputDir ConfigPreset GPUIndex AudioCodec
               Verbose Recursive Overwrite NoGPU DryRun];
          cmd_step).
  all: try reflexivity.
  all: repeat match goal with
       | H : ProcessFilesWithProgress _ ?t1 ?fs ?c ?s = _,
         H' : ProcessFilesWithProgress _ ?t2 ?fs ?c ?s = _ |- _ =>
           rewrite (ProcessFilesWithProgress_unused t2 t1 fs c s) in H
             by reflexivity;
           rewrite H' in H; injection H as <- <- <-
       end.
  all: try reflexivity.
Qed.

(** X29. When [runTranscode] returns nil, the preset is registered, the
    output directory was created first, at least one video file was found
    and announced, and a progress line was printed for each of them, from
    1 to the number found. *)
Theorem runTranscode_success rt presetNames (f : Cmd.Flags) (st : State env) :
  let r := Cmd.runTranscode env host rt presetNames f st in
  resultOf r = Cmd.Returned None ->
  IsValidPreset (GetPresets rt) (Cmd.preset f) = true
  /\ (exists rest, directoriesMade (eventsOf r) = (Cmd.outputDir f, true) :: rest)
  /\ exists total,
       (0 < total)%nat
       /\ progressLines (eventsOf r)
          = map (fun j => ((j + 1)%nat, total)) (seq 0 total)
       /\ In (Printed ("Found " +:+ pretty.pretty total +:+ " video file(s) to process"))
            (eventsOf r).
Proof.
  intros r. subst r. unfold Cmd.runTranscode. unfold_cmd.
  repeat cmd_step.
  all: observe'.
  all: intros Hres; try discriminate Hres.
  all: try match goal with
       | H : Transcoder_CheckGPUAvailability _ _ _ = _ |- _ => clear H
       end.
  all: match goal with
       | H : ProcessFilesWithProgress ?e ?t ?fs ?c ?s = (_, _, ?ev) |- _ =>
           pose proof (ProcessFilesWithProgress_summary t fs c s) as [_ Hprog];
           rewrite H in Hprog; cbn [eventsOf snd] in Hprog
       end.
  all: match goal with H : negb (IsValidPreset _ _) = false |- _ =>
         apply negb_false_iff in H end.
  all: match goal with H : (List.length ?l =? 0)%nat = false |- _ =>
         apply Nat.eqb_neq in H end.
  all: split; [assumption |].
  all: rewrite ?app_nil_r.
  all: split; [eexists; reflexivity |].
  all: eexists; split; [| split; [exact Hprog |]]; [lia | right; left; reflexivity].
Qed.

End RunTranscodeFacts.

(** ** The properties above on the scripted machines *)

Lemma checked_transcoder_hardware_args_witness :
  let gpus := {| shouldFail := false; output := ScriptedHost.oneGPU |} in
  let cfg := Scripted.cfg "1080p_h264" false false in
  let fresh := {| config := cfg; platform := PlatformUnknown;
                  fileDiscovery := NewFileDiscovery;
                  presets := GetPresets Scripted.linux |} in
  let t := Scripted.transcoder "1080p_h264" false false in
  New Scripted.linux cfg = Some fresh
  /\ Transcoder_CheckGPUAvailability mockExecutor fresh gpus = (None, t, gpus)
  /\ buildFFmpegArgs t "in.mp4" "out/in_1080p_h264.mkv" Scripted.h264At1080p true
     = Scripted.hardwareArgs.
Proof.
  intros gpus cfg fresh t.
  assert (Hnew : New Scripted.linux cfg = Some fresh) by reflexivity.
  assert (Hcheck : Transcoder_CheckGPUAvailability mockExecutor fresh gpus = (None, t, gpus))
    by reflexivity.
  split; [exact Hnew | split; [exact Hcheck |]].
  rewrite (checked_transcoder_hardware_args mockExecutor Scripted.linux cfg fresh t
             gpus gpus "1080p_h264" Scripted.h264At1080p "in.mp4"
             "out/in_1080p_h264.mkv" Hnew Hcheck);
    [reflexivity | vm_compute; reflexivity].
Defined.

Lemma processFile_probe_failure_witness :
  let e := Scripted.env Scripted.onlyProbe Scripted.diagnostic in
  let t := Scripted.transcoder "1080p_h264" false false in
  let r := processFile e t "in.mp4" ["in.mp4"] in
  presets t !! ConfigPreset (config t) = Some Scripted.h264At1080p
  /\ ValidateFilePath "in.mp4" = None
  /\ resultOf r
     = Some (errorString
               ("input file validation failed: encoding_failed: input file probe failed (caused by: exit status 1"
                +:+ newline +:+ "FFmpeg output: No NVENC capable devices found)"))
  /\ invocations (eventsOf r) = [(probeArgs "in.mp4", false)].
Proof.
  intros e t r.
  assert (Hp : presets t !! ConfigPreset (config t) = Some Scripted.h264At1080p)
    by (vm_compute; reflexivity).
  assert (Hv : ValidateFilePath "in.mp4" = None) by reflexivity.
  destruct (processFile_probe_failure e t "in.mp4" ["in.mp4"] Scripted.h264At1080p
              (errorString "exit status 1") Hp Hv eq_refl) as (Hres & Hinv & _).
  split; [exact Hp | split; [exact Hv | split; [| exact Hinv]]].
  etransitivity; [exact Hres | vm_compute; reflexivity].
Defined.

Lemma processFile_directory_before_encoding_witness :
  let e := Scripted.env Scripted.onlyHardware Scripted.diagnostic in
  let t := Scripted.transcoder "1080p_h264" false false in
  let r := processFile e t "in.mp4" ["in.mp4"] in
  List.length (invocations (eventsOf r)) = 3%nat
  /\ exists before dir after,
       eventsOf r = before ++ MadeDir dir true :: after
       /\ invocations before = [(probeArgs "in.mp4", true)]
       /\ directoriesMade before = []
       /\ directoriesMade after = [].
Proof.
  intros e t r. split; [reflexivity |].
  apply (processFile_directory_before_encoding e t "in.mp4" ["in.mp4"]).
  vm_compute. lia.
Defined.

Lemma runTranscode_typed_error_witness :
  let e := Scripted.env Scripted.never Scripted.diagnostic in
  let h := ScriptedHost.host Scripted.never Scripted.diagnostic None in
  let f := ScriptedHost.flags "1080p_h264" false false in
  let r := Cmd.runTranscode e h Scripted.linux ScriptedHost.presetNames f ["in.mp4"] in
  resultOf r
  = Cmd.Returned
      (Some (TranscoderError ErrorTypeGPUNotAvailable
               "NVIDIA GPU not detected. Please ensure NVIDIA drivers are installed"
               (Some (errorString "exec: nvidia-smi: executable file not found"))))
  /\ eventsOf r
     = [ MadeDir "out" true;
         Printed "GPU check failed: gpu_not_available: NVIDIA GPU not detected. Please ensure NVIDIA drivers are installed (caused by: exec: nvidia-smi: executable file not found)";
         Printed "Consider using --no-gpu flag for software encoding" ]
  /\ stateOf r = ["in.mp4"].
Proof.
  intros e h f r.
  assert (Hres : resultOf r
    = Cmd.Returned
        (Some (TranscoderError ErrorTypeGPUNotAvailable
                 "NVIDIA GPU not detected. Please ensure NVIDIA drivers are installed"
                 (Some (errorString "exec: nvidia-smi: executable file not found")))))
    by (vm_compute; reflexivity).
  destruct (runTranscode_typed_error e h Scripted.linux ScriptedHost.presetNames f
              ["in.mp4"] _ _ _ Hres) as (_ & _ & t & made & _ & _ & _ & Hev).
  split; [exact Hres | split; [| vm_compute; reflexivity]].
  etransitivity; [exact Hev | vm_compute; reflexivity].
Defined.


Lemma runTranscode_success_witness :
  let e := Scripted.env Scripted.never Scripted.diagnostic in
  let h := ScriptedHost.host Scripted.never Scripted.diagnostic (Some ScriptedHost.oneGPU) in
  let f := ScriptedHost.flags "1080p_h264" false false in
  let r := Cmd.runTranscode e h Scripted.linux ScriptedHost.presetNames f ["in.mp4"] in
  resultOf r = Cmd.Returned None
  /\ progressLines (eventsOf r) = [(1%nat, 1%nat)]
  /\ exists total,
       (0 < total)%nat
       /\ progressLines (eventsOf r)
          = map (fun j => ((j + 1)%nat, total)) (seq 0 total)
       /\ In (Printed ("Found " +:+ pretty.pretty total +:+ " video file(s) to process"))
            (eventsOf r).
Proof.
  intros e h f r.
  assert (Hres : resultOf r = Cmd.Returned None) by (vm_compute; reflexivity).
  split; [exact Hres | split; [vm_compute; reflexivity |]].
  exact (proj2 (proj2 (runTranscode_success e h Scripted.linux ScriptedHost.presetNames f
                         ["in.mp4"] Hres))).
Defined.
